(** * Derived Encodable / Decodable conformances

    A shallow embedding of [lib/Sema/DerivedConformanceCodable.cpp]: the
    classification and validation of [CodingKeys] enums, their synthesis,
    the synthesized bodies of [encode(to:)] and [init(from:)], and
    [canSynthesize] with the two entry points [deriveEncodable] and
    [deriveDecodable].

    The AST is reduced to what this file reads and builds.  Declarations are
    records, the member list of the target type is an explicit list that
    [addMember] extends, diagnostics are collected in emission order, and an
    [llvm_unreachable] or a failed [assert] is the result [None]. *)

From Stdlib Require Import String List Bool Arith Lia.
Import ListNotations.
Local Open Scope string_scope.
Local Open Scope list_scope.

Set Implicit Arguments.
Local Set Warnings "-register-all".

(** ** Identifiers *)

Definition Identifier := string.

(** [Identifier()]: the empty identifier of an unnamed parameter. *)
Definition emptyIdentifier : Identifier := EmptyString.

Definition Id_CodingKeys : Identifier := "CodingKeys".
Definition Id_super : Identifier := "super".
Definition Id_container : Identifier := "container".
Definition Id_nestedContainer : Identifier := "nestedContainer".
Definition Id_nestedUnkeyedContainer : Identifier := "nestedUnkeyedContainer".
Definition Id_encoder : Identifier := "encoder".
Definition Id_decoder : Identifier := "decoder".
Definition Id_to : Identifier := "to".
Definition Id_from : Identifier := "from".
Definition Id_forKey : Identifier := "forKey".
Definition Id_keyedBy : Identifier := "keyedBy".
Definition Id_encode : Identifier := "encode".
Definition Id_decode : Identifier := "decode".
Definition Id_encodeIfPresent : Identifier := "encodeIfPresent".
Definition Id_decodeIfPresent : Identifier := "decodeIfPresent".
Definition Id_superEncoder : Identifier := "superEncoder".
Definition Id_superDecoder : Identifier := "superDecoder".
Definition Id_allKeys : Identifier := "allKeys".
Definition Id_first : Identifier := "first".

(** Combine two identifiers separated by an '_'. *)
Definition combineIdentifiers (first second : Identifier) : Identifier :=
  (first ++ "_" ++ second)%string.

(** ** Types, protocols, access *)

Inductive KnownProtocolKind := Encodable | Decodable | CodingKey.

Definition isSpecificProtocol (p kpk : KnownProtocolKind) : bool :=
  match p, kpk with
  | Encodable, Encodable | Decodable, Decodable | CodingKey, CodingKey => true
  | _, _ => false
  end.

Inductive Ty :=
| NominalType (name : Identifier)
| OptionalType (object : Ty).

(** Modelled from the spec: [TypeBase::getOptionalObjectType] is declared
    with the AST, outside this file.  It is the object type [T] of
    [Optional<T>], one level of option only, and null for any other type. *)
Definition getOptionalObjectType (t : Ty) : option Ty :=
  match t with
  | OptionalType object => Some object
  | NominalType _ => None
  end.

Inductive AccessLevel := Private | FilePrivate | Internal | Public | Open.

(** ** Declarations *)

Record PatternBindingDecl := {
  isDefaultInitializable : bool
}.

(** [VarDecl], also used for the [ParamDecl]s of an enum element (a
    [ParamDecl] is a [VarDecl]; [hasDefaultExpr] is read on parameters
    only).  [getOriginalWrappedProperty] is kept by the name of the wrapped
    property, the only thing the file reads from it. *)
Record VarDecl := {
  getName : Identifier;
  getValueInterfaceType : Ty;
  isStatic : bool;
  isUserAccessible : bool;
  isLet : bool;
  isParentInitialized : bool;
  getParentPatternBinding : option PatternBindingDecl;
  getOriginalWrappedProperty : option Identifier;
  hasDefaultExpr : bool
}.

(** An enum case.  [getParameterList] is null for a case without
    associated values: [hasAssociatedValues] is the test for [Some]. *)
Record EnumElementDecl := {
  getBaseIdentifier : Identifier;
  getParameterList : option (list VarDecl);
  elementIsImplicit : bool
}.

(** Modelled from the spec: [EnumElementDecl::hasAnyUnnamedParameters] is
    declared with the AST, outside this file.  It holds when at least one
    associated parameter of the case has no label; a case without
    parameters has none. *)
Definition hasAnyUnnamedParameters (elt : EnumElementDecl) : bool :=
  match getParameterList elt with
  | Some params =>
      existsb (fun p => String.eqb (getName p) emptyIdentifier) params
  | None => false
  end.

(** Members of a nested enum: its cases, and anything else it declares. *)
Inductive EnumMemberDecl :=
| CaseMember (elt : EnumElementDecl)
| NonCaseMember (name : Identifier).

(** A nested [EnumDecl] such as [CodingKeys] or [CodingKeys_<case>]. *)
Record EnumDecl := {
  enumName : Identifier;
  enumMembers : list EnumMemberDecl;
  enumIsImplicit : bool;
  enumIsSynthesized : bool;
  enumAccess : AccessLevel;
  enumInherited : list KnownProtocolKind
}.

Definition enumMemberName (m : EnumMemberDecl) : Identifier :=
  match m with
  | CaseMember elt => getBaseIdentifier elt
  | NonCaseMember name => name
  end.

Fixpoint casesOf (ms : list EnumMemberDecl) : list EnumElementDecl :=
  match ms with
  | [] => []
  | CaseMember elt :: rest => elt :: casesOf rest
  | NonCaseMember _ :: rest => casesOf rest
  end.

Definition enumAllElements (e : EnumDecl) : list EnumElementDecl :=
  casesOf (enumMembers e).

(** Modelled from the spec: [EnumDecl::hasCases] is declared with the AST,
    outside this file.  The enum has at least one case. *)
Definition hasCases (e : EnumDecl) : bool :=
  match enumAllElements e with
  | [] => false
  | _ :: _ => true
  end.

Definition enumDeclaredInterfaceType (e : EnumDecl) : Ty :=
  NominalType (enumName e).

(** What [getAnyNominal] finds behind a typealias. *)
Inductive NominalRef :=
| NominalEnum (e : EnumDecl)
| NominalNotEnum (name : Identifier).

(** The members of the target type that [lookupDirect] can return. *)
Inductive Decl :=
| VarMember (v : VarDecl) (backing : option VarDecl)
| ElementMember (elt : EnumElementDecl)
| EnumMember (e : EnumDecl)
| TypeAliasMember (name : Identifier) (declaredInterfaceType : Ty)
                  (anyNominal : option NominalRef)
| OtherTypeMember (name : Identifier) (declaredInterfaceType : Ty)
| OtherValueMember (name : Identifier).

Definition declName (d : Decl) : Identifier :=
  match d with
  | VarMember v _ => getName v
  | ElementMember elt => getBaseIdentifier elt
  | EnumMember e => enumName e
  | TypeAliasMember name _ _ => name
  | OtherTypeMember name _ => name
  | OtherValueMember name => name
  end.

Record ConstructorDecl := {
  ctorArgumentNames : list Identifier;
  isDesignatedInit : bool;
  isAccessibleFrom : bool;
  accessLevelForDiagnostics : AccessLevel;
  isFailable : bool;
  hasThrows : bool
}.

Record SuperclassDecl := {
  superclassName : Identifier;
  superclassDeclaredInterfaceType : Ty;
  superclassConstructors : list ConstructorDecl
}.

Record ClassInfo := {
  isFinal : bool;
  getSuperclass : Ty;
  getSuperclassDecl : option SuperclassDecl
}.

Inductive NominalKind :=
| StructKind
| ClassKind (c : ClassInfo)
| EnumKind
| ProtocolKind.

Record NominalTypeDecl := {
  nominalName : Identifier;
  nominalKind : NominalKind;
  getMembers : list Decl;
  getStoredProperties : list VarDecl;
  getFormalAccess : AccessLevel
}.

Definition getDeclaredInterfaceType (t : NominalTypeDecl) : Ty :=
  NominalType (nominalName t).

(** Modelled from the spec: [NominalTypeDecl::lookupDirect] is declared
    with the AST, outside this file.  It is the direct members under the
    name, here in the order of declaration. *)
Definition lookupDirect (name : Identifier) (t : NominalTypeDecl) : list Decl :=
  filter (fun d => String.eqb (declName d) name) (getMembers t).

(** Modelled from the spec: [IterableDeclContext::addMember] is declared
    with the AST, outside this file.  The declaration becomes the last
    member of the type. *)
Definition addMember (d : Decl) (t : NominalTypeDecl) : NominalTypeDecl :=
  {| nominalName := nominalName t;
     nominalKind := nominalKind t;
     getMembers := getMembers t ++ [d];
     getStoredProperties := getStoredProperties t;
     getFormalAccess := getFormalAccess t |}.

Fixpoint elementsOf (ds : list Decl) : list EnumElementDecl :=
  match ds with
  | [] => []
  | ElementMember elt :: rest => elt :: elementsOf rest
  | _ :: rest => elementsOf rest
  end.

(** [EnumDecl::getAllElements] on the target enum. *)
Definition getAllElements (t : NominalTypeDecl) : list EnumElementDecl :=
  elementsOf (getMembers t).

(** [dyn_cast<ClassDecl>]. *)
Definition asClassDecl (t : NominalTypeDecl) : option ClassInfo :=
  match nominalKind t with
  | ClassKind c => Some c
  | _ => None
  end.

(** [dyn_cast<EnumDecl>] on the target. *)
Definition isEnumDecl (t : NominalTypeDecl) : bool :=
  match nominalKind t with
  | EnumKind => true
  | _ => false
  end.

(** A declaration name: a base name, and the argument labels of a compound
    name. *)
Inductive DeclBaseName :=
| BaseIdentifier (name : Identifier)
| BaseConstructor.

Record DeclName := {
  getBaseName : DeclBaseName;
  getArgumentNames : list Identifier
}.

(** ** Diagnostics *)

Inductive Diagnostic :=
| codable_extraneous_codingkey_case_here (elt : Identifier)
| codable_non_conforming_property_here
    (proto : KnownProtocolKind) (var : Identifier) (ty : Ty)
| codable_non_decoded_property_here
    (proto : KnownProtocolKind) (var : Identifier) (codingName : Identifier)
| codable_codingkeys_type_is_not_an_enum_here
    (proto : KnownProtocolKind) (loc : Identifier)
| codable_codingkeys_type_does_not_conform_here
    (proto : KnownProtocolKind) (loc : Identifier)
| decodable_no_super_init_here (requirement memberName : DeclName)
| decodable_super_init_not_designated_here (requirement memberName : DeclName)
| decodable_inaccessible_super_init_here
    (requirement memberName : DeclName) (access : AccessLevel)
| decodable_super_init_is_failable_here (requirement memberName : DeclName)
| decodable_property_will_not_be_decoded (var : Identifier)
| decodable_property_init_or_codingkeys_implicit
    (selector : nat) (var : Identifier)
| decodable_property_init_or_codingkeys_explicit (var : Identifier)
| decodable_make_property_mutable (var : Identifier)
| type_does_not_conform (nominal : Identifier) (proto : KnownProtocolKind)
| no_witnesses (requirement : DeclName) (proto : KnownProtocolKind)
| broken_encodable_requirement
| broken_decodable_requirement.

(** ** The synthesized AST *)

Inductive Introducer := Let | Var.

(** The interface type of a synthesized container variable. *)
Inductive ContainerType :=
| KeyedEncodingContainer (keyType : Ty)
| KeyedDecodingContainer (keyType : Ty)
| UnkeyedEncodingContainer
| UnkeyedDecodingContainer.

Record LocalVarDecl := {
  localIntroducer : Introducer;
  localName : Identifier;
  localInterfaceType : ContainerType;
  localIsSynthesized : bool
}.

Inductive Expr :=
| DeclRefExpr (decl : Identifier)
| SuperRefExpr
| TypeExpr (ty : Ty)
| DotSelfExpr (sub : Expr)
| MemberRefExpr (base : Expr) (member : Identifier)
| UnresolvedDotExpr (base : Expr) (name : DeclBaseName)
                    (argLabels : option (list Identifier))
| UnresolvedDeclRefExpr (name : Identifier)
| DotSyntaxCallExpr (first second : Expr)
| CallExpr (fn : Expr) (args : list Expr) (argLabels : list Identifier)
| TryExpr (sub : Expr)
| AssignExpr (dest src : Expr)
| StringLiteralExpr (value : string)
| TypeCheckedDefaultExpr (param : Identifier).

Inductive Pattern :=
| NamedPattern (var : LocalVarDecl)
| EnumElementPattern (ty : Ty) (elt : Identifier)
| OptionalSomePattern (sub : Pattern)
| AnyPattern.

Inductive CaseLabelItem :=
| CaseLabel (pattern : Pattern)
| DefaultLabel (pattern : Pattern).

Inductive ASTNode :=
| ExprNode (e : Expr)
| PatternBindingNode (pattern : Pattern) (init : Expr)
| VarDeclNode (v : LocalVarDecl)
| SwitchNode (subject : Expr) (cases : list (CaseLabelItem * list ASTNode)).

Definition CaseStmt := (CaseLabelItem * list ASTNode)%type.

(** The attributes and the body synthesizer of a synthesized witness. *)
Inductive DeclAttribute :=
| OverrideAttr (isImplicit : bool)
| RequiredAttr (isImplicit : bool).

Inductive BodySynthesizer :=
| BodyEncodable_enum_encode
| BodyEncodable_encode
| BodyDecodable_enum_init
| BodyDecodable_init.

(** The [FuncDecl] made by [deriveEncodable_encode]. *)
Record SynthesizedFunc := {
  funcName : DeclName;
  funcIsAsync : bool;
  funcThrows : bool;
  funcAttrs : list DeclAttribute;
  funcAccess : AccessLevel;
  funcBodySynthesizer : BodySynthesizer
}.

(** The [ConstructorDecl] made by [deriveDecodable_init]. *)
Record SynthesizedInit := {
  initName : DeclName;
  initIsFailable : bool;
  initThrows : bool;
  initAttrs : list DeclAttribute;
  initAccess : AccessLevel;
  initBodySynthesizer : BodySynthesizer
}.

(** ** External collaborators

    The queries this file sends to the type checker, the module's
    conformance table and the conformance context.  [lookupMember] is
    asked for initializers only.  [copyFormalAccessFrom] is the access that
    [ValueDecl::copyFormalAccessFrom] gives a member of a type with the
    given access.  [checkAndDiagnoseDisallowedContext] emits a diagnostic of
    its own when it holds, which is not recorded here. *)
Record Sema := {
  conformsToProtocol : Ty -> KnownProtocolKind -> bool;
  lookupConformance : Ty -> KnownProtocolKind -> bool;
  mapTypeIntoContext : Ty -> Ty;
  lookupMember : SuperclassDecl -> DeclName -> list ConstructorDecl;
  copyFormalAccessFrom : AccessLevel -> AccessLevel;
  checkAndDiagnoseDisallowedContext : DeclName -> bool
}.

Record DerivedConformance := {
  Nominal : NominalTypeDecl;
  Protocol : KnownProtocolKind
}.

Definition withNominal (derived : DerivedConformance) (t : NominalTypeDecl)
  : DerivedConformance :=
  {| Nominal := t; Protocol := Protocol derived |}.

(** ** The ordered property map ([llvm::SmallMapVector]) *)

Definition PropertyMap := list (Identifier * VarDecl).

(** [properties[key] = var]: overwrite in place, or append. *)
Fixpoint mapAssign (key : Identifier) (var : VarDecl) (m : PropertyMap)
  : PropertyMap :=
  match m with
  | [] => [(key, var)]
  | (k, v) :: rest =>
      if String.eqb k key then (k, var) :: rest
      else (k, v) :: mapAssign key var rest
  end.

Definition mapFind (key : Identifier) (m : PropertyMap)
  : option (Identifier * VarDecl) :=
  find (fun entry => String.eqb (fst entry) key) m.

Definition mapErase (key : Identifier) (m : PropertyMap) : PropertyMap :=
  filter (fun entry => negb (String.eqb (fst entry) key)) m.

Section Synthesizer.

Variable sema : Sema.

(** Returns whether the type represented by the given ClassDecl inherits
    from a type which conforms to the given protocol. *)
Definition superclassConformsTo (target : option ClassInfo)
                                (kpk : KnownProtocolKind) : bool :=
  match target with
  | None => false
  | Some c =>
      match getSuperclassDecl c with
      | None => false
      | Some _ => lookupConformance sema (getSuperclass c) kpk
      end
  end.

(** [VarDecl::getType]: the interface type in the context of the
    declaration. *)
Definition getType (varDecl : VarDecl) : Ty :=
  mapTypeIntoContext sema (getValueInterfaceType varDecl).

(** Retrieve the variable name for the purposes of encoding/decoding. *)
Definition getVarNameForCoding (var : VarDecl) : Identifier :=
  match getOriginalWrappedProperty var with
  | Some originalVar => originalVar
  | None => getName var
  end.

(** The first loop of both validators: the user-accessible variables, by
    coding name. *)
Fixpoint collectProperties (vars : list VarDecl) (properties : PropertyMap)
  : PropertyMap :=
  match vars with
  | [] => properties
  | varDecl :: rest =>
      if negb (isUserAccessible varDecl) then collectProperties rest properties
      else collectProperties rest
             (mapAssign (getVarNameForCoding varDecl) varDecl properties)
  end.

(** The second loop of both validators (the same text in both): every case
    of the key enum must name a property whose type conforms.  Returns the
    properties left over, [propertiesAreValid] and the diagnostics. *)
Fixpoint validateElements (proto : KnownProtocolKind)
    (elts : list EnumElementDecl) (properties : PropertyMap)
  : PropertyMap * bool * list Diagnostic :=
  match elts with
  | [] => (properties, true, [])
  | elt :: rest =>
      match mapFind (getBaseIdentifier elt) properties with
      | None =>
          let '(properties', _, diags) :=
            validateElements proto rest properties in
          (properties', false,
           codable_extraneous_codingkey_case_here (getBaseIdentifier elt)
             :: diags)
      | Some (_, var) =>
          let target :=
            mapTypeIntoContext sema (getValueInterfaceType var) in
          if negb (conformsToProtocol sema target proto) then
            let '(properties', _, diags) :=
              validateElements proto rest properties in
            (properties', false,
             codable_non_conforming_property_here proto (getName var)
               (getType var) :: diags)
          else
            validateElements proto rest
              (mapErase (getBaseIdentifier elt) properties)
      end
  end.

(** A property left out of the key enum can be skipped on decode when it has
    a default value. *)
Definition hasDefaultValue (var : VarDecl) : bool :=
  match getParentPatternBinding var with
  | Some pbd => if isDefaultInitializable pbd then true
                else isParentInitialized var
  | None => isParentInitialized var
  end.

(** Validates the given CodingKeys enum decl by ensuring its cases are a
    1-to-1 match with the stored vars of the given type. *)
Definition validateCodingKeysEnum (derived : DerivedConformance)
    (codingKeysDecl : EnumDecl) : bool * list Diagnostic :=
  let properties :=
    collectProperties (getStoredProperties (Nominal derived)) [] in
  let '(properties, propertiesAreValid, diags) :=
    validateElements (Protocol derived) (enumAllElements codingKeysDecl)
                     properties in
  if negb propertiesAreValid then (false, diags)
  else if isSpecificProtocol (Protocol derived) Decodable then
    let missing :=
      filter (fun entry => negb (hasDefaultValue (snd entry))) properties in
    (match missing with [] => true | _ :: _ => false end,
     diags ++ map (fun entry =>
                     codable_non_decoded_property_here (Protocol derived)
                       (getName (snd entry)) (fst entry)) missing)
  else (true, diags).

(** Validates the given CodingKeys enum decl by ensuring its cases are a
    1-to-1 match with the stored vars of the given EnumElementDecl. *)
Definition validateCaseCodingKeysEnum (derived : DerivedConformance)
    (elementDecl : EnumElementDecl) (codingKeysDecl : EnumDecl)
  : bool * list Diagnostic :=
  let properties :=
    match getParameterList elementDecl with
    | Some params => collectProperties params []
    | None => []
    end in
  let '(properties, propertiesAreValid, diags) :=
    validateElements (Protocol derived) (enumAllElements codingKeysDecl)
                     properties in
  if negb propertiesAreValid then (false, diags)
  else if isSpecificProtocol (Protocol derived) Decodable then
    let missing :=
      filter (fun entry => negb (hasDefaultExpr (snd entry))) properties in
    (match missing with [] => true | _ :: _ => false end,
     diags ++ map (fun entry =>
                     codable_non_decoded_property_here (Protocol derived)
                       (getName (snd entry)) (fst entry)) missing)
  else (true, diags).

(** A type which has information about the validity of an encountered
    CodingKeys type. *)
Inductive CodingKeysClassification :=
| Invalid
| NeedsSynthesizedCodingKeys
| Valid.

(** Returns whether the given ValueDecl is an enum conforming to the
    CodingKey protocol.  A typealias is followed to its nominal type.  The
    source applies [dyn_cast<EnumDecl>] to the null declaration of an alias
    whose type conforms although it names no nominal type; that input is
    given the not-an-enum result here. *)
Definition validateCodingKeysProtocolConformance
    (derived : DerivedConformance) (decl : Decl)
  : option EnumDecl * list Diagnostic :=
  let notAnEnum loc :=
    (@None EnumDecl,
     [codable_codingkeys_type_is_not_an_enum_here (Protocol derived) loc]) in
  let checked (codingKeysType : Ty) (codingKeysTypeDecl : option NominalRef)
              (loc : Identifier) :=
    if negb (conformsToProtocol sema codingKeysType CodingKey) then
      (@None EnumDecl,
       [codable_codingkeys_type_does_not_conform_here (Protocol derived) loc])
    else
      match codingKeysTypeDecl with
      | Some (NominalEnum codingKeysEnum) => (Some codingKeysEnum, [])
      | Some (NominalNotEnum name) => notAnEnum name
      | None => notAnEnum loc
      end in
  match decl with
  | VarMember _ _ | ElementMember _ | OtherValueMember _ =>
      notAnEnum (declName decl)
  | EnumMember e =>
      checked (enumDeclaredInterfaceType e) (Some (NominalEnum e)) (enumName e)
  | OtherTypeMember name ty =>
      checked ty (Some (NominalNotEnum name)) name
  | TypeAliasMember name ty anyNominal =>
      checked ty anyNominal
        (match anyNominal with
         | Some (NominalEnum e) => enumName e
         | Some (NominalNotEnum n) => n
         | None => name
         end)
  end.

(** The loop of [classifyCodingKeys] over the cases of a target enum. *)
Fixpoint classifyCases (derived : DerivedConformance)
    (elts : list EnumElementDecl) (needsSynthesis : bool)
  : CodingKeysClassification * list Diagnostic :=
  match elts with
  | [] =>
      (if needsSynthesis then NeedsSynthesizedCodingKeys else Valid, [])
  | elt :: rest =>
      let caseCodingKeyId :=
        combineIdentifiers Id_CodingKeys (getBaseIdentifier elt) in
      match lookupDirect caseCodingKeyId (Nominal derived) with
      | [] => classifyCases derived rest true
      | front :: _ =>
          match validateCodingKeysProtocolConformance derived front with
          | (None, diags) => (Invalid, diags)
          | (Some caseCodingKeysEnum, diags) =>
              let '(ok, diags') :=
                validateCaseCodingKeysEnum derived elt caseCodingKeysEnum in
              if negb ok then (Invalid, diags ++ diags')
              else
                let '(result, diags'') :=
                  classifyCases derived rest needsSynthesis in
                (result, diags ++ diags' ++ diags'')
          end
      end
  end.

(** Returns whether the given type has a valid nested CodingKeys enum. *)
Definition classifyCodingKeys (derived : DerivedConformance)
  : CodingKeysClassification * list Diagnostic :=
  let codingKeysDecls := lookupDirect Id_CodingKeys (Nominal derived) in
  match codingKeysDecls with
  | [] =>
      if isEnumDecl (Nominal derived) then
        classifyCases derived (getAllElements (Nominal derived)) true
      else (NeedsSynthesizedCodingKeys, [])
  | front :: _ =>
      match validateCodingKeysProtocolConformance derived front with
      | (None, diags) => (Invalid, diags)
      | (Some codingKeysEnum, diags) =>
          if isEnumDecl (Nominal derived) then
            let '(result, diags') :=
              classifyCases derived (getAllElements (Nominal derived))
                            false in
            (result, diags ++ diags')
          else
            let '(ok, diags') :=
              validateCodingKeysEnum derived codingKeysEnum in
            (if ok then Valid else Invalid, diags ++ diags')
      end
  end.

(** Fetches the CodingKeys enum nested in [target], potentially reaching
    through a typealias.  The second overload of the source takes the
    identifier to look up; the first one is this one at [Id_CodingKeys].
    Behind an alias without a nominal type the source casts a null
    declaration; the result is null here. *)
Definition lookupEvaluatedCodingKeysEnum (target : NominalTypeDecl)
    (identifier : Identifier) : option EnumDecl :=
  match lookupDirect identifier target with
  | [] => None
  | codingKeysDecl :: _ =>
      match codingKeysDecl with
      | TypeAliasMember _ _ (Some (NominalEnum e)) => Some e
      | EnumMember e => Some e
      | _ => None
      end
  end.

Definition lookupEnumCase (target : EnumDecl) (identifier : Identifier)
  : option EnumElementDecl :=
  match filter (fun m => String.eqb (enumMemberName m) identifier)
               (enumMembers target) with
  | [] => None
  | CaseMember elt :: _ => Some elt
  | NonCaseMember _ :: _ => None
  end.

(** [new (C) EnumElementDecl(SourceLoc(), name, ...)] followed by
    [setImplicit]. *)
Definition implicitElement (name : Identifier) : EnumElementDecl :=
  {| getBaseIdentifier := name;
     getParameterList := None;
     elementIsImplicit := true |}.

Definition enumAddMember (elt : EnumElementDecl) (e : EnumDecl) : EnumDecl :=
  {| enumName := enumName e;
     enumMembers := enumMembers e ++ [CaseMember elt];
     enumIsImplicit := enumIsImplicit e;
     enumIsSynthesized := enumIsSynthesized e;
     enumAccess := enumAccess e;
     enumInherited := enumInherited e |}.

(** [new (C) EnumDecl(SourceLoc(), name, SourceLoc(), inherited, nullptr,
    target)] with [inherited] the [CodingKey] protocol, then [setImplicit]
    and [setAccess(AccessLevel::Private)]. *)
Definition newCodingKeysEnum (name : Identifier) (synthesized : bool)
  : EnumDecl :=
  {| enumName := name;
     enumMembers := [];
     enumIsImplicit := true;
     enumIsSynthesized := synthesized;
     enumAccess := Private;
     enumInherited := [CodingKey] |}.

(** The lambda [add] of [synthesizeCodingKeysEnum_enum]. *)
Definition add (derived : DerivedConformance) (varDecl : VarDecl)
    (enumDecl : EnumDecl) : bool * EnumDecl * list Diagnostic :=
  if negb (isUserAccessible varDecl) then (true, enumDecl, [])
  else
    let target := mapTypeIntoContext sema (getValueInterfaceType varDecl) in
    if negb (conformsToProtocol sema target (Protocol derived)) then
      (false, enumDecl,
       [codable_non_conforming_property_here (Protocol derived)
          (getName varDecl) (getType varDecl)])
    else
      (true,
       enumAddMember (implicitElement (getVarNameForCoding varDecl)) enumDecl,
       []).

(** [allConform = allConform && add(paramDecl, nestedEnum)] over the
    parameters of one case: [add] is no longer called once [allConform] is
    false. *)
Fixpoint addParams (derived : DerivedConformance) (params : list VarDecl)
    (allConform : bool) (nestedEnum : EnumDecl)
  : bool * EnumDecl * list Diagnostic :=
  match params with
  | [] => (allConform, nestedEnum, [])
  | paramDecl :: rest =>
      if allConform then
        let '(ok, nestedEnum', diags) := add derived paramDecl nestedEnum in
        let '(allConform', nestedEnum'', diags') :=
          addParams derived rest ok nestedEnum' in
        (allConform', nestedEnum'', diags ++ diags')
      else addParams derived rest false nestedEnum
  end.

(** The second loop of [synthesizeCodingKeysEnum_enum]: one nested
    [CodingKeys_<case>] enum per case of the target. *)
Fixpoint synthesizeCaseCodingKeys (derived : DerivedConformance)
    (codingKeysEnum : EnumDecl) (elements : list EnumElementDecl)
    (target : NominalTypeDecl) (allConform : bool)
  : NominalTypeDecl * bool * list Diagnostic :=
  match elements with
  | [] => (target, allConform, [])
  | elementDecl :: rest =>
      let enumIdentifier :=
        combineIdentifiers Id_CodingKeys (getBaseIdentifier elementDecl) in
      match lookupEnumCase codingKeysEnum (getBaseIdentifier elementDecl) with
      | None =>
          synthesizeCaseCodingKeys derived codingKeysEnum rest target
                                   allConform
      | Some _ =>
          match lookupDirect enumIdentifier target with
          | _ :: _ =>
              synthesizeCaseCodingKeys derived codingKeysEnum rest target
                                       allConform
          | [] =>
              if hasAnyUnnamedParameters elementDecl then
                synthesizeCaseCodingKeys derived codingKeysEnum rest target
                                         allConform
              else
                let nestedEnum := newCodingKeysEnum enumIdentifier false in
                let '(allConform', nestedEnum', diags) :=
                  match getParameterList elementDecl with
                  | Some elementParams =>
                      addParams derived elementParams allConform nestedEnum
                  | None => (allConform, nestedEnum, [])
                  end in
                let '(target', allConform'', diags') :=
                  synthesizeCaseCodingKeys derived codingKeysEnum rest
                    (addMember (EnumMember nestedEnum') target) allConform' in
                (target', allConform'', diags ++ diags')
          end
      end
  end.

(** The outer [CodingKeys] enum that [synthesizeCodingKeysEnum_enum] builds
    when there is none: one case per case of the target. *)
Definition synthesizedOuterCodingKeys (target : NominalTypeDecl) : EnumDecl :=
  fold_left (fun enumDecl elementDecl =>
               enumAddMember (implicitElement (getBaseIdentifier elementDecl))
                             enumDecl)
            (getAllElements target)
            (newCodingKeysEnum Id_CodingKeys false).

(** Synthesizes the CodingKeys enums of a target enum.  Adds them directly
    to the target, which is [derived.Nominal]. *)
Definition synthesizeCodingKeysEnum_enum (derived : DerivedConformance)
    (target : NominalTypeDecl) : bool * NominalTypeDecl * list Diagnostic :=
  let '(codingKeysEnum, target1) :=
    match lookupEvaluatedCodingKeysEnum target Id_CodingKeys with
    | Some codingKeysEnum => (codingKeysEnum, target)
    | None =>
        let enumDecl := synthesizedOuterCodingKeys target in
        (enumDecl, addMember (EnumMember enumDecl) target)
    end in
  let '(target2, allConform, diags) :=
    synthesizeCaseCodingKeys derived codingKeysEnum (getAllElements target)
                             target1 true in
  (allConform, target2, diags).

(** The loop of [synthesizeCodingKeysEnum] over the stored properties. *)
Fixpoint addStoredProperties (derived : DerivedConformance)
    (vars : list VarDecl) (enumDecl : EnumDecl) (allConform : bool)
  : bool * EnumDecl * list Diagnostic :=
  match vars with
  | [] => (allConform, enumDecl, [])
  | varDecl :: rest =>
      if negb (isUserAccessible varDecl) then
        addStoredProperties derived rest enumDecl allConform
      else
        let target :=
          mapTypeIntoContext sema (getValueInterfaceType varDecl) in
        if negb (conformsToProtocol sema target (Protocol derived)) then
          let '(allConform', enumDecl', diags) :=
            addStoredProperties derived rest enumDecl false in
          (allConform', enumDecl',
           codable_non_conforming_property_here (Protocol derived)
             (getName varDecl) (getType varDecl) :: diags)
        else
          addStoredProperties derived rest
            (enumAddMember (implicitElement (getVarNameForCoding varDecl))
                           enumDecl)
            allConform
  end.

(** Synthesizes a new CodingKeys enum based on the {En,De}codable members
    of the given type.  If able to synthesize the enum, adds it directly to
    [derived.Nominal]. *)
Definition synthesizeCodingKeysEnum (derived : DerivedConformance)
  : bool * NominalTypeDecl * list Diagnostic :=
  let target := Nominal derived in
  if isEnumDecl target then synthesizeCodingKeysEnum_enum derived target
  else
    let enumDecl := newCodingKeysEnum Id_CodingKeys true in
    let classDecl := asClassDecl target in
    let enumDecl :=
      if superclassConformsTo classDecl Encodable
         || superclassConformsTo classDecl Decodable
      then enumAddMember (implicitElement Id_super) enumDecl
      else enumDecl in
    let '(allConform, enumDecl, diags) :=
      addStoredProperties derived (getStoredProperties target) enumDecl
                          true in
    if negb allConform then (false, target, diags)
    else (true, addMember (EnumMember enumDecl) target, diags).

(** The name of the constructor [init()]: a compound name taking no
    arguments. *)
Definition initNoArguments : DeclName :=
  {| getBaseName := BaseConstructor; getArgumentNames := [] |}.

(** The first block of [canSynthesize]: when deriving Decodable for a class
    with a superclass, the initializer that the synthesized [init(from:)]
    will call must be there.  [Some diags] when the block returns false,
    with the diagnostics it has emitted; [None] when it falls through. *)
Definition superclassInitFailure (derived : DerivedConformance)
    (requirement : DeclName) : option (list Diagnostic) :=
  let proto := Protocol derived in
  match asClassDecl (Nominal derived) with
  | Some classDecl =>
      if isSpecificProtocol proto Decodable then
        match getSuperclassDecl classDecl with
        | Some superclassDecl =>
            let superType :=
              superclassDeclaredInterfaceType superclassDecl in
            let memberName :=
              if conformsToProtocol sema superType proto then requirement
              else initNoArguments in
            match lookupMember sema superclassDecl memberName with
            | [] =>
                Some [decodable_no_super_init_here requirement memberName]
            | _ :: _ :: _ => Some []
            | [initializer] =>
                if negb (isDesignatedInit initializer) then
                  Some [decodable_super_init_not_designated_here
                          requirement memberName]
                else if negb (isAccessibleFrom initializer) then
                  Some [decodable_inaccessible_super_init_here
                          requirement memberName
                          (accessLevelForDiagnostics initializer)]
                else if isFailable initializer then
                  Some [decodable_super_init_is_failable_here
                          requirement memberName]
                else None
            end
        | None => None
        end
      else None
  | None => None
  end.

(** Returns whether the given type is valid for synthesizing
    {En,De}codable.  Checks to see whether the given type has a valid
    CodingKeys enum, and if not, attempts to synthesize one for it.  The
    result carries the target, with what was added to it, and the
    diagnostics. *)
Definition canSynthesize (derived : DerivedConformance)
    (requirement : DeclName) : bool * NominalTypeDecl * list Diagnostic :=
  match superclassInitFailure derived requirement with
  | Some diags => (false, Nominal derived, diags)
  | None =>
      match classifyCodingKeys derived with
      | (Invalid, diags) => (false, Nominal derived, diags)
      | (NeedsSynthesizedCodingKeys, diags) =>
          let '(ok, target, diags') := synthesizeCodingKeysEnum derived in
          (ok, target, diags ++ diags')
      | (Valid, diags) => (true, Nominal derived, diags)
      end
  end.

(** ** Building blocks of the synthesized bodies *)

(** Creates a new var decl representing
    [var/let container : containerBase<keyType>]. *)
Definition createKeyedContainer (keyedContainer : Ty -> ContainerType)
    (keyType : Ty) (introducer : Introducer) (name : Identifier)
  : LocalVarDecl :=
  {| localIntroducer := introducer;
     localName := name;
     localInterfaceType := keyedContainer keyType;
     localIsSynthesized := true |}.

(** Creates a new var decl representing [var/let container : containerBase]
    for an unkeyed container. *)
Definition createUnkeyedContainer (unkeyedContainer : ContainerType)
    (introducer : Introducer) (name : Identifier) : LocalVarDecl :=
  {| localIntroducer := introducer;
     localName := name;
     localInterfaceType := unkeyedContainer;
     localIsSynthesized := false |}.

(** Creates a new CallExpr representing
    [base.container(keyedBy: CodingKeys.self)]. *)
Definition createContainerKeyedByCall (base : Expr) (param : EnumDecl)
  : Expr :=
  let unboundCall :=
    UnresolvedDotExpr base (BaseIdentifier Id_container)
                      (Some [Id_keyedBy]) in
  let codingKeysExpr :=
    TypeExpr (mapTypeIntoContext sema (enumDeclaredInterfaceType param)) in
  let codingKeysMetaTypeExpr := DotSelfExpr codingKeysExpr in
  CallExpr unboundCall [codingKeysMetaTypeExpr] [Id_keyedBy].

(** [base.nestedContainer(keyedBy: CodingKeys.self, forKey: key)];
    [parentEnum] is [key->getParentEnum()]. *)
Definition createNestedContainerKeyedByForKeyCall (base : Expr)
    (codingKeysType : EnumDecl) (parentEnum : EnumDecl)
    (key : EnumElementDecl) : Expr :=
  let argNames := [Id_keyedBy; Id_forKey] in
  let unboundCall :=
    UnresolvedDotExpr base (BaseIdentifier Id_nestedContainer)
                      (Some argNames) in
  let codingKeysExpr :=
    TypeExpr (mapTypeIntoContext sema
                (enumDeclaredInterfaceType codingKeysType)) in
  let codingKeysMetaTypeExpr := DotSelfExpr codingKeysExpr in
  let metaTyRef :=
    TypeExpr (mapTypeIntoContext sema
                (enumDeclaredInterfaceType parentEnum)) in
  let keyExpr := MemberRefExpr metaTyRef (getBaseIdentifier key) in
  CallExpr unboundCall [codingKeysMetaTypeExpr; keyExpr] argNames.

(** [base.nestedUnkeyedContainer(forKey: key)]. *)
Definition createNestedUnkeyedContainerForKeyCall (base : Expr)
    (parentEnum : EnumDecl) (key : EnumElementDecl) : Expr :=
  let unboundCall :=
    UnresolvedDotExpr base (BaseIdentifier Id_nestedUnkeyedContainer)
                      (Some [Id_forKey]) in
  let metaTyRef :=
    TypeExpr (mapTypeIntoContext sema
                (enumDeclaredInterfaceType parentEnum)) in
  let keyExpr := MemberRefExpr metaTyRef (getBaseIdentifier key) in
  CallExpr unboundCall [keyExpr] [Id_forKey].

(** The loop of [lookupVarDeclForCodingKeysCase] over the lookup results. *)
Fixpoint findVarDecl (decls : list Decl) : option (VarDecl * Ty * bool) :=
  match decls with
  | [] => None
  | VarMember vd backing :: rest =>
      let vd := match backing with
                | Some backingVar => backingVar
                | None => vd
                end in
      if negb (isStatic vd) then
        let varType := mapTypeIntoContext sema (getValueInterfaceType vd) in
        match getOptionalObjectType varType with
        | Some objType => Some (vd, objType, true)
        | None => Some (vd, varType, false)
        end
      else findVarDecl rest
  | _ :: rest => findVarDecl rest
  end.

(** Looks up the property corresponding to the indicated coding key.
    Returns the VarDecl for the property, the type that should be passed
    when decoding it, and a boolean which is true if
    encodeIfPresent/decodeIfPresent should be used for this property.
    [None] is the [llvm_unreachable] of the source. *)
Definition lookupVarDeclForCodingKeysCase (elt : EnumElementDecl)
    (targetDecl : NominalTypeDecl) : option (VarDecl * Ty * bool) :=
  findVarDecl (lookupDirect (getBaseIdentifier elt) targetDecl).

(** [DerivedConformance::createSelfDeclRef]. *)
Definition createSelfDeclRef : Expr := DeclRefExpr "self".

(** [try container.encode(self.x, forKey: CodingKeys.x)], or
    [encodeIfPresent]: the body of the member loop of
    [deriveBodyEncodable_encode]. *)
Definition encodeMemberStatement (containerExpr : Expr) (codingKeysType : Ty)
    (elt : EnumElementDecl) (varDecl : VarDecl) (useIfPresentVariant : bool)
  : ASTNode :=
  let selfRef := createSelfDeclRef in
  let varExpr := MemberRefExpr selfRef (getName varDecl) in
  let metaTyRef := TypeExpr codingKeysType in
  let keyExpr := MemberRefExpr metaTyRef (getBaseIdentifier elt) in
  let methodName :=
    if useIfPresentVariant then Id_encodeIfPresent else Id_encode in
  let argNames := [emptyIdentifier; Id_forKey] in
  let encodeCall :=
    UnresolvedDotExpr containerExpr (BaseIdentifier methodName)
                      (Some argNames) in
  let callExpr := CallExpr encodeCall [varExpr; keyExpr] argNames in
  ExprNode (TryExpr callExpr).

Fixpoint encodeMembers (targetDecl : NominalTypeDecl) (containerExpr : Expr)
    (codingKeysType : Ty) (elts : list EnumElementDecl)
  : option (list ASTNode) :=
  match elts with
  | [] => Some []
  | elt :: rest =>
      match lookupVarDeclForCodingKeysCase elt targetDecl with
      | None => None
      | Some (varDecl, _, useIfPresentVariant) =>
          match encodeMembers targetDecl containerExpr codingKeysType rest with
          | None => None
          | Some statements =>
              Some (encodeMemberStatement containerExpr codingKeysType elt
                      varDecl useIfPresentVariant :: statements)
          end
      end
  end.

(** [try super.encode(to: container.superEncoder())]. *)
Definition superEncodeStatement (containerExpr : Expr) : ASTNode :=
  let method := UnresolvedDeclRefExpr Id_superEncoder in
  let superEncoderRef := DotSyntaxCallExpr containerExpr method in
  let encodeDeclRef := DeclRefExpr Id_encode in
  let superRef := SuperRefExpr in
  let encodeCall := DotSyntaxCallExpr superRef encodeDeclRef in
  let callExpr := CallExpr encodeCall [superEncoderRef] [Id_to] in
  ExprNode (TryExpr callExpr).

(** [var container = encoder.container(keyedBy: CodingKeys.self)],
    followed by the declaration of [container]. *)
Definition encodePrelude (containerDecl : LocalVarDecl)
    (codingKeysEnum : EnumDecl) : list ASTNode :=
  let encoderExpr := DeclRefExpr Id_encoder in
  let callExpr := createContainerKeyedByCall encoderExpr codingKeysEnum in
  let containerPattern := NamedPattern containerDecl in
  let bindingDecl := PatternBindingNode containerPattern callExpr in
  [bindingDecl; VarDeclNode containerDecl].

(** Synthesizes the body for [func encode(to encoder: Encoder) throws] of
    a struct or class. *)
Definition deriveBodyEncodable_encode (targetDecl : NominalTypeDecl)
  : option (list ASTNode) :=
  match lookupEvaluatedCodingKeysEnum targetDecl Id_CodingKeys with
  | None => None
  | Some codingKeysEnum =>
      let codingKeysType := enumDeclaredInterfaceType codingKeysEnum in
      let containerDecl :=
        createKeyedContainer KeyedEncodingContainer
          (enumDeclaredInterfaceType codingKeysEnum) Var Id_container in
      let containerExpr := DeclRefExpr (localName containerDecl) in
      match encodeMembers targetDecl containerExpr codingKeysType
                          (enumAllElements codingKeysEnum) with
      | None => None
      | Some members =>
          Some (encodePrelude containerDecl codingKeysEnum ++ members ++
                (if superclassConformsTo (asClassDecl targetDecl) Encodable
                 then [superEncodeStatement containerExpr]
                 else []))
      end
  end.

(** Synthesizes a function declaration for [encode(to: Encoder) throws]
    with a lazily synthesized body for the given type. *)
Definition deriveEncodable_encode (derived : DerivedConformance)
  : SynthesizedFunc :=
  {| funcName := {| getBaseName := BaseIdentifier Id_encode;
                    getArgumentNames := [Id_to] |};
     funcIsAsync := false;
     funcThrows := true;
     funcAttrs :=
       if superclassConformsTo (asClassDecl (Nominal derived)) Encodable
       then [OverrideAttr true] else [];
     funcAccess := copyFormalAccessFrom sema (getFormalAccess (Nominal derived));
     funcBodySynthesizer :=
       if isEnumDecl (Nominal derived) then BodyEncodable_enum_encode
       else BodyEncodable_encode |}.

(** [let container = try decoder.container(keyedBy: CodingKeys.self)],
    followed by the declaration of [container]. *)
Definition decodePrelude (containerDecl : LocalVarDecl)
    (codingKeysEnum : EnumDecl) : list ASTNode :=
  let decoderExpr := DeclRefExpr Id_decoder in
  let callExpr := createContainerKeyedByCall decoderExpr codingKeysEnum in
  let tryExpr := TryExpr callExpr in
  let containerPattern := NamedPattern containerDecl in
  let bindingDecl := PatternBindingNode containerPattern tryExpr in
  [bindingDecl; VarDeclNode containerDecl].

(** [llvm::any_of] over [codingKeysEnum->lookupDirect(varDecl->getBaseName())]:
    is there a case of the key enum with the name of the variable. *)
Definition keyExistsInCodingKeys (codingKeysEnum : EnumDecl)
    (varDecl : VarDecl) : bool :=
  existsb (fun m => match m with
                    | CaseMember e =>
                        String.eqb (getBaseIdentifier e) (getName varDecl)
                    | NonCaseMember _ => false
                    end)
          (filter (fun m => String.eqb (enumMemberName m) (getName varDecl))
                  (enumMembers codingKeysEnum)).

(** The warnings for a [let] with an initial value, which is not decoded;
    empty when the strategy of the source says to stay silent. *)
Definition willNotBeDecodedDiagnostics (targetDecl : NominalTypeDecl)
    (codingKeysEnum : EnumDecl) (varDecl : VarDecl) : list Diagnostic :=
  let conformsToEncodable :=
    lookupConformance sema (getDeclaredInterfaceType targetDecl) Encodable in
  if negb (enumIsImplicit codingKeysEnum)
     && (conformsToEncodable
         || negb (keyExistsInCodingKeys codingKeysEnum varDecl))
  then []
  else
    [decodable_property_will_not_be_decoded (getName varDecl)] ++
    (if enumIsImplicit codingKeysEnum then
       [decodable_property_init_or_codingkeys_implicit
          (if conformsToEncodable then 0 else 1) (getName varDecl)]
     else
       [decodable_property_init_or_codingkeys_explicit (getName varDecl)]) ++
    (match getParentPatternBinding varDecl with
     | Some _ => [decodable_make_property_mutable (getName varDecl)]
     | None => []
     end).

(** [self.x = try container.decode(Type.self, forKey: CodingKeys.x)], or
    [decodeIfPresent]. *)
Definition decodeMemberStatement (containerExpr : Expr) (codingKeysType : Ty)
    (elt : EnumElementDecl) (varDecl : VarDecl) (varType : Ty)
    (useIfPresentVariant : bool) : ASTNode :=
  let methodName :=
    if useIfPresentVariant then Id_decodeIfPresent else Id_decode in
  let metaTyRef := TypeExpr varType in
  let targetExpr := DotSelfExpr metaTyRef in
  let metaTyRef := TypeExpr codingKeysType in
  let keyExpr := MemberRefExpr metaTyRef (getBaseIdentifier elt) in
  let argNames := [emptyIdentifier; Id_forKey] in
  let decodeCall :=
    UnresolvedDotExpr containerExpr (BaseIdentifier methodName)
                      (Some argNames) in
  let callExpr := CallExpr decodeCall [targetExpr; keyExpr] argNames in
  let tryExpr := TryExpr callExpr in
  let selfRef := createSelfDeclRef in
  let varExpr :=
    UnresolvedDotExpr selfRef (BaseIdentifier (getName varDecl)) None in
  ExprNode (AssignExpr varExpr tryExpr).

Fixpoint decodeMembers (targetDecl : NominalTypeDecl)
    (codingKeysEnum : EnumDecl) (containerExpr : Expr) (codingKeysType : Ty)
    (elts : list EnumElementDecl)
  : option (list ASTNode * list Diagnostic) :=
  match elts with
  | [] => Some ([], [])
  | elt :: rest =>
      match lookupVarDeclForCodingKeysCase elt targetDecl with
      | None => None
      | Some (varDecl, varType, useIfPresentVariant) =>
          match decodeMembers targetDecl codingKeysEnum containerExpr
                              codingKeysType rest with
          | None => None
          | Some (statements, diags) =>
              if isLet varDecl && isParentInitialized varDecl then
                Some (statements,
                      willNotBeDecodedDiagnostics targetDecl codingKeysEnum
                                                  varDecl ++ diags)
              else
                Some (decodeMemberStatement containerExpr codingKeysType elt
                        varDecl varType useIfPresentVariant :: statements,
                      diags)
          end
      end
  end.

(** [try super.init(from: container.superDecoder())]. *)
Definition superInitFromStatement (containerExpr : Expr) : ASTNode :=
  let superDecoderRef :=
    UnresolvedDotExpr containerExpr (BaseIdentifier Id_superDecoder) None in
  let superDecoderCall := CallExpr superDecoderRef [] [] in
  let superRef := SuperRefExpr in
  let initCall := UnresolvedDotExpr superRef BaseConstructor (Some [Id_from]) in
  let callExpr := CallExpr initCall [superDecoderCall] [Id_from] in
  ExprNode (TryExpr callExpr).

(** [super.init()], under [try] when the initializer throws.  [None] when
    one of the two assertions of the source fails. *)
Definition superInitStatement (superclassDecl : SuperclassDecl)
  : option ASTNode :=
  let result :=
    filter (fun ctor => match ctorArgumentNames ctor with
                        | [] => true
                        | _ :: _ => false
                        end)
           (superclassConstructors superclassDecl) in
  match result with
  | [] => None
  | superInitDecl :: _ =>
      if isFailable superInitDecl then None
      else
        let superRef := SuperRefExpr in
        let superInitRef :=
          UnresolvedDotExpr superRef BaseConstructor (Some []) in
        let callExpr := CallExpr superInitRef [] [] in
        Some (ExprNode (if hasThrows superInitDecl then TryExpr callExpr
                        else callExpr))
  end.

(** Synthesizes the body for [init(from decoder: Decoder) throws] of a
    struct or class, with the warnings emitted on the way. *)
Definition deriveBodyDecodable_init (targetDecl : NominalTypeDecl)
  : option (list ASTNode * list Diagnostic) :=
  match lookupEvaluatedCodingKeysEnum targetDecl Id_CodingKeys with
  | None => None
  | Some codingKeysEnum =>
      let codingKeysType := enumDeclaredInterfaceType codingKeysEnum in
      let containerDecl :=
        createKeyedContainer KeyedDecodingContainer
          (enumDeclaredInterfaceType codingKeysEnum) Let Id_container in
      let containerExpr := DeclRefExpr (localName containerDecl) in
      let enumElements := enumAllElements codingKeysEnum in
      let members :=
        match enumElements with
        | [] => Some ([], [])
        | _ :: _ =>
            match decodeMembers targetDecl codingKeysEnum containerExpr
                                codingKeysType enumElements with
            | None => None
            | Some (statements, diags) =>
                Some (decodePrelude containerDecl codingKeysEnum ++ statements,
                      diags)
            end
        end in
      let superCall :=
        match asClassDecl targetDecl with
        | Some classDecl =>
            match getSuperclassDecl classDecl with
            | Some superclassDecl =>
                if superclassConformsTo (Some classDecl) Decodable then
                  Some [superInitFromStatement containerExpr]
                else
                  match superInitStatement superclassDecl with
                  | Some statement => Some [statement]
                  | None => None
                  end
            | None => Some []
            end
        | None => Some []
        end in
      match members, superCall with
      | Some (statements, diags), Some superStatements =>
          Some (statements ++ superStatements, diags)
      | _, _ => None
      end
  end.

(** [try nestedContainer.decode(Type.self)] for each parameter of a case
    with unnamed parameters, with the labels of the parameters. *)
Fixpoint decodeUnkeyedParams (nestedContainerDecl : LocalVarDecl)
    (params : list VarDecl) : list Expr * list Identifier :=
  match params with
  | [] => ([], [])
  | paramDecl :: rest =>
      let identifier := getVarNameForCoding paramDecl in
      let parameterTypeExpr := TypeExpr (getType paramDecl) in
      let parameterMetaTypeExpr := DotSelfExpr parameterTypeExpr in
      let nestedContainerExpr :=
        DeclRefExpr (localName nestedContainerDecl) in
      let decodeCall :=
        UnresolvedDotExpr nestedContainerExpr (BaseIdentifier Id_decode)
                          (Some [emptyIdentifier]) in
      let callExpr :=
        CallExpr decodeCall [parameterMetaTypeExpr] [emptyIdentifier] in
      let tryExpr := TryExpr callExpr in
      let '(decodeCalls, labels) :=
        decodeUnkeyedParams nestedContainerDecl rest in
      (tryExpr :: decodeCalls, identifier :: labels)
  end.

(** [try nestedContainer.decode(Type.self, forKey: CodingKeys_bar.x)] for
    each parameter of a case with named parameters; the default value for a
    parameter without a key.  [None] when a parameter without a key has no
    default expression (the assertion of the source). *)
Fixpoint decodeKeyedParams (nestedContainerDecl : LocalVarDecl)
    (caseCodingKeys : EnumDecl) (params : list VarDecl)
  : option (list Expr * list Identifier) :=
  match params with
  | [] => Some ([], [])
  | paramDecl :: rest =>
      let identifier := getVarNameForCoding paramDecl in
      let call :=
        match lookupEnumCase caseCodingKeys (getName paramDecl) with
        | None =>
            if hasDefaultExpr paramDecl then
              Some (TypeCheckedDefaultExpr (getName paramDecl))
            else None
        | Some caseCodingKey =>
            let parameterTypeExpr := TypeExpr (getType paramDecl) in
            let parameterMetaTypeExpr := DotSelfExpr parameterTypeExpr in
            let metaTyRef :=
              TypeExpr (enumDeclaredInterfaceType caseCodingKeys) in
            let keyExpr :=
              MemberRefExpr metaTyRef (getBaseIdentifier caseCodingKey) in
            let nestedContainerExpr :=
              DeclRefExpr (localName nestedContainerDecl) in
            let decodeCall :=
              UnresolvedDotExpr nestedContainerExpr (BaseIdentifier Id_decode)
                                (Some [emptyIdentifier; Id_forKey]) in
            let callExpr :=
              CallExpr decodeCall [parameterMetaTypeExpr; keyExpr]
                       [emptyIdentifier; Id_forKey] in
            Some (TryExpr callExpr)
        end in
      match call, decodeKeyedParams nestedContainerDecl caseCodingKeys rest with
      | Some e, Some (decodeCalls, labels) =>
          Some (e :: decodeCalls, identifier :: labels)
      | _, _ => None
      end
  end.

(** [self = Foo.bar(x: ...)]. *)
Definition assignCase (targetEnum : NominalTypeDecl) (elt : EnumElementDecl)
    (decodeCalls : list Expr) (params : list Identifier) : ASTNode :=
  let selfRef := createSelfDeclRef in
  let selfTypeExpr := TypeExpr (getDeclaredInterfaceType targetEnum) in
  let selfCaseExpr :=
    UnresolvedDotExpr selfTypeExpr (BaseIdentifier (getBaseIdentifier elt))
                      (Some params) in
  let caseCallExpr := CallExpr selfCaseExpr decodeCalls params in
  ExprNode (AssignExpr selfRef caseCallExpr).

(** The statements of the arm of one case of the target enum. *)
Definition decodeCaseStatements (targetEnum : NominalTypeDecl)
    (codingKeysEnum : EnumDecl) (containerExpr : Expr)
    (elt codingKeyCase : EnumElementDecl) : option (list ASTNode) :=
  match getParameterList elt with
  | None =>
      let selfTypeExpr := TypeExpr (getDeclaredInterfaceType targetEnum) in
      let selfCaseExpr := MemberRefExpr selfTypeExpr (getBaseIdentifier elt) in
      let selfRef := createSelfDeclRef in
      Some [ExprNode (AssignExpr selfRef selfCaseExpr)]
  | Some params =>
      if hasAnyUnnamedParameters elt then
        let nestedContainerDecl :=
          createUnkeyedContainer UnkeyedDecodingContainer Var
                                 Id_nestedContainer in
        let nestedContainerCall :=
          createNestedUnkeyedContainerForKeyCall containerExpr codingKeysEnum
                                                 codingKeyCase in
        let tryNestedContainerCall := TryExpr nestedContainerCall in
        let containerPattern := NamedPattern nestedContainerDecl in
        let bindingDecl :=
          PatternBindingNode containerPattern tryNestedContainerCall in
        let '(decodeCalls, labels) :=
          decodeUnkeyedParams nestedContainerDecl params in
        Some [bindingDecl; VarDeclNode nestedContainerDecl;
              assignCase targetEnum elt decodeCalls labels]
      else
        let caseIdentifier :=
          combineIdentifiers Id_CodingKeys (getBaseIdentifier elt) in
        match lookupEvaluatedCodingKeysEnum targetEnum caseIdentifier with
        | None => None
        | Some caseCodingKeys =>
            let nestedContainerDecl :=
              createKeyedContainer KeyedDecodingContainer
                (enumDeclaredInterfaceType caseCodingKeys) Var
                Id_nestedContainer in
            let nestedContainerCall :=
              createNestedContainerKeyedByForKeyCall containerExpr
                caseCodingKeys codingKeysEnum codingKeyCase in
            let tryNestedContainerCall := TryExpr nestedContainerCall in
            let containerPattern := NamedPattern nestedContainerDecl in
            let bindingDecl :=
              PatternBindingNode containerPattern tryNestedContainerCall in
            match decodeKeyedParams nestedContainerDecl caseCodingKeys
                                    params with
            | None => None
            | Some (decodeCalls, labels) =>
                Some [bindingDecl; VarDeclNode nestedContainerDecl;
                      assignCase targetEnum elt decodeCalls labels]
            end
        end
  end.

(** The arms of the switch, one per case of the target that has a key. *)
Fixpoint decodeCases (targetEnum : NominalTypeDecl)
    (codingKeysEnum : EnumDecl) (containerExpr : Expr)
    (elts : list EnumElementDecl) : option (list CaseStmt) :=
  match elts with
  | [] => Some []
  | elt :: rest =>
      match lookupEnumCase codingKeysEnum (getBaseIdentifier elt) with
      | None => decodeCases targetEnum codingKeysEnum containerExpr rest
      | Some codingKeyCase =>
          let codingKeysType := enumDeclaredInterfaceType codingKeysEnum in
          let pat :=
            EnumElementPattern (mapTypeIntoContext sema codingKeysType)
                               (getBaseIdentifier codingKeyCase) in
          let labelItem := CaseLabel (OptionalSomePattern pat) in
          match decodeCaseStatements targetEnum codingKeysEnum containerExpr
                                     elt codingKeyCase,
                decodeCases targetEnum codingKeysEnum containerExpr rest with
          | Some caseStatements, Some cases =>
              Some ((labelItem, caseStatements) :: cases)
          | _, _ => None
          end
      end
  end.

(** The default arm of the switch of [deriveBodyDecodable_enum_init]. *)
Definition defaultCase : CaseStmt :=
  let fatalErrorExpr := DeclRefExpr "fatalError" in
  let errorMessage := StringLiteralExpr "foo" in
  let fatalErrorCall :=
    CallExpr fatalErrorExpr [errorMessage] [emptyIdentifier] in
  let labelItem := DefaultLabel AnyPattern in
  (labelItem, [ExprNode fatalErrorCall]).

(** Synthesizes the body for [init(from decoder: Decoder) throws] of an
    enum. *)
Definition deriveBodyDecodable_enum_init (targetEnum : NominalTypeDecl)
  : option (list ASTNode) :=
  match lookupEvaluatedCodingKeysEnum targetEnum Id_CodingKeys with
  | None => None
  | Some codingKeysEnum =>
      let containerDecl :=
        createKeyedContainer KeyedDecodingContainer
          (enumDeclaredInterfaceType codingKeysEnum) Let Id_container in
      let containerExpr := DeclRefExpr (localName containerDecl) in
      if hasCases codingKeysEnum then
        match decodeCases targetEnum codingKeysEnum containerExpr
                          (getAllElements targetEnum) with
        | None => None
        | Some cases =>
            let allKeysExpr :=
              UnresolvedDotExpr containerExpr (BaseIdentifier Id_allKeys)
                                None in
            let firstExpr :=
              UnresolvedDotExpr allKeysExpr (BaseIdentifier Id_first) None in
            let switchStmt := SwitchNode firstExpr (cases ++ [defaultCase]) in
            Some (decodePrelude containerDecl codingKeysEnum ++ [switchStmt])
        end
      else Some []
  end.

(** Synthesizes a function declaration for [init(from: Decoder) throws]
    with a lazily synthesized body for the given type. *)
Definition deriveDecodable_init (derived : DerivedConformance)
  : SynthesizedInit :=
  let classDecl := asClassDecl (Nominal derived) in
  {| initName := {| getBaseName := BaseConstructor;
                    getArgumentNames := [Id_from] |};
     initIsFailable := false;
     initThrows := true;
     initAttrs :=
       match classDecl with
       | Some c => if negb (isFinal c) then [RequiredAttr true] else []
       | None => []
       end;
     initAccess := copyFormalAccessFrom sema (getFormalAccess (Nominal derived));
     initBodySynthesizer :=
       if isEnumDecl (Nominal derived) then BodyDecodable_enum_init
       else BodyDecodable_init |}.

(** ** The entry points *)

Definition isDerivableNominal (t : NominalTypeDecl) : bool :=
  match nominalKind t with
  | StructKind | ClassKind _ | EnumKind => true
  | ProtocolKind => false
  end.

Definition isBaseIdentifier (name : DeclBaseName) (id : Identifier) : bool :=
  match name with
  | BaseIdentifier n => String.eqb n id
  | BaseConstructor => false
  end.

Definition isConstructorName (name : DeclBaseName) : bool :=
  match name with
  | BaseConstructor => true
  | BaseIdentifier _ => false
  end.

(** [DerivedConformance::deriveEncodable].  The result is the witness (also
    handed to the conformance context), the target with what synthesis added
    to it, and the diagnostics that outlive the diagnostic transaction: none
    when the transaction is aborted on success. *)
Definition deriveEncodable (derived : DerivedConformance)
    (requirement : DeclName)
  : option SynthesizedFunc * NominalTypeDecl * list Diagnostic :=
  if negb (isDerivableNominal (Nominal derived)) then
    (None, Nominal derived, [])
  else if negb (isBaseIdentifier (getBaseName requirement) Id_encode) then
    (None, Nominal derived, [broken_encodable_requirement])
  else if checkAndDiagnoseDisallowedContext sema requirement then
    (None, Nominal derived, [])
  else
    let transaction :=
      [type_does_not_conform (nominalName (Nominal derived))
                             (Protocol derived);
       no_witnesses requirement (Protocol derived)] in
    let '(ok, target, diags) := canSynthesize derived requirement in
    if ok then
      (Some (deriveEncodable_encode (withNominal derived target)), target, [])
    else (None, target, transaction ++ diags).

(** [DerivedConformance::deriveDecodable]. *)
Definition deriveDecodable (derived : DerivedConformance)
    (requirement : DeclName)
  : option SynthesizedInit * NominalTypeDecl * list Diagnostic :=
  if negb (isDerivableNominal (Nominal derived)) then
    (None, Nominal derived, [])
  else if negb (isConstructorName (getBaseName requirement)) then
    (None, Nominal derived, [broken_decodable_requirement])
  else if checkAndDiagnoseDisallowedContext sema requirement then
    (None, Nominal derived, [])
  else
    let transaction :=
      [type_does_not_conform (nominalName (Nominal derived))
                             (Protocol derived);
       no_witnesses requirement (Protocol derived)] in
    let '(ok, target, diags) := canSynthesize derived requirement in
    if ok then
      (Some (deriveDecodable_init (withNominal derived target)), target, [])
    else (None, target, transaction ++ diags).

(** ** Notions used in the statements *)

(** The names of the cases of a key enum. *)
Definition caseNames (e : EnumDecl) : list Identifier :=
  map getBaseIdentifier (enumAllElements e).

(** [propertiesAreValid] after the loop of [validateCodingKeysEnum] over
    the cases of the key enum: every case names a catalogued member whose
    type conforms. *)
Definition keyCasesAreValid (derived : DerivedConformance)
    (codingKeysDecl : EnumDecl) : bool :=
  snd (fst (validateElements (Protocol derived)
              (enumAllElements codingKeysDecl)
              (collectProperties (getStoredProperties (Nominal derived)) []))).

(** The declaration that [classifyCodingKeys] finds under
    [CodingKeys_<case>] for a case of the target enum. *)
Definition caseCodingKeysDecls (derived : DerivedConformance)
    (elt : EnumElementDecl) : list Decl :=
  lookupDirect (combineIdentifiers Id_CodingKeys (getBaseIdentifier elt))
               (Nominal derived).

(** The case has no [CodingKeys_<case>] declaration. *)
Definition caseKeysAreMissing (derived : DerivedConformance)
    (elt : EnumElementDecl) : bool :=
  match caseCodingKeysDecls derived elt with
  | [] => true
  | _ :: _ => false
  end.

(** The case has a [CodingKeys_<case>] declaration that is ill-formed or
    that [validateCaseCodingKeysEnum] rejects. *)
Definition caseKeysAreInvalid (derived : DerivedConformance)
    (elt : EnumElementDecl) : bool :=
  match caseCodingKeysDecls derived elt with
  | [] => false
  | front :: _ =>
      match validateCodingKeysProtocolConformance derived front with
      | (None, _) => true
      | (Some caseCodingKeysEnum, _) =>
          negb (fst (validateCaseCodingKeysEnum derived elt
                                                caseCodingKeysEnum))
      end
  end.

(** [target'] is [target] with members added at the end: what
    [addMember] does to a type. *)
Definition extendsWith (target target' : NominalTypeDecl) (added : list Decl)
  : Prop :=
  getMembers target' = getMembers target ++ added /\
  nominalName target' = nominalName target /\
  nominalKind target' = nominalKind target /\
  getStoredProperties target' = getStoredProperties target /\
  getFormalAccess target' = getFormalAccess target.

(** The outer key enum that [synthesizeCodingKeysEnum_enum] works with: the
    one found on the target, or the one it builds. *)
Definition outerCodingKeys (target : NominalTypeDecl) : EnumDecl :=
  match lookupEvaluatedCodingKeysEnum target Id_CodingKeys with
  | Some codingKeysEnum => codingKeysEnum
  | None => synthesizedOuterCodingKeys target
  end.

(** The target when the loop over the cases starts: with the outer key enum
    added if it had none. *)
Definition targetWithOuterCodingKeys (target : NominalTypeDecl)
  : NominalTypeDecl :=
  match lookupEvaluatedCodingKeysEnum target Id_CodingKeys with
  | Some _ => target
  | None => addMember (EnumMember (synthesizedOuterCodingKeys target)) target
  end.

(** The three tests of the loop of [synthesizeCodingKeysEnum_enum], on the
    target as it is before synthesis: the case is in the outer key enum,
    nothing is declared under [CodingKeys_<case>], and the case has no
    unnamed parameter. *)
Definition needsCaseCodingKeys (target : NominalTypeDecl)
    (elt : EnumElementDecl) : bool :=
  match lookupEnumCase (outerCodingKeys target) (getBaseIdentifier elt) with
  | None => false
  | Some _ =>
      match lookupDirect
              (combineIdentifiers Id_CodingKeys (getBaseIdentifier elt))
              target with
      | _ :: _ => false
      | [] => negb (hasAnyUnnamedParameters elt)
      end
  end.

(** The case has at least one parameter with a label. *)
Definition hasAnyNamedParameters (elt : EnumElementDecl) : bool :=
  match getParameterList elt with
  | Some params =>
      existsb (fun p => negb (String.eqb (getName p) emptyIdentifier)) params
  | None => false
  end.

(** The [container] variable of a synthesized [encode(to:)] and of a
    synthesized [init(from:)] for the key enum [codingKeysEnum]. *)
Definition encodingContainerDecl (codingKeysEnum : EnumDecl) : LocalVarDecl :=
  createKeyedContainer KeyedEncodingContainer
    (enumDeclaredInterfaceType codingKeysEnum) Var Id_container.

Definition decodingContainerDecl (codingKeysEnum : EnumDecl) : LocalVarDecl :=
  createKeyedContainer KeyedDecodingContainer
    (enumDeclaredInterfaceType codingKeysEnum) Let Id_container.

(** The reference to [container] in the synthesized bodies. *)
Definition containerRef : Expr := DeclRefExpr Id_container.

(** The type of the member behind a key, in the conformance context. *)
Definition memberType (varDecl : VarDecl) : Ty :=
  mapTypeIntoContext sema (getValueInterfaceType varDecl).

(** The type is [Optional<T>] at its outermost level. *)
Definition isOptional (ty : Ty) : bool :=
  match getOptionalObjectType ty with
  | Some _ => true
  | None => false
  end.

(** The type whose metatype is passed to [decode]: the object type of an
    optional, the type itself otherwise. *)
Definition decodedType (ty : Ty) : Ty :=
  match getOptionalObjectType ty with
  | Some objType => objType
  | None => ty
  end.

(** Every case of the key enum has a non-static property behind it:
    [lookupVarDeclForCodingKeysCase] does not reach its
    [llvm_unreachable]. *)
Definition keysResolve (targetDecl : NominalTypeDecl)
    (codingKeysEnum : EnumDecl) : Prop :=
  Forall (fun elt => lookupVarDeclForCodingKeysCase elt targetDecl <> None)
         (enumAllElements codingKeysEnum).

(** The two assertions of [deriveBodyDecodable_init] on the initializer
    [init()] of a superclass that is not Decodable hold: the initializer
    is found among the constructors of the superclass and it is not
    failable.  Nothing is asked of a type without superclass or with a
    Decodable one. *)
Definition superInitResolves (targetDecl : NominalTypeDecl) : Prop :=
  forall classDecl superclassDecl,
    asClassDecl targetDecl = Some classDecl ->
    getSuperclassDecl classDecl = Some superclassDecl ->
    superclassConformsTo (Some classDecl) Decodable = false ->
    superInitStatement superclassDecl <> None.

(** The statement is an expression, neither a binding nor a declaration. *)
Definition isExprNode (n : ASTNode) : Prop :=
  match n with
  | ExprNode _ => True
  | _ => False
  end.

(** The user-accessible stored properties of the target: the properties
    that both [validateCodingKeysEnum] and [synthesizeCodingKeysEnum] look
    at. *)
Definition accessibleProperties (derived : DerivedConformance)
  : list VarDecl :=
  filter isUserAccessible (getStoredProperties (Nominal derived)).

(** The type of the variable conforms to the protocol being derived. *)
Definition conformsToDerived (derived : DerivedConformance)
    (varDecl : VarDecl) : bool :=
  conformsToProtocol sema
    (mapTypeIntoContext sema (getValueInterfaceType varDecl))
    (Protocol derived).

(** The target is a class whose superclass conforms to Encodable or to
    Decodable: the condition for the case [super]. *)
Definition hasCodableSuperclass (target : NominalTypeDecl) : bool :=
  superclassConformsTo (asClassDecl target) Encodable
  || superclassConformsTo (asClassDecl target) Decodable.

(** An implicit, private enum inheriting [CodingKey] with the given
    cases. *)
Definition implicitKeyEnum (name : Identifier) (synthesized : bool)
    (cases : list Identifier) : EnumDecl :=
  {| enumName := name;
     enumMembers := map (fun c => CaseMember (implicitElement c)) cases;
     enumIsImplicit := true;
     enumIsSynthesized := synthesized;
     enumAccess := Private;
     enumInherited := [CodingKey] |}.

(** The [CodingKeys] enum of a struct or class as a list of case names:
    [super] first when the superclass is Codable, then one case per
    accessible stored property, under its coding name. *)
Definition synthesizedCaseNames (derived : DerivedConformance)
  : list Identifier :=
  (if hasCodableSuperclass (Nominal derived) then [Id_super] else [])
  ++ map getVarNameForCoding (accessibleProperties derived).

(** ** The body of [encode(to:)] of an enum *)

(** One arm of the [switch self] of [deriveBodyEncodable_enum_encode]: the
    label [.<elt>(let a0, let a1, ...)], the introducers and names of the
    fresh copies of the payload variables that the body of the arm sees
    (absent when the case binds nothing), and the statements of the
    body.  The payload subpattern of the label comes with the payload
    variables from [enumElementPayloadSubpattern] and is not recorded
    apart from them. *)
Record EncodeCaseStmt := {
  caseLabelItem : CaseLabelItem;
  caseBodyVarDecls : option (list (Introducer * Identifier));
  caseBodyStatements : list ASTNode
}.

(** The body of the synthesized [encode(to:)] of an enum: the statements
    before the switch, and the switch that closes the body. *)
Record EnumEncodeBody := {
  encodeStatements : list ASTNode;
  encodeSwitchSubject : Expr;
  encodeSwitchCases : list EncodeCaseStmt
}.

Section EnumEncode.

(** [DerivedConformance::enumElementPayloadSubpattern] is defined with the
    other derived conformances, outside this file.  The body uses the
    payload variables it binds for a case, which are what this function
    gives. *)
Variable enumElementPayloadSubpattern : EnumElementDecl -> list VarDecl.

(** [try nestedContainer.encode(x)] for each payload variable of a case
    with unnamed parameters. *)
Fixpoint encodeUnkeyedPayload (nestedContainerExpr : Expr)
    (payloadVars : list VarDecl) : list ASTNode :=
  match payloadVars with
  | [] => []
  | payloadVar :: rest =>
      let payloadVarRef := DeclRefExpr (getName payloadVar) in
      let encodeCall :=
        UnresolvedDotExpr nestedContainerExpr (BaseIdentifier Id_encode)
                          (Some [emptyIdentifier]) in
      let callExpr :=
        CallExpr encodeCall [payloadVarRef] [emptyIdentifier] in
      let tryExpr := TryExpr callExpr in
      ExprNode tryExpr :: encodeUnkeyedPayload nestedContainerExpr rest
  end.

(** [try nestedContainer.encode(x, forKey: CodingKeys_bar.x)], or
    [encodeIfPresent], for each payload variable that has a key in the key
    enum of the case; a payload variable without a key is skipped. *)
Fixpoint encodeKeyedPayload (nestedContainerDecl : LocalVarDecl)
    (caseCodingKeys : EnumDecl) (payloadVars : list VarDecl)
  : list ASTNode :=
  match payloadVars with
  | [] => []
  | payloadVar :: rest =>
      let nestedContainerExpr :=
        DeclRefExpr (localName nestedContainerDecl) in
      let payloadVarRef := DeclRefExpr (getName payloadVar) in
      match lookupEnumCase caseCodingKeys (getName payloadVar) with
      | None => encodeKeyedPayload nestedContainerDecl caseCodingKeys rest
      | Some caseCodingKey =>
          let varType :=
            mapTypeIntoContext sema (getValueInterfaceType payloadVar) in
          let useIfPresentVariant :=
            match getOptionalObjectType varType with
            | Some _ => true
            | None => false
            end in
          let metaTyRef :=
            TypeExpr (enumDeclaredInterfaceType caseCodingKeys) in
          let keyExpr :=
            MemberRefExpr metaTyRef (getBaseIdentifier caseCodingKey) in
          let methodName :=
            if useIfPresentVariant then Id_encodeIfPresent else Id_encode in
          let argNames := [emptyIdentifier; Id_forKey] in
          let encodeCall :=
            UnresolvedDotExpr nestedContainerExpr (BaseIdentifier methodName)
                              (Some argNames) in
          let callExpr :=
            CallExpr encodeCall [payloadVarRef; keyExpr] argNames in
          let tryExpr := TryExpr callExpr in
          ExprNode tryExpr
          :: encodeKeyedPayload nestedContainerDecl caseCodingKeys rest
      end
  end.

(** The statements of the arm of one case of the target enum that has the
    key [codingKeyCase].  [None] when the key enum of a case without
    unnamed parameters is missing, which the source dereferences
    unchecked. *)
Definition encodeCaseStatements (targetEnum : NominalTypeDecl)
    (codingKeysEnum : EnumDecl) (containerExpr : Expr)
    (elt codingKeyCase : EnumElementDecl) (payloadVars : list VarDecl)
  : option (list ASTNode) :=
  if hasAnyUnnamedParameters elt then
    let nestedContainerDecl :=
      createUnkeyedContainer UnkeyedEncodingContainer Var
                             Id_nestedContainer in
    let nestedContainerExpr :=
      DeclRefExpr (localName nestedContainerDecl) in
    let nestedContainerCall :=
      createNestedUnkeyedContainerForKeyCall containerExpr codingKeysEnum
                                             codingKeyCase in
    let containerPattern := NamedPattern nestedContainerDecl in
    let bindingDecl :=
      PatternBindingNode containerPattern nestedContainerCall in
    Some ([bindingDecl; VarDeclNode nestedContainerDecl]
          ++ encodeUnkeyedPayload nestedContainerExpr payloadVars)
  else
    let caseIdentifier :=
      combineIdentifiers Id_CodingKeys (getBaseIdentifier elt) in
    match lookupEvaluatedCodingKeysEnum targetEnum caseIdentifier with
    | None => None
    | Some caseCodingKeys =>
        let nestedContainerDecl :=
          createKeyedContainer KeyedEncodingContainer
            (enumDeclaredInterfaceType caseCodingKeys) Var
            Id_nestedContainer in
        let nestedContainerCall :=
          createNestedContainerKeyedByForKeyCall containerExpr
            caseCodingKeys codingKeysEnum codingKeyCase in
        let containerPattern := NamedPattern nestedContainerDecl in
        let bindingDecl :=
          PatternBindingNode containerPattern nestedContainerCall in
        Some ([bindingDecl; VarDeclNode nestedContainerDecl]
              ++ encodeKeyedPayload nestedContainerDecl caseCodingKeys
                                    payloadVars)
    end.

(** The arms of the switch, one per case of the target that has a key. *)
Fixpoint encodeCases (targetEnum : NominalTypeDecl)
    (codingKeysEnum : EnumDecl) (containerExpr : Expr)
    (elts : list EnumElementDecl) : option (list EncodeCaseStmt) :=
  match elts with
  | [] => Some []
  | elt :: rest =>
      let codingKeyCase :=
        lookupEnumCase codingKeysEnum (getBaseIdentifier elt) in
      let payloadVars := enumElementPayloadSubpattern elt in
      let hasBoundDecls := negb (Nat.eqb (length payloadVars) 0) in
      let caseBodyVarDecls :=
        if hasBoundDecls then
          Some (map (fun vOld =>
                       (if isLet vOld then Let else Var, getName vOld))
                    payloadVars)
        else None in
      match codingKeyCase with
      | None => encodeCases targetEnum codingKeysEnum containerExpr rest
      | Some codingKeyCase =>
          match encodeCaseStatements targetEnum codingKeysEnum containerExpr
                                     elt codingKeyCase payloadVars with
          | None => None
          | Some caseStatements =>
              let pat :=
                EnumElementPattern (getDeclaredInterfaceType targetEnum)
                                   (getBaseIdentifier elt) in
              let labelItem := CaseLabel pat in
              match encodeCases targetEnum codingKeysEnum containerExpr
                                rest with
              | None => None
              | Some cases =>
                  Some ({| caseLabelItem := labelItem;
                           caseBodyVarDecls := caseBodyVarDecls;
                           caseBodyStatements := caseStatements |} :: cases)
              end
          end
      end
  end.

(** Synthesizes the body for [func encode(to encoder: Encoder) throws] of
    an enum. *)
Definition deriveBodyEncodable_enum_encode (targetEnum : NominalTypeDecl)
  : option EnumEncodeBody :=
  match lookupEvaluatedCodingKeysEnum targetEnum Id_CodingKeys with
  | None => None
  | Some codingKeysEnum =>
      let containerDecl :=
        createKeyedContainer KeyedEncodingContainer
          (enumDeclaredInterfaceType codingKeysEnum) Var Id_container in
      let containerExpr := DeclRefExpr (localName containerDecl) in
      let encoderExpr := DeclRefExpr Id_encoder in
      let callExpr := createContainerKeyedByCall encoderExpr codingKeysEnum in
      let containerPattern := NamedPattern containerDecl in
      let bindingDecl := PatternBindingNode containerPattern callExpr in
      match encodeCases targetEnum codingKeysEnum containerExpr
                        (getAllElements targetEnum) with
      | None => None
      | Some cases =>
          let enumRef := createSelfDeclRef in
          Some {| encodeStatements := [bindingDecl; VarDeclNode containerDecl];
                  encodeSwitchSubject := enumRef;
                  encodeSwitchCases := cases |}
      end
  end.

End EnumEncode.

End Synthesizer.

(** ** Sample programs

    The collaborators and the targets used to run the definitions: the
    scenarios of the specification and a few more. *)

Definition typeNamed (name : Identifier) (ty : Ty) : bool :=
  match ty with
  | NominalType n => String.eqb n name
  | OptionalType _ => false
  end.

Definition constructorsNamed (name : DeclName)
    (ctors : list ConstructorDecl) : list ConstructorDecl :=
  filter (fun ctor =>
            if list_eq_dec string_dec (ctorArgumentNames ctor)
                           (getArgumentNames name)
            then true else false)
         ctors.

(** Every type is Encodable and Decodable but [NotCodable] and [Base];
    every key enum conforms to [CodingKey]; the class [Animal] is the one
    with conformances in the module's table. *)
Definition sampleSema : Sema :=
  {| conformsToProtocol := fun ty proto =>
       match proto with
       | CodingKey => true
       | _ => negb (typeNamed "NotCodable" ty || typeNamed "Base" ty)
       end;
     lookupConformance := fun ty _ => typeNamed "Animal" ty;
     mapTypeIntoContext := fun ty => ty;
     lookupMember := fun superclassDecl name =>
       constructorsNamed name (superclassConstructors superclassDecl);
     copyFormalAccessFrom := fun access => access;
     checkAndDiagnoseDisallowedContext := fun _ => false |}.

Definition Int : Ty := NominalType "Int".
Definition String_ : Ty := NominalType "String".
Definition Double : Ty := NominalType "Double".

(** [var name: ty], without an initial value. *)
Definition storedVar (name : Identifier) (ty : Ty) : VarDecl :=
  {| getName := name;
     getValueInterfaceType := ty;
     isStatic := false;
     isUserAccessible := true;
     isLet := false;
     isParentInitialized := false;
     getParentPatternBinding := Some {| isDefaultInitializable := false |};
     getOriginalWrappedProperty := None;
     hasDefaultExpr := false |}.

(** A parameter [label: ty] of an enum case; [emptyIdentifier] for an
    unnamed one. *)
Definition caseParam (label : Identifier) (ty : Ty) : VarDecl :=
  {| getName := label;
     getValueInterfaceType := ty;
     isStatic := false;
     isUserAccessible := true;
     isLet := true;
     isParentInitialized := false;
     getParentPatternBinding := None;
     getOriginalWrappedProperty := None;
     hasDefaultExpr := false |}.

Definition userCase (name : Identifier) (params : option (list VarDecl))
  : EnumElementDecl :=
  {| getBaseIdentifier := name;
     getParameterList := params;
     elementIsImplicit := false |}.

(** [enum name : CodingKey { case ... }] written by the user. *)
Definition userKeyEnum (name : Identifier) (cases : list Identifier)
  : EnumDecl :=
  {| enumName := name;
     enumMembers := map (fun c => CaseMember (userCase c None)) cases;
     enumIsImplicit := false;
     enumIsSynthesized := false;
     enumAccess := Internal;
     enumInherited := [CodingKey] |}.

Definition structOf (name : Identifier) (vars : list VarDecl)
    (others : list Decl) : NominalTypeDecl :=
  {| nominalName := name;
     nominalKind := StructKind;
     getMembers := map (fun v => VarMember v None) vars ++ others;
     getStoredProperties := vars;
     getFormalAccess := Internal |}.

Definition classOf (name : Identifier) (info : ClassInfo)
    (vars : list VarDecl) (others : list Decl) : NominalTypeDecl :=
  {| nominalName := name;
     nominalKind := ClassKind info;
     getMembers := map (fun v => VarMember v None) vars ++ others;
     getStoredProperties := vars;
     getFormalAccess := Internal |}.

Definition enumOf (name : Identifier) (cases : list EnumElementDecl)
    (others : list Decl) : NominalTypeDecl :=
  {| nominalName := name;
     nominalKind := EnumKind;
     getMembers := map ElementMember cases ++ others;
     getStoredProperties := [];
     getFormalAccess := Internal |}.

Definition initFrom : DeclName :=
  {| getBaseName := BaseConstructor; getArgumentNames := [Id_from] |}.

Definition encodeTo : DeclName :=
  {| getBaseName := BaseIdentifier Id_encode; getArgumentNames := [Id_to] |}.

(** S6: [record R { x: Int; y: Int }] with the user-declared
    [CodingKeys = {x}]. *)
Definition recordR : NominalTypeDecl :=
  structOf "R" [storedVar "x" Int; storedVar "y" Int]
           [EnumMember (userKeyEnum Id_CodingKeys ["x"])].

(** The same record with a key [zzz] that names no member. *)
Definition recordR_extraneous : NominalTypeDecl :=
  structOf "R" [storedVar "x" Int; storedVar "y" Int]
           [EnumMember (userKeyEnum Id_CodingKeys ["x"; "zzz"])].

(** [enum E { case a }] with the user-declared [CodingKeys = {a, zzz}] and
    [CodingKeys_a = {}]. *)
Definition enumE_extraneous : NominalTypeDecl :=
  enumOf "E" [userCase "a" None]
         [EnumMember (userKeyEnum Id_CodingKeys ["a"; "zzz"]);
          EnumMember (userKeyEnum "CodingKeys_a" [])].

Definition derivedR : DerivedConformance :=
  {| Nominal := recordR; Protocol := Decodable |}.

Definition derivedR_extraneous : DerivedConformance :=
  {| Nominal := recordR_extraneous; Protocol := Decodable |}.

Definition derivedE_extraneous : DerivedConformance :=
  {| Nominal := enumE_extraneous; Protocol := Decodable |}.

(** [init()], designated, accessible, neither failable nor throwing. *)
Definition plainInit : ConstructorDecl :=
  {| ctorArgumentNames := [];
     isDesignatedInit := true;
     isAccessibleFrom := true;
     accessLevelForDiagnostics := Internal;
     isFailable := false;
     hasThrows := false |}.

(** [init(from:)] of a Decodable superclass. *)
Definition decodableInit : ConstructorDecl :=
  {| ctorArgumentNames := [Id_from];
     isDesignatedInit := true;
     isAccessibleFrom := true;
     accessLevelForDiagnostics := Internal;
     isFailable := false;
     hasThrows := true |}.

Definition superclassNamed (name : Identifier)
    (ctors : list ConstructorDecl) : SuperclassDecl :=
  {| superclassName := name;
     superclassDeclaredInterfaceType := NominalType name;
     superclassConstructors := ctors |}.

Definition subclassOf (super : SuperclassDecl) : ClassInfo :=
  {| isFinal := false;
     getSuperclass := superclassDeclaredInterfaceType super;
     getSuperclassDecl := Some super |}.

(** [class Child : Base { var x: Int }] where [Base] is not Decodable and
    the lookup of [init()] in [Base] has two results. *)
Definition ambiguousBase : SuperclassDecl :=
  superclassNamed "Base" [plainInit; plainInit].

Definition childOfAmbiguousBase : NominalTypeDecl :=
  classOf "Child" (subclassOf ambiguousBase) [storedVar "x" Int] [].

Definition derivedChild_ambiguous : DerivedConformance :=
  {| Nominal := childOfAmbiguousBase; Protocol := Decodable |}.

(** S3: [class Dog : Animal { var name: String }] with [Animal] Codable
    and the user-declared [CodingKeys = {name}]. *)
Definition animal : SuperclassDecl :=
  superclassNamed "Animal" [decodableInit].

Definition dogClass : NominalTypeDecl :=
  classOf "Dog" (subclassOf animal) [storedVar "name" String_]
          [EnumMember (userKeyEnum Id_CodingKeys ["name"])].

Definition derivedDog : DerivedConformance :=
  {| Nominal := dogClass; Protocol := Decodable |}.

Definition derivedDog_encodable : DerivedConformance :=
  {| Nominal := dogClass; Protocol := Encodable |}.

(** [enum Signal { case stop; case go(speed: Int); case pair(Int, Int);
    case mixed(x: Int, Int) }], without key enums. *)
Definition stopCase : EnumElementDecl := userCase "stop" None.

Definition goCase : EnumElementDecl :=
  userCase "go" (Some [caseParam "speed" Int]).

Definition pairCase : EnumElementDecl :=
  userCase "pair" (Some [caseParam emptyIdentifier Int;
                         caseParam emptyIdentifier Int]).

Definition mixedCase : EnumElementDecl :=
  userCase "mixed" (Some [caseParam "x" Int; caseParam emptyIdentifier Int]).

Definition signalEnum : NominalTypeDecl :=
  enumOf "Signal" [stopCase; goCase; pairCase; mixedCase] [].

Definition derivedSignal : DerivedConformance :=
  {| Nominal := signalEnum; Protocol := Decodable |}.



(** The nested enum that synthesis makes for a case: implicit, private,
    inheriting [CodingKey]. *)
Definition synthesizedKeyEnum (name : Identifier) (cases : list Identifier)
  : EnumDecl :=
  {| enumName := name;
     enumMembers := map (fun c => CaseMember (implicitElement c)) cases;
     enumIsImplicit := true;
     enumIsSynthesized := false;
     enumAccess := Private;
     enumInherited := [CodingKey] |}.

(** S2: [record User { name: String; nick: Optional<String> }] with
    [CodingKeys = {name, nick}]. *)
Definition userRecord : NominalTypeDecl :=
  structOf "User"
           [storedVar "name" String_; storedVar "nick" (OptionalType String_)]
           [EnumMember (userKeyEnum Id_CodingKeys ["name"; "nick"])].

(** [record Empty {}] with [CodingKeys = {}]. *)
Definition emptyRecord : NominalTypeDecl :=
  structOf "Empty" [] [EnumMember (userKeyEnum Id_CodingKeys [])].

(** The statements of a synthesized body, empty when there is none. *)
Definition statementsOf (body : option (list ASTNode)) : list ASTNode :=
  match body with
  | Some statements => statements
  | None => []
  end.

Definition statementsAndDiagnosticsOf
    (body : option (list ASTNode * list Diagnostic))
  : list ASTNode * list Diagnostic :=
  match body with
  | Some result => result
  | None => ([], [])
  end.

(** S4: [union Shape { case circle(radius: Double);
    case square(side: Double) }], and the same type after [canSynthesize]
    has synthesized its key enums. *)
Definition shapeEnum : NominalTypeDecl :=
  enumOf "Shape"
         [userCase "circle" (Some [caseParam "radius" Double]);
          userCase "square" (Some [caseParam "side" Double])]
         [].

Definition derivedShape : DerivedConformance :=
  {| Nominal := shapeEnum; Protocol := Decodable |}.

Definition shapeEnum_synthesized : NominalTypeDecl :=
  snd (fst (canSynthesize sampleSema derivedShape initFrom)).

(** The arms of the first [switch] among the statements. *)
Fixpoint switchCasesOf (statements : list ASTNode) : list CaseStmt :=
  match statements with
  | [] => []
  | SwitchNode _ cases :: _ => cases
  | _ :: rest => switchCasesOf rest
  end.

Definition allKeysFirst : Expr :=
  UnresolvedDotExpr
    (UnresolvedDotExpr containerRef (BaseIdentifier Id_allKeys) None)
    (BaseIdentifier Id_first) None.

(** S5 after a first run of [canSynthesize]: the outer [CodingKeys] is
    there, and no [CodingKeys_pair]. *)
Definition pairEnum_synthesized : NominalTypeDecl :=
  enumOf "P" [pairCase]
         [EnumMember (synthesizedKeyEnum Id_CodingKeys ["pair"])].

(** S1: [record Point { x: Int; y: Int }] without a key enum. *)
Definition pointRecord : NominalTypeDecl :=
  structOf "Point" [storedVar "x" Int; storedVar "y" Int] [].

Definition derivedPoint : DerivedConformance :=
  {| Nominal := pointRecord; Protocol := Encodable |}.

Definition derivedUser : DerivedConformance :=
  {| Nominal := userRecord; Protocol := Encodable |}.

(** [class Puppy : Animal { var name: String }] without a key enum, with
    [Animal] Codable. *)
Definition puppyClass : NominalTypeDecl :=
  classOf "Puppy" (subclassOf animal) [storedVar "name" String_] [].

Definition derivedPuppy : DerivedConformance :=
  {| Nominal := puppyClass; Protocol := Encodable |}.

(** [class Kitten : Base { var x: Int }] where [Base] is not Decodable and
    declares the one initializer [init()]. *)
Definition plainBase : SuperclassDecl := superclassNamed "Base" [plainInit].

Definition kittenClass : NominalTypeDecl :=
  classOf "Kitten" (subclassOf plainBase) [storedVar "x" Int] [].

Definition derivedKitten : DerivedConformance :=
  {| Nominal := kittenClass; Protocol := Decodable |}.

(** A parameter [label: ty = default] of an enum case. *)
Definition defaultedParam (label : Identifier) (ty : Ty) : VarDecl :=
  {| getName := label;
     getValueInterfaceType := ty;
     isStatic := false;
     isUserAccessible := true;
     isLet := true;
     isParentInitialized := false;
     getParentPatternBinding := None;
     getOriginalWrappedProperty := None;
     hasDefaultExpr := true |}.

(** [case boost(speed: Int, extra: Int = 0)] with the user-declared
    [CodingKeys_boost = {speed}]. *)
Definition boostCase : EnumElementDecl :=
  userCase "boost" (Some [caseParam "speed" Int; defaultedParam "extra" Int]).

Definition boostKeys : EnumDecl := userKeyEnum "CodingKeys_boost" ["speed"].

(** [let name: ty = value]. *)
Definition constantVar (name : Identifier) (ty : Ty) : VarDecl :=
  {| getName := name;
     getValueInterfaceType := ty;
     isStatic := false;
     isUserAccessible := true;
     isLet := true;
     isParentInitialized := true;
     getParentPatternBinding := Some {| isDefaultInitializable := false |};
     getOriginalWrappedProperty := None;
     hasDefaultExpr := false |}.

(** [record Config { let version: Int = 1; var name: String }] with the
    user-declared [CodingKeys = {version, name}]. *)
Definition configKeys : EnumDecl :=
  userKeyEnum Id_CodingKeys ["version"; "name"].

Definition configRecord : NominalTypeDecl :=
  structOf "Config" [constantVar "version" Int; storedVar "name" String_]
           [EnumMember configKeys].

(** S4 with its key enums written out. *)
Definition circleCase : EnumElementDecl :=
  userCase "circle" (Some [caseParam "radius" Double]).

Definition squareCase : EnumElementDecl :=
  userCase "square" (Some [caseParam "side" Double]).

Definition shapeKeys : EnumDecl :=
  synthesizedKeyEnum Id_CodingKeys ["circle"; "square"].

Definition shapeEnum_keyed : NominalTypeDecl :=
  enumOf "Shape" [circleCase; squareCase]
         [EnumMember shapeKeys;
          EnumMember (synthesizedKeyEnum "CodingKeys_circle" ["radius"]);
          EnumMember (synthesizedKeyEnum "CodingKeys_square" ["side"])].

(** [enum Light { case on }] with the user-declared [CodingKeys = {on}] and
    no [CodingKeys_on]. *)
Definition onCase : EnumElementDecl := userCase "on" None.

Definition lightKeys : EnumDecl := userKeyEnum Id_CodingKeys ["on"].

Definition lightEnum : NominalTypeDecl :=
  enumOf "Light" [onCase] [EnumMember lightKeys].

(** The payload variables of a case in the samples: its parameters. *)
Definition parametersOf (elt : EnumElementDecl) : list VarDecl :=
  match getParameterList elt with
  | Some params => params
  | None => []
  end.

Definition emptyEncodeBody : EnumEncodeBody :=
  {| encodeStatements := [];
     encodeSwitchSubject := createSelfDeclRef;
     encodeSwitchCases := [] |}.

(** The body of a synthesized [encode(to:)] of an enum, empty when there
    is none. *)
Definition encodeBodyOf (body : option EnumEncodeBody) : EnumEncodeBody :=
  match body with
  | Some result => result
  | None => emptyEncodeBody
  end.

(** [nestedContainer] keyed by the given key enum, as [init(from:)]
    declares it. *)
Definition nestedDecodingContainer (caseCodingKeys : EnumDecl)
  : LocalVarDecl :=
  createKeyedContainer KeyedDecodingContainer
    (enumDeclaredInterfaceType caseCodingKeys) Var Id_nestedContainer.

(** [case named(nick: String?)] with [CodingKeys_named = {nick}]. *)
Definition nickParam : VarDecl := caseParam "nick" (OptionalType String_).

Definition namedKeys : EnumDecl := userKeyEnum "CodingKeys_named" ["nick"].

Definition tagEnum : NominalTypeDecl :=
  enumOf "Tag" [userCase "named" (Some [nickParam])]
         [EnumMember (userKeyEnum Id_CodingKeys ["named"]);
          EnumMember namedKeys].

(** [enum Signal] after [canSynthesize] has synthesized its key enums. *)
Definition signalEnum_synthesized : NominalTypeDecl :=
  snd (fst (canSynthesize sampleSema derivedSignal initFrom)).

(** A generic context: the interface type [T] of a generic parameter is
    the archetype [T.Archetype] in the context of the declaration, and the
    archetype conforms to nothing but [CodingKey]. *)
Definition genericSema : Sema :=
  {| conformsToProtocol := fun ty proto =>
       match proto with
       | CodingKey => true
       | _ => negb (typeNamed "T.Archetype" ty)
       end;
     lookupConformance := fun _ _ => false;
     mapTypeIntoContext := fun ty =>
       if typeNamed "T" ty then NominalType "T.Archetype" else ty;
     lookupMember := fun superclassDecl name =>
       constructorsNamed name (superclassConstructors superclassDecl);
     copyFormalAccessFrom := fun access => access;
     checkAndDiagnoseDisallowedContext := fun _ => false |}.

(** [struct Box<T> { var count: Int; var value: T }], without a key
    enum, and with the user-declared [CodingKeys = {count, value}]. *)
Definition boxRecord : NominalTypeDecl :=
  structOf "Box" [storedVar "count" Int; storedVar "value" (NominalType "T")]
           [].

Definition derivedBox : DerivedConformance :=
  {| Nominal := boxRecord; Protocol := Encodable |}.

Definition boxRecord_keyed : NominalTypeDecl :=
  structOf "Box" [storedVar "count" Int; storedVar "value" (NominalType "T")]
           [EnumMember (userKeyEnum Id_CodingKeys ["count"; "value"])].

(** [enum Maybe<T> { case just(value: T) }], without key enums. *)
Definition maybeEnum : NominalTypeDecl :=
  enumOf "Maybe" [userCase "just" (Some [caseParam "value" (NominalType "T")])]
         [].

(** [enum Move { case stop; case boost(speed: Int, extra: Int = 0);
    case pair(Int, Int) }] with the user-declared
    [CodingKeys = {stop, boost, pair}] and [CodingKeys_boost = {speed}]. *)
Definition moveKeys : EnumDecl :=
  userKeyEnum Id_CodingKeys ["stop"; "boost"; "pair"].

Definition moveEnum : NominalTypeDecl :=
  enumOf "Move" [stopCase; boostCase; pairCase]
         [EnumMember moveKeys; EnumMember boostKeys].

(** * Properties *)

Section Properties.

Variable sema : Sema.

(** ** The validator *)

Lemma mapErase_keeps (key : Identifier) (m : PropertyMap) entry :
  In entry m -> fst entry <> key -> In entry (mapErase key m).
Proof.
  intros Hin Hne. unfold mapErase. apply filter_In. split; [exact Hin|].
  apply negb_true_iff, String.eqb_neq. exact Hne.
Qed.

Lemma validateElements_keeps proto elts : forall properties entry,
  In entry properties ->
  ~ In (fst entry) (map getBaseIdentifier elts) ->
  In entry (fst (fst (validateElements sema proto elts properties))).
Proof.
  induction elts as [|elt rest IH]; intros properties entry Hin Hnot; simpl.
  - exact Hin.
  - assert (Hne : fst entry <> getBaseIdentifier elt)
      by (intro E; apply Hnot; left; symmetry; exact E).
    assert (Hrest : ~ In (fst entry) (map getBaseIdentifier rest))
      by (intro E; apply Hnot; right; exact E).
    destruct (mapFind (getBaseIdentifier elt) properties) as [[k var]|].
    + destruct (negb (conformsToProtocol sema _ proto)).
      * specialize (IH properties entry Hin Hrest).
        destruct (validateElements sema proto rest properties) as [[p v] d].
        exact IH.
      * apply IH; [apply mapErase_keeps; assumption | exact Hrest].
    + specialize (IH properties entry Hin Hrest).
      destruct (validateElements sema proto rest properties) as [[p v] d].
      exact IH.
Qed.

Lemma validateCodingKeysEnum_missing_default derived codingKeysDecl entry :
  Protocol derived = Decodable ->
  In entry (collectProperties (getStoredProperties (Nominal derived)) []) ->
  ~ In (fst entry) (caseNames codingKeysDecl) ->
  hasDefaultValue (snd entry) = false ->
  fst (validateCodingKeysEnum sema derived codingKeysDecl) = false /\
  (keyCasesAreValid sema derived codingKeysDecl = true ->
   In (codable_non_decoded_property_here Decodable (getName (snd entry))
                                         (fst entry))
      (snd (validateCodingKeysEnum sema derived codingKeysDecl))).
Proof.
  intros Hproto Hin Hnot Hdef.
  pose proof (validateElements_keeps (Protocol derived)
                (enumAllElements codingKeysDecl) _ entry Hin Hnot) as Hkeep.
  unfold keyCasesAreValid, validateCodingKeysEnum.
  destruct (validateElements sema (Protocol derived)
              (enumAllElements codingKeysDecl)
              (collectProperties (getStoredProperties (Nominal derived)) []))
    as [[p v] d].
  simpl in Hkeep. simpl.
  destruct v; simpl.
  - rewrite Hproto. simpl.
    assert (Hmiss : In entry
              (filter (fun e => negb (hasDefaultValue (snd e))) p)).
    { apply filter_In. split; [exact Hkeep|]. rewrite Hdef. reflexivity. }
    split.
    + destruct (filter (fun e => negb (hasDefaultValue (snd e))) p);
        [destruct Hmiss | reflexivity].
    + intros _. apply in_or_app. right.
      apply in_map_iff. exists entry. split; [reflexivity | exact Hmiss].
  - split; [reflexivity | discriminate].
Qed.

Lemma deriveDecodable_no_witness derived requirement :
  fst (fst (canSynthesize sema derived requirement)) = false ->
  fst (fst (deriveDecodable sema derived requirement)) = None.
Proof.
  intros H. unfold deriveDecodable.
  destruct (negb (isDerivableNominal (Nominal derived))); [reflexivity|].
  destruct (negb (isConstructorName (getBaseName requirement)));
    [reflexivity|].
  destruct (checkAndDiagnoseDisallowedContext sema requirement);
    [reflexivity|].
  destruct (canSynthesize sema derived requirement) as [[ok t] d].
  simpl in H. subst ok. reflexivity.
Qed.

Lemma deriveEncodable_no_witness derived requirement :
  fst (fst (canSynthesize sema derived requirement)) = false ->
  fst (fst (deriveEncodable sema derived requirement)) = None.
Proof.
  intros H. unfold deriveEncodable.
  destruct (negb (isDerivableNominal (Nominal derived))); [reflexivity|].
  destruct (negb (isBaseIdentifier (getBaseName requirement) Id_encode));
    [reflexivity|].
  destruct (checkAndDiagnoseDisallowedContext sema requirement);
    [reflexivity|].
  destruct (canSynthesize sema derived requirement) as [[ok t] d].
  simpl in H. subst ok. reflexivity.
Qed.

Lemma canSynthesize_invalid derived requirement :
  fst (classifyCodingKeys sema derived) = Invalid ->
  fst (fst (canSynthesize sema derived requirement)) = false.
Proof.
  intros H. unfold canSynthesize.
  destruct (superclassInitFailure sema derived requirement); [reflexivity|].
  destruct (classifyCodingKeys sema derived) as [c d].
  simpl in H. subst c. reflexivity.
Qed.

Lemma classifyCodingKeys_record derived front rest codingKeysEnum diags :
  isEnumDecl (Nominal derived) = false ->
  lookupDirect Id_CodingKeys (Nominal derived) = front :: rest ->
  validateCodingKeysProtocolConformance sema derived front
    = (Some codingKeysEnum, diags) ->
  classifyCodingKeys sema derived
    = (if fst (validateCodingKeysEnum sema derived codingKeysEnum)
       then Valid else Invalid,
       diags ++ snd (validateCodingKeysEnum sema derived codingKeysEnum)).
Proof.
  intros Henum Hlook Hconf. unfold classifyCodingKeys.
  rewrite Hlook, Hconf, Henum.
  destruct (validateCodingKeysEnum sema derived codingKeysEnum) as [ok d].
  reflexivity.
Qed.

(** C5 (amended).  Deriving Decodable for a record or class with a
    user-declared [CodingKeys] enum: when a catalogued stored member that
    the enum does not mention has neither a default-initializable pattern
    binding nor a parent-initialized value, validation fails, the
    classification is [Invalid] and [deriveDecodable] produces no witness.
    The "non-decoded property" diagnostic for that member is emitted when
    no case of the key enum was itself diagnosed: validation returns before
    the check of the defaults otherwise. *)
Theorem non_decoded_member_rejected
    derived requirement front rest codingKeysEnum diags entry :
  Protocol derived = Decodable ->
  isEnumDecl (Nominal derived) = false ->
  lookupDirect Id_CodingKeys (Nominal derived) = front :: rest ->
  validateCodingKeysProtocolConformance sema derived front
    = (Some codingKeysEnum, diags) ->
  In entry (collectProperties (getStoredProperties (Nominal derived)) []) ->
  ~ In (fst entry) (caseNames codingKeysEnum) ->
  hasDefaultValue (snd entry) = false ->
  fst (classifyCodingKeys sema derived) = Invalid /\
  fst (fst (deriveDecodable sema derived requirement)) = None /\
  (keyCasesAreValid sema derived codingKeysEnum = true ->
   In (codable_non_decoded_property_here Decodable (getName (snd entry))
                                         (fst entry))
      (snd (classifyCodingKeys sema derived))).
Proof.
  intros Hproto Henum Hlook Hconf Hin Hnot Hdef.
  destruct (validateCodingKeysEnum_missing_default derived codingKeysEnum
              entry Hproto Hin Hnot Hdef) as [Hfalse Hdiag].
  pose proof (classifyCodingKeys_record derived Henum Hlook Hconf) as Hc.
  rewrite Hfalse in Hc.
  assert (Hinv : fst (classifyCodingKeys sema derived) = Invalid)
    by (rewrite Hc; reflexivity).
  split; [exact Hinv|]. split.
  - apply deriveDecodable_no_witness, canSynthesize_invalid, Hinv.
  - intros Hvalid. rewrite Hc. simpl. apply in_or_app. right.
    apply Hdiag, Hvalid.
Qed.

(** ** Classification of a tagged union *)

Lemma classifyCases_result derived elts : forall needsSynthesis,
  fst (classifyCases sema derived elts needsSynthesis)
  = if existsb (caseKeysAreInvalid sema derived) elts then Invalid
    else if needsSynthesis || existsb (caseKeysAreMissing derived) elts
         then NeedsSynthesizedCodingKeys
         else Valid.
Proof.
  induction elts as [|elt rest IH]; intros needsSynthesis; simpl.
  - rewrite orb_false_r. reflexivity.
  - unfold caseKeysAreInvalid, caseKeysAreMissing, caseCodingKeysDecls.
    destruct (lookupDirect (combineIdentifiers Id_CodingKeys
                              (getBaseIdentifier elt)) (Nominal derived))
      as [|front others].
    + simpl. rewrite IH. simpl. rewrite orb_true_r. reflexivity.
    + destruct (validateCodingKeysProtocolConformance sema derived front)
        as [[caseEnum|] diags]; [|reflexivity].
      destruct (validateCaseCodingKeysEnum sema derived elt caseEnum)
        as [ok diags'].
      destruct ok; simpl; [|reflexivity].
      specialize (IH needsSynthesis).
      destruct (classifyCases sema derived rest needsSynthesis) as [r d].
      simpl in *. exact IH.
Qed.

Lemma validateElements_extraneous proto elts key : forall properties,
  In (codable_extraneous_codingkey_case_here key)
     (snd (validateElements sema proto elts properties)) ->
  In key (map getBaseIdentifier elts).
Proof.
  induction elts as [|elt rest IH]; intros properties; simpl.
  - intros [].
  - destruct (mapFind (getBaseIdentifier elt) properties) as [[k var]|].
    + destruct (negb (conformsToProtocol sema _ proto)).
      * specialize (IH properties).
        destruct (validateElements sema proto rest properties) as [[p v] d].
        simpl in *. intros [H|H]; [discriminate H | right; auto].
      * intros H. right. eapply IH, H.
    + specialize (IH properties).
      destruct (validateElements sema proto rest properties) as [[p v] d].
      simpl in *. intros [H|H].
      * left. congruence.
      * right; auto.
Qed.

Lemma validateCaseCodingKeysEnum_extraneous derived elt caseEnum key :
  In (codable_extraneous_codingkey_case_here key)
     (snd (validateCaseCodingKeysEnum sema derived elt caseEnum)) ->
  In key (caseNames caseEnum).
Proof.
  unfold validateCaseCodingKeysEnum, caseNames.
  set (properties := match getParameterList elt with
                     | Some params => collectProperties params []
                     | None => []
                     end).
  pose proof (validateElements_extraneous (Protocol derived)
                (enumAllElements caseEnum) key properties) as H.
  destruct (validateElements sema (Protocol derived)
              (enumAllElements caseEnum) properties) as [[p v] d].
  simpl in H.
  destruct v; simpl; [|exact H].
  destruct (isSpecificProtocol (Protocol derived) Decodable); simpl;
    [|exact H].
  intros Hin. apply in_app_or in Hin. destruct Hin as [Hin|Hin]; [auto|].
  apply in_map_iff in Hin. destruct Hin as [e [He _]]. discriminate He.
Qed.

Lemma validateCodingKeysProtocolConformance_extraneous derived decl key :
  ~ In (codable_extraneous_codingkey_case_here key)
       (snd (validateCodingKeysProtocolConformance sema derived decl)).
Proof.
  unfold validateCodingKeysProtocolConformance.
  destruct decl as [v b|e|e|n ty [[e|m]|]|n ty|n]; simpl;
    repeat match goal with
           | |- context [negb ?c] => destruct c; simpl
           end;
    intros H; repeat (destruct H as [H|H]; try discriminate H); auto.
Qed.

Lemma classifyCases_extraneous derived key elts : forall needsSynthesis,
  In (codable_extraneous_codingkey_case_here key)
     (snd (classifyCases sema derived elts needsSynthesis)) ->
  exists elt front others caseEnum diags,
    In elt elts /\
    caseCodingKeysDecls derived elt = front :: others /\
    validateCodingKeysProtocolConformance sema derived front
      = (Some caseEnum, diags) /\
    In key (caseNames caseEnum).
Proof.
  induction elts as [|elt rest IH]; intros needsSynthesis; simpl.
  - destruct needsSynthesis; intros [].
  - destruct (lookupDirect (combineIdentifiers Id_CodingKeys
                              (getBaseIdentifier elt)) (Nominal derived))
      as [|front others] eqn:Hlook.
    + intros H. destruct (IH _ H) as (e & f & o & c & d & He & Hrest).
      exists e, f, o, c, d. split; [right; exact He | exact Hrest].
    + pose proof (validateCodingKeysProtocolConformance_extraneous
                    derived front key) as Hconf.
      destruct (validateCodingKeysProtocolConformance sema derived front)
        as [[caseEnum|] diags] eqn:Hfront; simpl in Hconf;
        [|intros H; simpl in H; contradiction].
      pose proof (@validateCaseCodingKeysEnum_extraneous derived elt caseEnum
                    key) as Hcase.
      destruct (validateCaseCodingKeysEnum sema derived elt caseEnum)
        as [ok diags'].
      simpl in Hcase.
      assert (Hhere : In key (caseNames caseEnum) ->
                exists elt0 front0 others0 caseEnum0 diags0,
                  In elt0 (elt :: rest) /\
                  caseCodingKeysDecls derived elt0 = front0 :: others0 /\
                  validateCodingKeysProtocolConformance sema derived front0
                    = (Some caseEnum0, diags0) /\
                  In key (caseNames caseEnum0)).
      { intros Hk. exists elt, front, others, caseEnum, diags.
        repeat split; auto. left; reflexivity. }
      destruct ok; simpl.
      * specialize (IH needsSynthesis).
        destruct (classifyCases sema derived rest needsSynthesis) as [r d].
        simpl in *. intros H.
        apply in_app_or in H. destruct H as [H|H]; [contradiction|].
        apply in_app_or in H. destruct H as [H|H]; [auto|].
        destruct (IH H) as (e & f & o & c & d' & He & Hrest).
        exists e, f, o, c, d'. split; [right; exact He | exact Hrest].
      * intros H. apply in_app_or in H. destruct H as [H|H];
          [contradiction | auto].
Qed.

(** C4 (amended).  For a tagged-union target with a user-declared outer
    [CodingKeys] enum, classification checks that the outer declaration is
    an enum conforming to [CodingKey] and runs the Validator on the
    per-case enums [CodingKeys_<case>] only.  The result is [Invalid]
    exactly when a present per-case enum is rejected, otherwise
    [NeedsSynthesizedCodingKeys] when a case has no per-case enum, otherwise
    [Valid]; and every "extraneous coding key" diagnostic names a case of a
    per-case enum.  The cases of the outer enum are not compared with the
    cases of the union. *)
Theorem classifyCodingKeys_tagged_union
    derived front rest codingKeysEnum diags :
  isEnumDecl (Nominal derived) = true ->
  lookupDirect Id_CodingKeys (Nominal derived) = front :: rest ->
  validateCodingKeysProtocolConformance sema derived front
    = (Some codingKeysEnum, diags) ->
  fst (classifyCodingKeys sema derived)
    = (if existsb (caseKeysAreInvalid sema derived)
                  (getAllElements (Nominal derived))
       then Invalid
       else if existsb (caseKeysAreMissing derived)
                       (getAllElements (Nominal derived))
            then NeedsSynthesizedCodingKeys
            else Valid) /\
  forall key,
    In (codable_extraneous_codingkey_case_here key)
       (snd (classifyCodingKeys sema derived)) ->
    exists elt front' others caseEnum diags',
      In elt (getAllElements (Nominal derived)) /\
      caseCodingKeysDecls derived elt = front' :: others /\
      validateCodingKeysProtocolConformance sema derived front'
        = (Some caseEnum, diags') /\
      In key (caseNames caseEnum).
Proof.
  intros Henum Hlook Hconf. unfold classifyCodingKeys.
  rewrite Hlook, Hconf, Henum.
  pose proof (classifyCases_result derived
                (getAllElements (Nominal derived)) false) as Hres.
  pose proof (fun key => @classifyCases_extraneous derived key
                (getAllElements (Nominal derived)) false) as Hext.
  destruct (classifyCases sema derived (getAllElements (Nominal derived))
                          false) as [r d].
  simpl in *. split; [exact Hres|].
  intros key H. apply in_app_or in H. destruct H as [H|H].
  - exfalso.
    apply (@validateCodingKeysProtocolConformance_extraneous derived front
             key).
    rewrite Hconf. exact H.
  - apply Hext, H.
Qed.

(** ** Members added to the target *)

Lemma extendsWith_refl target : extendsWith target target [].
Proof.
  unfold extendsWith. rewrite app_nil_r. repeat split.
Qed.

Lemma extendsWith_addMember d target : extendsWith target (addMember d target) [d].
Proof.
  unfold extendsWith. simpl. repeat split.
Qed.

Lemma extendsWith_trans a b c l1 l2 :
  extendsWith a b l1 -> extendsWith b c l2 -> extendsWith a c (l1 ++ l2).
Proof.
  unfold extendsWith.
  intros (Hm1 & Hn1 & Hk1 & Hs1 & Ha1) (Hm2 & Hn2 & Hk2 & Hs2 & Ha2).
  rewrite Hm2, Hm1, app_assoc. repeat split; congruence.
Qed.

Lemma extendsWith_nil_eq a b : extendsWith a b [] -> b = a.
Proof.
  unfold extendsWith. rewrite app_nil_r.
  destruct a, b; simpl. intros (? & ? & ? & ? & ?). congruence.
Qed.

Lemma lookupDirect_extends name target target' added :
  extendsWith target target' added ->
  lookupDirect name target'
  = lookupDirect name target
    ++ filter (fun d => String.eqb (declName d) name) added.
Proof.
  intros (Hm & _). unfold lookupDirect. rewrite Hm. apply filter_app.
Qed.

Lemma combineIdentifiers_not_CodingKeys name :
  combineIdentifiers Id_CodingKeys name <> Id_CodingKeys.
Proof.
  unfold combineIdentifiers, Id_CodingKeys. simpl. discriminate.
Qed.


Lemma add_enumName derived varDecl enumDecl :
  enumName (snd (fst (add sema derived varDecl enumDecl)))
  = enumName enumDecl /\
  enumIsImplicit (snd (fst (add sema derived varDecl enumDecl)))
  = enumIsImplicit enumDecl.
Proof.
  unfold add.
  destruct (negb (isUserAccessible varDecl)); [split; reflexivity|].
  destruct (negb (conformsToProtocol sema _ (Protocol derived)));
    split; reflexivity.
Qed.

Lemma addParams_enumName derived params : forall allConform nestedEnum,
  enumName (snd (fst (addParams sema derived params allConform nestedEnum)))
  = enumName nestedEnum /\
  enumIsImplicit
    (snd (fst (addParams sema derived params allConform nestedEnum)))
  = enumIsImplicit nestedEnum.
Proof.
  induction params as [|p rest IH]; intros allConform nestedEnum; simpl.
  - split; reflexivity.
  - destruct allConform; [|apply IH].
    pose proof (add_enumName derived p nestedEnum) as Hadd.
    destruct (add sema derived p nestedEnum) as [[ok e] d].
    specialize (IH ok e).
    destruct (addParams sema derived rest ok e) as [[ok' e'] d'].
    simpl in *. destruct Hadd, IH. split; congruence.
Qed.

(** What the loop over the cases adds, relative to the target it starts
    from, and what is declared once it is done. *)
Lemma synthesizeCaseCodingKeys_added derived codingKeysEnum elements :
  forall target allConform,
  exists added,
    extendsWith target
      (fst (fst (synthesizeCaseCodingKeys sema derived codingKeysEnum
                   elements target allConform)))
      added /\
    (forall d, In d added ->
       exists e elt,
         d = EnumMember e /\ In elt elements /\
         enumName e
         = combineIdentifiers Id_CodingKeys (getBaseIdentifier elt) /\
         enumIsImplicit e = true /\
         lookupEnumCase codingKeysEnum (getBaseIdentifier elt) <> None /\
         lookupDirect (enumName e) target = [] /\
         hasAnyUnnamedParameters elt = false) /\
    (forall elt, In elt elements ->
       lookupEnumCase codingKeysEnum (getBaseIdentifier elt) <> None ->
       hasAnyUnnamedParameters elt = false ->
       lookupDirect (combineIdentifiers Id_CodingKeys (getBaseIdentifier elt))
         (fst (fst (synthesizeCaseCodingKeys sema derived codingKeysEnum
                      elements target allConform)))
       <> []).
Proof.
  induction elements as [|elementDecl rest IH]; intros target allConform.
  - exists []. simpl. split; [apply extendsWith_refl|].
    split; intros ? [].
  - simpl.
    set (enumIdentifier :=
           combineIdentifiers Id_CodingKeys (getBaseIdentifier elementDecl)).
    destruct (lookupEnumCase codingKeysEnum (getBaseIdentifier elementDecl))
      as [codingKeyCase|] eqn:Hcase.
    2:{ destruct (IH target allConform) as (added & Hext & Hadded & Hdone).
        exists added. split; [exact Hext|]. split.
        - intros d Hd. destruct (Hadded d Hd) as (e & elt & H1 & H2 & H3).
          exists e, elt. split; [exact H1|]. split; [right; exact H2|].
          exact H3.
        - intros elt [Heq|Hin] Hkey Hnamed.
          + subst elt. rewrite Hcase in Hkey. contradiction.
          + apply Hdone; assumption. }
    destruct (lookupDirect enumIdentifier target) as [|existing others]
      eqn:Hlook.
    2:{ destruct (IH target allConform) as (added & Hext & Hadded & Hdone).
        exists added. split; [exact Hext|]. split.
        - intros d Hd. destruct (Hadded d Hd) as (e & elt & H1 & H2 & H3).
          exists e, elt. split; [exact H1|]. split; [right; exact H2|].
          exact H3.
        - intros elt [Heq|Hin] Hkey Hnamed.
          + subst elt. fold enumIdentifier.
            rewrite (lookupDirect_extends enumIdentifier Hext), Hlook.
            discriminate.
          + apply Hdone; assumption. }
    destruct (hasAnyUnnamedParameters elementDecl) eqn:Hunnamed.
    { destruct (IH target allConform) as (added & Hext & Hadded & Hdone).
      exists added. split; [exact Hext|]. split.
      - intros d Hd. destruct (Hadded d Hd) as (e & elt & H1 & H2 & H3).
        exists e, elt. split; [exact H1|]. split; [right; exact H2|].
        exact H3.
      - intros elt [Heq|Hin] Hkey Hnamed.
        + subst elt. rewrite Hunnamed in Hnamed. discriminate.
        + apply Hdone; assumption. }
    set (nested := match getParameterList elementDecl with
                   | Some elementParams =>
                       addParams sema derived elementParams allConform
                         (newCodingKeysEnum enumIdentifier false)
                   | None =>
                       (allConform, newCodingKeysEnum enumIdentifier false, [])
                   end).
    assert (Hnested : enumName (snd (fst nested)) = enumIdentifier /\
                      enumIsImplicit (snd (fst nested)) = true).
    { unfold nested. destruct (getParameterList elementDecl) as [ps|].
      - apply (addParams_enumName derived ps allConform
                 (newCodingKeysEnum enumIdentifier false)).
      - split; reflexivity. }
    destruct nested as [[allConform' nestedEnum'] diags]. simpl in Hnested.
    destruct Hnested as [Hname Himplicit].
    destruct (IH (addMember (EnumMember nestedEnum') target) allConform')
      as (added & Hext & Hadded & Hdone).
    destruct (synthesizeCaseCodingKeys sema derived codingKeysEnum rest
                (addMember (EnumMember nestedEnum') target) allConform')
      as [[target' allConform''] diags'].
    simpl in *.
    exists (EnumMember nestedEnum' :: added).
    split.
    { change (EnumMember nestedEnum' :: added)
        with ([EnumMember nestedEnum'] ++ added).
      eapply extendsWith_trans; [apply extendsWith_addMember | exact Hext]. }
    split.
    + intros d [Hd|Hd].
      * subst d. exists nestedEnum', elementDecl.
        split; [reflexivity|]. split; [left; reflexivity|].
        split; [exact Hname|]. split; [exact Himplicit|].
        split; [rewrite Hcase; discriminate|].
        split; [rewrite Hname; exact Hlook | exact Hunnamed].
      * destruct (Hadded d Hd)
          as (e & elt & H1 & H2 & H3 & H4 & H5 & H6 & H7).
        exists e, elt. split; [exact H1|]. split; [right; exact H2|].
        split; [exact H3|]. split; [exact H4|]. split; [exact H5|].
        split; [|exact H7].
        rewrite (lookupDirect_extends (enumName e)
                   (extendsWith_addMember (EnumMember nestedEnum') target))
          in H6.
        apply app_eq_nil in H6. apply H6.
    + intros elt [Heq|Hin] Hkey Hnamed.
      * subst elt. fold enumIdentifier.
        rewrite (lookupDirect_extends enumIdentifier Hext).
        rewrite (lookupDirect_extends enumIdentifier
                   (extendsWith_addMember (EnumMember nestedEnum') target)).
        simpl. rewrite Hname, String.eqb_refl. rewrite Hlook. simpl.
        discriminate.
      * apply Hdone; assumption.
Qed.

Lemma fold_enumAddMember_name (elts : list EnumElementDecl) : forall e,
  enumName
    (fold_left
       (fun enumDecl elementDecl =>
          enumAddMember (implicitElement (getBaseIdentifier elementDecl))
                        enumDecl) elts e)
  = enumName e.
Proof.
  induction elts as [|x xs IH]; intros e; simpl; [reflexivity|].
  rewrite IH. reflexivity.
Qed.

Lemma synthesizedOuterCodingKeys_name target :
  enumName (synthesizedOuterCodingKeys target) = Id_CodingKeys.
Proof.
  unfold synthesizedOuterCodingKeys. rewrite fold_enumAddMember_name.
  reflexivity.
Qed.

Lemma needsCaseCodingKeys_true target elt :
  needsCaseCodingKeys target elt = true ->
  lookupEnumCase (outerCodingKeys target) (getBaseIdentifier elt) <> None /\
  lookupDirect (combineIdentifiers Id_CodingKeys (getBaseIdentifier elt))
               target = [] /\
  hasAnyUnnamedParameters elt = false.
Proof.
  unfold needsCaseCodingKeys.
  destruct (lookupEnumCase (outerCodingKeys target) (getBaseIdentifier elt));
    [|discriminate].
  destruct (lookupDirect _ target); [|discriminate].
  intros H. apply negb_true_iff in H.
  repeat split; [discriminate | exact H].
Qed.

Lemma needsCaseCodingKeys_intro target elt :
  lookupEnumCase (outerCodingKeys target) (getBaseIdentifier elt) <> None ->
  lookupDirect (combineIdentifiers Id_CodingKeys (getBaseIdentifier elt))
               target = [] ->
  hasAnyUnnamedParameters elt = false ->
  needsCaseCodingKeys target elt = true.
Proof.
  unfold needsCaseCodingKeys. intros Hkey Hlook Hnamed.
  destruct (lookupEnumCase (outerCodingKeys target) (getBaseIdentifier elt));
    [|contradiction].
  rewrite Hlook, Hnamed. reflexivity.
Qed.

Lemma filter_not_nil_In {A} (f : A -> bool) (l : list A) :
  filter f l <> [] -> exists x, In x l /\ f x = true.
Proof.
  destruct (filter f l) as [|x xs] eqn:E; [contradiction|].
  intros _. exists x. apply filter_In. rewrite E. left. reflexivity.
Qed.

(** The loop over the cases, started on the target with its outer key
    enum. *)
Lemma synthesizeCodingKeysEnum_enum_steps derived target ok target' diags :
  synthesizeCodingKeysEnum_enum sema derived target = (ok, target', diags) ->
  exists added,
    extendsWith (targetWithOuterCodingKeys target) target' added /\
    (forall d, In d added ->
       exists e elt,
         d = EnumMember e /\ In elt (getAllElements target) /\
         enumName e
         = combineIdentifiers Id_CodingKeys (getBaseIdentifier elt) /\
         enumIsImplicit e = true /\
         lookupEnumCase (outerCodingKeys target) (getBaseIdentifier elt)
         <> None /\
         lookupDirect (enumName e) (targetWithOuterCodingKeys target) = [] /\
         hasAnyUnnamedParameters elt = false) /\
    (forall elt, In elt (getAllElements target) ->
       lookupEnumCase (outerCodingKeys target) (getBaseIdentifier elt)
       <> None ->
       hasAnyUnnamedParameters elt = false ->
       lookupDirect (combineIdentifiers Id_CodingKeys (getBaseIdentifier elt))
                    target' <> []).
Proof.
  unfold synthesizeCodingKeysEnum_enum, targetWithOuterCodingKeys,
    outerCodingKeys.
  intros Hsynth.
  destruct (lookupEvaluatedCodingKeysEnum target Id_CodingKeys)
    as [codingKeysEnum|].
  - destruct (synthesizeCaseCodingKeys_added derived codingKeysEnum
                (getAllElements target) target true)
      as (added & Hsteps).
    destruct (synthesizeCaseCodingKeys sema derived codingKeysEnum
                (getAllElements target) target true) as [[t2 ac] ds].
    injection Hsynth as _ <- _. exists added. exact Hsteps.
  - destruct (synthesizeCaseCodingKeys_added derived
                (synthesizedOuterCodingKeys target) (getAllElements target)
                (addMember (EnumMember (synthesizedOuterCodingKeys target))
                           target) true)
      as (added & Hsteps).
    destruct (synthesizeCaseCodingKeys sema derived
                (synthesizedOuterCodingKeys target) (getAllElements target)
                (addMember (EnumMember (synthesizedOuterCodingKeys target))
                           target) true) as [[t2 ac] ds].
    injection Hsynth as _ <- _. exists added. exact Hsteps.
Qed.

Lemma targetWithOuterCodingKeys_extends target :
  exists outer,
    extendsWith target (targetWithOuterCodingKeys target) outer /\
    (outer = [] /\
     lookupEvaluatedCodingKeysEnum target Id_CodingKeys <> None \/
     outer = [EnumMember (synthesizedOuterCodingKeys target)] /\
     lookupEvaluatedCodingKeysEnum target Id_CodingKeys = None) /\
    forall name,
      lookupDirect (combineIdentifiers Id_CodingKeys name)
                   (targetWithOuterCodingKeys target)
      = lookupDirect (combineIdentifiers Id_CodingKeys name) target.
Proof.
  unfold targetWithOuterCodingKeys.
  destruct (lookupEvaluatedCodingKeysEnum target Id_CodingKeys) as [e|].
  - exists []. split; [apply extendsWith_refl|].
    split; [left; split; [reflexivity | discriminate] | reflexivity].
  - exists [EnumMember (synthesizedOuterCodingKeys target)].
    split; [apply extendsWith_addMember|].
    split; [right; split; reflexivity|].
    intros name.
    rewrite (lookupDirect_extends _
               (extendsWith_addMember
                  (EnumMember (synthesizedOuterCodingKeys target)) target)).
    simpl. rewrite synthesizedOuterCodingKeys_name.
    destruct (String.eqb_spec Id_CodingKeys
                (combineIdentifiers Id_CodingKeys name)) as [E|_].
    + symmetry in E. apply combineIdentifiers_not_CodingKeys in E.
      destruct E.
    + apply app_nil_r.
Qed.

(** C3 (amended).  [synthesizeCodingKeysEnum_enum] only adds members to
    the target.  It adds a nested [CodingKeys_<case>] enum for every case
    that is in the outer key enum, has nothing declared under that name and
    has no unnamed parameter, a case without parameters included; and it
    adds nothing else but the outer [CodingKeys] enum when the target has
    none. *)
Theorem nested_key_enums_synthesized derived target ok target' diags :
  synthesizeCodingKeysEnum_enum sema derived target = (ok, target', diags) ->
  exists added,
    extendsWith target target' added /\
    (forall elt,
       In elt (getAllElements target) ->
       needsCaseCodingKeys target elt = true ->
       exists e,
         In (EnumMember e) added /\
         enumName e
         = combineIdentifiers Id_CodingKeys (getBaseIdentifier elt) /\
         enumIsImplicit e = true) /\
    (forall d,
       In d added ->
       (d = EnumMember (synthesizedOuterCodingKeys target) /\
        lookupEvaluatedCodingKeysEnum target Id_CodingKeys = None) \/
       (exists e elt,
          d = EnumMember e /\
          In elt (getAllElements target) /\
          enumName e
          = combineIdentifiers Id_CodingKeys (getBaseIdentifier elt) /\
          needsCaseCodingKeys target elt = true)).
Proof.
  intros Hsynth.
  destruct (synthesizeCodingKeysEnum_enum_steps _ _ Hsynth)
    as (added & Hext & Hadded & Hdone).
  destruct (targetWithOuterCodingKeys_extends target)
    as (outer & Houter & Hcases & Hsame).
  exists (outer ++ added).
  split; [eapply extendsWith_trans; eassumption|]. split.
  - (* a case that passes the three tests has its enum among the added *)
    intros elt Hin Hneeds.
    apply needsCaseCodingKeys_true in Hneeds.
    destruct Hneeds as (Hkey & Hlook & Hnamed).
    pose proof (Hdone elt Hin Hkey Hnamed) as Hthere.
    rewrite (lookupDirect_extends _ Hext), Hsame, Hlook in Hthere.
    destruct (filter_not_nil_In _ _ Hthere) as (d & Hd & Hname).
    destruct (Hadded d Hd) as (e & elt0 & -> & _ & _ & Himplicit & _).
    simpl in Hname. apply String.eqb_eq in Hname.
    exists e. split; [apply in_or_app; right; exact Hd|].
    split; assumption.
  - (* and nothing else is added, but the outer enum *)
    intros d Hd. apply in_app_or in Hd. destruct Hd as [Hd|Hd].
    + left. destruct Hcases as [[-> _]|[-> Hnone]]; [destruct Hd|].
      destruct Hd as [<-|[]]. split; [reflexivity | exact Hnone].
    + right.
      destruct (Hadded d Hd)
        as (e & elt & H1 & H2 & H3 & H4 & H5 & H6 & H7).
      exists e, elt. repeat split; try assumption.
      apply needsCaseCodingKeys_intro; [exact H5 | | exact H7].
      rewrite <- Hsame, <- H3. exact H6.
Qed.

(** ** The checks of [canSynthesize] *)

Lemma canSynthesize_superclassInitFailure derived requirement diags :
  superclassInitFailure sema derived requirement = Some diags ->
  canSynthesize sema derived requirement = (false, Nominal derived, diags) /\
  fst (fst (deriveDecodable sema derived requirement)) = None.
Proof.
  intros H.
  assert (Hcan : canSynthesize sema derived requirement
                 = (false, Nominal derived, diags))
    by (unfold canSynthesize; rewrite H; reflexivity).
  split; [exact Hcan|].
  apply deriveDecodable_no_witness. rewrite Hcan. reflexivity.
Qed.

(** C8 (amended).  Deriving Decodable for a class with a superclass,
    [canSynthesize] looks up [init(from:)] in the superclass when the
    superclass conforms to Decodable, [init()] otherwise, and goes on to
    the classification only when the lookup has exactly one result, which
    is designated, accessible and not failable.  A missing, non-designated,
    inaccessible or failable initializer emits its dedicated diagnostic; an
    ambiguous lookup emits none.  All five leave the target as it is and
    produce no witness. *)
Theorem superclass_initializer_precheck
    derived requirement classDecl superclassDecl :
  Protocol derived = Decodable ->
  asClassDecl (Nominal derived) = Some classDecl ->
  getSuperclassDecl classDecl = Some superclassDecl ->
  let memberName :=
    if conformsToProtocol sema
         (superclassDeclaredInterfaceType superclassDecl) Decodable
    then requirement else initNoArguments in
  let result := lookupMember sema superclassDecl memberName in
  let aborts diags :=
    canSynthesize sema derived requirement = (false, Nominal derived, diags) /\
    fst (fst (deriveDecodable sema derived requirement)) = None in
  (result = [] ->
   aborts [decodable_no_super_init_here requirement memberName]) /\
  (forall first second others,
     result = first :: second :: others -> aborts []) /\
  (forall initializer,
     result = [initializer] ->
     (isDesignatedInit initializer = false ->
      aborts [decodable_super_init_not_designated_here requirement
                memberName]) /\
     (isDesignatedInit initializer = true ->
      isAccessibleFrom initializer = false ->
      aborts [decodable_inaccessible_super_init_here requirement memberName
                (accessLevelForDiagnostics initializer)]) /\
     (isDesignatedInit initializer = true ->
      isAccessibleFrom initializer = true ->
      isFailable initializer = true ->
      aborts [decodable_super_init_is_failable_here requirement
                memberName]) /\
     (isDesignatedInit initializer = true ->
      isAccessibleFrom initializer = true ->
      isFailable initializer = false ->
      superclassInitFailure sema derived requirement = None)).
Proof.
  intros Hproto Hclass Hsuper memberName result aborts.
  assert (Hfail :
            superclassInitFailure sema derived requirement
            = match result with
              | [] =>
                  Some [decodable_no_super_init_here requirement memberName]
              | [initializer] =>
                  if negb (isDesignatedInit initializer) then
                    Some [decodable_super_init_not_designated_here
                            requirement memberName]
                  else if negb (isAccessibleFrom initializer) then
                    Some [decodable_inaccessible_super_init_here
                            requirement memberName
                            (accessLevelForDiagnostics initializer)]
                  else if isFailable initializer then
                    Some [decodable_super_init_is_failable_here
                            requirement memberName]
                  else None
              | _ :: _ :: _ => Some []
              end).
  { unfold superclassInitFailure. rewrite Hclass, Hproto, Hsuper.
    reflexivity. }
  split; [|split].
  - intros Hres. rewrite Hres in Hfail.
    apply canSynthesize_superclassInitFailure, Hfail.
  - intros first second others Hres. rewrite Hres in Hfail.
    apply canSynthesize_superclassInitFailure, Hfail.
  - intros initializer Hres. rewrite Hres in Hfail.
    split; [|split; [|split]].
    + intros Hd. rewrite Hd in Hfail.
      apply canSynthesize_superclassInitFailure, Hfail.
    + intros Hd Ha. rewrite Hd, Ha in Hfail.
      apply canSynthesize_superclassInitFailure, Hfail.
    + intros Hd Ha Hf. rewrite Hd, Ha, Hf in Hfail.
      apply canSynthesize_superclassInitFailure, Hfail.
    + intros Hd Ha Hf. rewrite Hd, Ha, Hf in Hfail. exact Hfail.
Qed.

Lemma addStoredProperties_result derived vars : forall enumDecl allConform,
  exists ok e diags,
    addStoredProperties sema derived vars enumDecl allConform
    = (ok, e, diags).
Proof.
  intros. destruct (addStoredProperties sema derived vars enumDecl allConform)
    as [[ok e] d]. eauto.
Qed.

Lemma synthesizeCodingKeysEnum_extends derived :
  exists added,
    extendsWith (Nominal derived)
                (snd (fst (synthesizeCodingKeysEnum sema derived))) added.
Proof.
  unfold synthesizeCodingKeysEnum.
  destruct (isEnumDecl (Nominal derived)).
  - destruct (synthesizeCodingKeysEnum_enum sema derived (Nominal derived))
      as [[ok t] d] eqn:E.
    destruct (synthesizeCodingKeysEnum_enum_steps _ _ E)
      as (added & Hext & _).
    destruct (targetWithOuterCodingKeys_extends (Nominal derived))
      as (outer & Houter & _).
    exists (outer ++ added). eapply extendsWith_trans; eassumption.
  - match goal with
    | |- context [addStoredProperties sema derived ?v ?e ?a] =>
        destruct (addStoredProperties sema derived v e a) as [[ok e'] d]
    end.
    destruct (negb ok); simpl.
    + exists []. apply extendsWith_refl.
    + eexists. apply extendsWith_addMember.
Qed.

Lemma canSynthesize_extends derived requirement :
  exists added,
    extendsWith (Nominal derived)
                (snd (fst (canSynthesize sema derived requirement))) added.
Proof.
  unfold canSynthesize.
  destruct (superclassInitFailure sema derived requirement).
  { exists []. apply extendsWith_refl. }
  destruct (classifyCodingKeys sema derived) as [[| |] d].
  - exists []. apply extendsWith_refl.
  - destruct (synthesizeCodingKeysEnum_extends derived) as (added & Hext).
    destruct (synthesizeCodingKeysEnum sema derived) as [[ok t] d'].
    exists added. exact Hext.
  - exists []. apply extendsWith_refl.
Qed.

Lemma asClassDecl_extends target target' added :
  extendsWith target target' added ->
  asClassDecl target' = asClassDecl target /\
  isEnumDecl target' = isEnumDecl target /\
  getFormalAccess target' = getFormalAccess target.
Proof.
  intros (_ & _ & Hk & _ & Ha). unfold asClassDecl, isEnumDecl.
  rewrite Hk. auto.
Qed.

(** ** The witnesses *)

(** C10.  When [canSynthesize] accepts the target, [deriveDecodable]
    returns the initializer [init(from:)], which is throwing and not
    failable, has the formal access copied from the target type, and
    carries one attribute, an implicit [required], exactly when the target
    is a class that is not final; and [deriveEncodable] returns the method
    [encode(to:)], which is throwing and not async, has the formal access
    copied from the target type, and carries one attribute, an implicit
    [override], exactly when the superclass conforms to Encodable.  The
    body synthesizer is that of enums for an enum and that of structs and
    classes otherwise.  No diagnostic is left. *)
Theorem synthesized_witness_attributes derived requirement :
  isDerivableNominal (Nominal derived) = true ->
  checkAndDiagnoseDisallowedContext sema requirement = false ->
  fst (fst (canSynthesize sema derived requirement)) = true ->
  (isConstructorName (getBaseName requirement) = true ->
   deriveDecodable sema derived requirement
   = (Some {| initName := {| getBaseName := BaseConstructor;
                             getArgumentNames := ["from"] |};
              initIsFailable := false;
              initThrows := true;
              initAttrs :=
                match asClassDecl (Nominal derived) with
                | Some classDecl =>
                    if isFinal classDecl then [] else [RequiredAttr true]
                | None => []
                end;
              initAccess :=
                copyFormalAccessFrom sema (getFormalAccess (Nominal derived));
              initBodySynthesizer :=
                if isEnumDecl (Nominal derived) then BodyDecodable_enum_init
                else BodyDecodable_init |},
      snd (fst (canSynthesize sema derived requirement)),
      [])) /\
  (isBaseIdentifier (getBaseName requirement) "encode" = true ->
   deriveEncodable sema derived requirement
   = (Some {| funcName := {| getBaseName := BaseIdentifier "encode";
                             getArgumentNames := ["to"] |};
              funcIsAsync := false;
              funcThrows := true;
              funcAttrs :=
                if superclassConformsTo sema (asClassDecl (Nominal derived))
                                        Encodable
                then [OverrideAttr true] else [];
              funcAccess :=
                copyFormalAccessFrom sema (getFormalAccess (Nominal derived));
              funcBodySynthesizer :=
                if isEnumDecl (Nominal derived) then BodyEncodable_enum_encode
                else BodyEncodable_encode |},
      snd (fst (canSynthesize sema derived requirement)),
      [])).
Proof.
  intros Hnominal Hcontext Hok.
  destruct (canSynthesize_extends derived requirement) as (added & Hext).
  destruct (asClassDecl_extends Hext) as (Hclass & Henum & Haccess).
  split.
  - intros Hname. unfold deriveDecodable.
    rewrite Hnominal, Hname, Hcontext. simpl.
    destruct (canSynthesize sema derived requirement) as [[ok target] diags].
    simpl in *. subst ok.
    unfold deriveDecodable_init. simpl.
    rewrite Hclass, Henum, Haccess.
    destruct (asClassDecl (Nominal derived)) as [classDecl|];
      [|reflexivity].
    destruct (isFinal classDecl); reflexivity.
  - intros Hname. unfold deriveEncodable.
    change Id_encode with "encode".
    rewrite Hnominal, Hname, Hcontext. simpl.
    destruct (canSynthesize sema derived requirement) as [[ok target] diags].
    simpl in *. subst ok.
    unfold deriveEncodable_encode. simpl.
    rewrite Hclass, Henum, Haccess. reflexivity.
Qed.

(** ** The synthesized bodies of a struct or class *)

Lemma findVarDecl_optional decls varDecl varType useIfPresentVariant :
  findVarDecl sema decls = Some (varDecl, varType, useIfPresentVariant) ->
  useIfPresentVariant = isOptional (memberType sema varDecl) /\
  varType = decodedType (memberType sema varDecl).
Proof.
  induction decls as [|d rest IH]; simpl; [discriminate|].
  destruct d as [v backing| | | | |]; try exact IH.
  set (vd := match backing with Some b => b | None => v end).
  destruct (negb (isStatic vd)); [|exact IH].
  unfold isOptional, decodedType, memberType.
  destruct (getOptionalObjectType
              (mapTypeIntoContext sema (getValueInterfaceType vd)))
    as [objType|] eqn:Hopt;
    intros H; inversion H; subst; rewrite Hopt; split; reflexivity.
Qed.

Lemma lookupVarDeclForCodingKeysCase_optional
    elt targetDecl varDecl varType useIfPresentVariant :
  lookupVarDeclForCodingKeysCase sema elt targetDecl
    = Some (varDecl, varType, useIfPresentVariant) ->
  useIfPresentVariant = isOptional (memberType sema varDecl) /\
  varType = decodedType (memberType sema varDecl).
Proof.
  apply findVarDecl_optional.
Qed.

Lemma encodeMembers_total targetDecl containerExpr codingKeysType elts :
  Forall (fun elt =>
            lookupVarDeclForCodingKeysCase sema elt targetDecl <> None) elts ->
  exists statements,
    encodeMembers sema targetDecl containerExpr codingKeysType elts
    = Some statements.
Proof.
  induction 1 as [|elt rest Hres _ IH]; simpl; [eauto|].
  destruct (lookupVarDeclForCodingKeysCase sema elt targetDecl)
    as [[[vd ty] b]|]; [|contradiction].
  destruct IH as (statements & ->). eauto.
Qed.

Lemma decodeMembers_total
    targetDecl codingKeysEnum containerExpr codingKeysType elts :
  Forall (fun elt =>
            lookupVarDeclForCodingKeysCase sema elt targetDecl <> None) elts ->
  exists statements diags,
    decodeMembers sema targetDecl codingKeysEnum containerExpr codingKeysType
                  elts
    = Some (statements, diags).
Proof.
  induction 1 as [|elt rest Hres _ IH]; simpl; [eauto|].
  destruct (lookupVarDeclForCodingKeysCase sema elt targetDecl)
    as [[[vd ty] b]|]; [|contradiction].
  destruct IH as (statements & diags & ->).
  destruct (isLet vd && isParentInitialized vd); eauto.
Qed.

Lemma encodeMembers_In targetDecl containerExpr codingKeysType elts :
  forall statements,
  encodeMembers sema targetDecl containerExpr codingKeysType elts
    = Some statements ->
  forall elt, In elt elts ->
  exists varDecl varType,
    lookupVarDeclForCodingKeysCase sema elt targetDecl
      = Some (varDecl, varType, isOptional (memberType sema varDecl)) /\
    In (encodeMemberStatement containerExpr codingKeysType elt varDecl
          (isOptional (memberType sema varDecl)))
       statements.
Proof.
  induction elts as [|e rest IH]; intros statements; simpl.
  - intros _ elt [].
  - destruct (lookupVarDeclForCodingKeysCase sema e targetDecl)
      as [[[vd ty] b]|] eqn:Hlook; [|discriminate].
    destruct (encodeMembers sema targetDecl containerExpr codingKeysType rest)
      as [others|]; [|discriminate].
    intros H elt Hin. inversion H; subst; clear H.
    destruct (lookupVarDeclForCodingKeysCase_optional _ _ Hlook) as [Hb _].
    destruct Hin as [Heq|Hin].
    + subst elt b. exists vd, ty. split; [exact Hlook | left; reflexivity].
    + destruct (IH others eq_refl elt Hin) as (vd' & ty' & H1 & H2).
      exists vd', ty'. split; [exact H1 | right; exact H2].
Qed.

Lemma decodeMembers_In
    targetDecl codingKeysEnum containerExpr codingKeysType elts :
  forall statements diags,
  decodeMembers sema targetDecl codingKeysEnum containerExpr codingKeysType
                elts
    = Some (statements, diags) ->
  forall elt, In elt elts ->
  exists varDecl,
    lookupVarDeclForCodingKeysCase sema elt targetDecl
      = Some (varDecl, decodedType (memberType sema varDecl),
              isOptional (memberType sema varDecl)) /\
    (isLet varDecl && isParentInitialized varDecl = false ->
     In (decodeMemberStatement containerExpr codingKeysType elt varDecl
           (decodedType (memberType sema varDecl))
           (isOptional (memberType sema varDecl)))
        statements).
Proof.
  induction elts as [|e rest IH]; intros statements diags; simpl.
  - intros _ elt [].
  - destruct (lookupVarDeclForCodingKeysCase sema e targetDecl)
      as [[[vd ty] b]|] eqn:Hlook; [|discriminate].
    destruct (decodeMembers sema targetDecl codingKeysEnum containerExpr
                codingKeysType rest) as [[others ds]|]; [|discriminate].
    destruct (lookupVarDeclForCodingKeysCase_optional _ _ Hlook) as [Hb Hty].
    subst b ty.
    intros H elt Hin.
    destruct Hin as [Heq|Hin].
    + subst elt. exists vd. split; [exact Hlook|].
      intros Hlet. rewrite Hlet in H. inversion H; subst. left. reflexivity.
    + destruct (IH others ds eq_refl elt Hin) as (vd' & H1 & H2).
      exists vd'. split; [exact H1|].
      intros Hlet. specialize (H2 Hlet).
      destruct (isLet vd && isParentInitialized vd);
        inversion H; subst; [exact H2 | right; exact H2].
Qed.

Lemma isOptional_spec ty :
  (isOptional ty = true <-> exists object, ty = OptionalType object) /\
  (forall object, ty = OptionalType object -> decodedType ty = object) /\
  (isOptional ty = false -> decodedType ty = ty).
Proof.
  destruct ty as [name|object]; simpl; repeat split.
  - discriminate.
  - intros (object & H). discriminate H.
  - intros object H. discriminate H.
  - intros _. exists object. reflexivity.
  - intros o H. inversion H. reflexivity.
  - discriminate.
Qed.

Lemma deriveBodyDecodable_init_inv target codingKeysEnum body diags :
  lookupEvaluatedCodingKeysEnum target Id_CodingKeys = Some codingKeysEnum ->
  deriveBodyDecodable_init sema target = Some (body, diags) ->
  exists members superStatements,
    body = (match enumAllElements codingKeysEnum with
            | [] => []
            | _ :: _ =>
                decodePrelude sema (decodingContainerDecl codingKeysEnum)
                              codingKeysEnum ++ members
            end) ++ superStatements /\
    (enumAllElements codingKeysEnum <> [] ->
     decodeMembers sema target codingKeysEnum containerRef
                   (enumDeclaredInterfaceType codingKeysEnum)
                   (enumAllElements codingKeysEnum)
     = Some (members, diags)) /\
    Forall isExprNode superStatements.
Proof.
  intros Hkeys. unfold deriveBodyDecodable_init. rewrite Hkeys.
  change (DeclRefExpr
            (localName
               (createKeyedContainer KeyedDecodingContainer
                  (enumDeclaredInterfaceType codingKeysEnum) Let
                  Id_container)))
    with containerRef.
  change (createKeyedContainer KeyedDecodingContainer
            (enumDeclaredInterfaceType codingKeysEnum) Let Id_container)
    with (decodingContainerDecl codingKeysEnum).
  set (superCall :=
         match asClassDecl target with
         | Some classDecl =>
             match getSuperclassDecl classDecl with
             | Some superclassDecl =>
                 if superclassConformsTo sema (Some classDecl) Decodable
                 then Some [superInitFromStatement containerRef]
                 else match superInitStatement superclassDecl with
                      | Some statement => Some [statement]
                      | None => None
                      end
             | None => Some []
             end
         | None => Some []
         end).
  assert (Hsuper : forall superStatements,
            superCall = Some superStatements ->
            Forall isExprNode superStatements).
  { unfold superCall. intros superStatements.
    destruct (asClassDecl target) as [classDecl|].
    - destruct (getSuperclassDecl classDecl) as [superclassDecl|].
      + destruct (superclassConformsTo sema (Some classDecl) Decodable).
        * intros H. inversion H; subst. repeat constructor.
        * unfold superInitStatement.
          destruct (filter _ (superclassConstructors superclassDecl))
            as [|superInitDecl others]; [discriminate|].
          destruct (isFailable superInitDecl); [discriminate|].
          intros H. inversion H; subst. repeat constructor.
      + intros H. inversion H; subst. constructor.
    - intros H. inversion H; subst. constructor. }
  destruct superCall as [superStatements|].
  - specialize (Hsuper superStatements eq_refl).
    destruct (enumAllElements codingKeysEnum) as [|e0 es].
    + intros H. injection H as <- <-.
      exists [], superStatements.
      split; [reflexivity|]. split; [contradiction | exact Hsuper].
    + destruct (decodeMembers sema target codingKeysEnum containerRef
                  (enumDeclaredInterfaceType codingKeysEnum) (e0 :: es))
        as [[members ds]|]; [|discriminate].
      intros H. injection H as <- <-.
      exists members, superStatements.
      split; [reflexivity|]. split; [reflexivity | exact Hsuper].
  - destruct (enumAllElements codingKeysEnum) as [|e0 es]; [discriminate|].
    destruct (decodeMembers sema target codingKeysEnum containerRef
                (enumDeclaredInterfaceType codingKeysEnum) (e0 :: es))
      as [[members ds]|]; discriminate.
Qed.

(** ** The bodies of a struct or class when every key resolves *)

Lemma encodeMembers_resolved targetDecl containerExpr codingKeysType elts :
  Forall (fun elt =>
            lookupVarDeclForCodingKeysCase sema elt targetDecl <> None) elts ->
  encodeMembers sema targetDecl containerExpr codingKeysType elts
  = Some (flat_map
            (fun elt =>
               match lookupVarDeclForCodingKeysCase sema elt targetDecl with
               | Some (varDecl, _, _) =>
                   [encodeMemberStatement containerExpr codingKeysType elt
                      varDecl (isOptional (memberType sema varDecl))]
               | None => []
               end) elts).
Proof.
  induction 1 as [|elt rest Hres _ IH]; simpl; [reflexivity|].
  destruct (lookupVarDeclForCodingKeysCase sema elt targetDecl)
    as [[[vd ty] b]|] eqn:Hlook; [|contradiction].
  destruct (lookupVarDeclForCodingKeysCase_optional _ _ Hlook) as [-> _].
  rewrite IH. reflexivity.
Qed.

Lemma decodeMembers_resolved
    targetDecl codingKeysEnum containerExpr codingKeysType elts :
  Forall (fun elt =>
            lookupVarDeclForCodingKeysCase sema elt targetDecl <> None) elts ->
  decodeMembers sema targetDecl codingKeysEnum containerExpr codingKeysType
                elts
  = Some (flat_map
            (fun elt =>
               match lookupVarDeclForCodingKeysCase sema elt targetDecl with
               | Some (varDecl, _, _) =>
                   if isLet varDecl && isParentInitialized varDecl then []
                   else [decodeMemberStatement containerExpr codingKeysType
                           elt varDecl
                           (decodedType (memberType sema varDecl))
                           (isOptional (memberType sema varDecl))]
               | None => []
               end) elts,
          flat_map
            (fun elt =>
               match lookupVarDeclForCodingKeysCase sema elt targetDecl with
               | Some (varDecl, _, _) =>
                   if isLet varDecl && isParentInitialized varDecl then
                     willNotBeDecodedDiagnostics sema targetDecl
                                                 codingKeysEnum varDecl
                   else []
               | None => []
               end) elts).
Proof.
  induction 1 as [|elt rest Hres _ IH]; simpl; [reflexivity|].
  destruct (lookupVarDeclForCodingKeysCase sema elt targetDecl)
    as [[[vd ty] b]|] eqn:Hlook; [|contradiction].
  destruct (lookupVarDeclForCodingKeysCase_optional _ _ Hlook) as [-> ->].
  rewrite IH.
  destruct (isLet vd && isParentInitialized vd); reflexivity.
Qed.

Lemma deriveBodyEncodable_encode_resolved target codingKeysEnum :
  lookupEvaluatedCodingKeysEnum target Id_CodingKeys = Some codingKeysEnum ->
  keysResolve sema target codingKeysEnum ->
  deriveBodyEncodable_encode sema target
  = Some (encodePrelude sema (encodingContainerDecl codingKeysEnum)
                        codingKeysEnum
          ++ flat_map
               (fun elt =>
                  match lookupVarDeclForCodingKeysCase sema elt target with
                  | Some (varDecl, _, _) =>
                      [encodeMemberStatement containerRef
                         (enumDeclaredInterfaceType codingKeysEnum) elt
                         varDecl (isOptional (memberType sema varDecl))]
                  | None => []
                  end) (enumAllElements codingKeysEnum)
          ++ (if superclassConformsTo sema (asClassDecl target) Encodable
              then [superEncodeStatement containerRef] else [])).
Proof.
  intros Hkeys Hresolve. unfold deriveBodyEncodable_encode. rewrite Hkeys.
  change (DeclRefExpr
            (localName
               (createKeyedContainer KeyedEncodingContainer
                  (enumDeclaredInterfaceType codingKeysEnum) Var
                  Id_container)))
    with containerRef.
  rewrite (encodeMembers_resolved target containerRef
             (enumDeclaredInterfaceType codingKeysEnum) Hresolve).
  reflexivity.
Qed.

Lemma superInitResolves_statements target :
  superInitResolves sema target ->
  exists superStatements,
    match asClassDecl target with
    | Some classDecl =>
        match getSuperclassDecl classDecl with
        | Some superclassDecl =>
            if superclassConformsTo sema (Some classDecl) Decodable then
              Some [superInitFromStatement containerRef]
            else
              match superInitStatement superclassDecl with
              | Some statement => Some [statement]
              | None => None
              end
        | None => Some []
        end
    | None => Some []
    end = Some superStatements /\
    length superStatements <= 1 /\
    Forall isExprNode superStatements.
Proof.
  intros Hsuper. unfold superInitResolves in Hsuper.
  destruct (asClassDecl target) as [classDecl|];
    [|exists []; split; [reflexivity | split; [simpl; lia | constructor]]].
  destruct (getSuperclassDecl classDecl) as [superclassDecl|] eqn:Hdecl;
    [|exists []; split; [reflexivity | split; [simpl; lia | constructor]]].
  specialize (Hsuper classDecl superclassDecl eq_refl Hdecl).
  destruct (superclassConformsTo sema (Some classDecl) Decodable).
  - eexists. split; [reflexivity|]. split; [simpl; lia|].
    constructor; [exact I | constructor].
  - specialize (Hsuper eq_refl). unfold superInitStatement in *.
    destruct (filter _ (superclassConstructors superclassDecl))
      as [|superInitDecl others]; [contradiction|].
    destruct (isFailable superInitDecl); [contradiction|].
    eexists. split; [reflexivity|]. split; [simpl; lia|].
    constructor; [|constructor].
    destruct (hasThrows superInitDecl); exact I.
Qed.

Lemma deriveBodyDecodable_init_resolved target codingKeysEnum :
  lookupEvaluatedCodingKeysEnum target Id_CodingKeys = Some codingKeysEnum ->
  keysResolve sema target codingKeysEnum ->
  superInitResolves sema target ->
  exists superStatements,
    length superStatements <= 1 /\
    Forall isExprNode superStatements /\
    deriveBodyDecodable_init sema target
    = Some
        ((match enumAllElements codingKeysEnum with
          | [] => []
          | _ :: _ =>
              decodePrelude sema (decodingContainerDecl codingKeysEnum)
                            codingKeysEnum
              ++ flat_map
                   (fun elt =>
                      match lookupVarDeclForCodingKeysCase sema elt
                                                           target with
                      | Some (varDecl, _, _) =>
                          if isLet varDecl && isParentInitialized varDecl
                          then []
                          else [decodeMemberStatement containerRef
                                  (enumDeclaredInterfaceType codingKeysEnum)
                                  elt varDecl
                                  (decodedType (memberType sema varDecl))
                                  (isOptional (memberType sema varDecl))]
                      | None => []
                      end) (enumAllElements codingKeysEnum)
          end) ++ superStatements,
         flat_map
           (fun elt =>
              match lookupVarDeclForCodingKeysCase sema elt target with
              | Some (varDecl, _, _) =>
                  if isLet varDecl && isParentInitialized varDecl then
                    willNotBeDecodedDiagnostics sema target codingKeysEnum
                                                varDecl
                  else []
              | None => []
              end) (enumAllElements codingKeysEnum)).
Proof.
  intros Hkeys Hresolve Hsuper.
  destruct (superInitResolves_statements Hsuper)
    as (superStatements & Hcall & Hlength & Hexprs).
  exists superStatements. split; [exact Hlength|]. split; [exact Hexprs|].
  unfold deriveBodyDecodable_init. rewrite Hkeys.
  change (DeclRefExpr
            (localName
               (createKeyedContainer KeyedDecodingContainer
                  (enumDeclaredInterfaceType codingKeysEnum) Let
                  Id_container)))
    with containerRef.
  change (createKeyedContainer KeyedDecodingContainer
            (enumDeclaredInterfaceType codingKeysEnum) Let Id_container)
    with (decodingContainerDecl codingKeysEnum).
  rewrite Hcall.
  pose proof (decodeMembers_resolved target codingKeysEnum containerRef
                (enumDeclaredInterfaceType codingKeysEnum) Hresolve)
    as Hmembers.
  destruct (enumAllElements codingKeysEnum) as [|elt rest]; [reflexivity|].
  rewrite Hmembers. reflexivity.
Qed.

(** C6 (amended).  For a struct or class whose keys all have a property
    behind them, the member statements of the synthesized bodies are, key
    by key and in the order of the keys: in [encode(to:)],
    [try container.encodeIfPresent(self.<m>, forKey: CodingKeys.<key>)]
    when the type of the member is an optional and
    [try container.encode(...)] otherwise; in [init(from:)],
    [self.<m> = try container.decodeIfPresent(T.self, forKey:
    CodingKeys.<key>)] with [T] the object type of the optional, and
    [self.<m> = try container.decode(T.self, forKey: CodingKeys.<key>)]
    with [T] the type of the member otherwise, except that a member that
    is a [let] with an initial value has no statement in [init(from:)].
    The member is the one [lookupVarDeclForCodingKeysCase] finds.  Before
    the member statements come the statements that open the container and
    after them at most the call to the superclass. *)
Theorem if_present_variant_selection target codingKeysEnum :
  lookupEvaluatedCodingKeysEnum target Id_CodingKeys = Some codingKeysEnum ->
  keysResolve sema target codingKeysEnum ->
  let keyExpr elt :=
    MemberRefExpr (TypeExpr (NominalType (enumName codingKeysEnum)))
                  (getBaseIdentifier elt) in
  let call method arguments :=
    TryExpr
      (CallExpr
         (UnresolvedDotExpr (DeclRefExpr "container") (BaseIdentifier method)
                            (Some [emptyIdentifier; "forKey"]))
         arguments [emptyIdentifier; "forKey"]) in
  let encodeStatement elt varDecl :=
    ExprNode
      (call (if isOptional (memberType sema varDecl)
             then "encodeIfPresent" else "encode")
            [MemberRefExpr (DeclRefExpr "self") (getName varDecl);
             keyExpr elt]) in
  let decodeStatement elt varDecl :=
    ExprNode
      (AssignExpr
         (UnresolvedDotExpr (DeclRefExpr "self")
                            (BaseIdentifier (getName varDecl)) None)
         (call (if isOptional (memberType sema varDecl)
                then "decodeIfPresent" else "decode")
               [DotSelfExpr
                  (TypeExpr (decodedType (memberType sema varDecl)));
                keyExpr elt])) in
  (exists opening closing,
     length opening = 2 /\ length closing <= 1 /\
     deriveBodyEncodable_encode sema target
     = Some (opening
             ++ flat_map
                  (fun elt =>
                     match lookupVarDeclForCodingKeysCase sema elt
                                                          target with
                     | Some (varDecl, _, _) => [encodeStatement elt varDecl]
                     | None => []
                     end) (enumAllElements codingKeysEnum)
             ++ closing)) /\
  (superInitResolves sema target ->
   exists opening closing diags,
     length opening <= 2 /\ length closing <= 1 /\
     deriveBodyDecodable_init sema target
     = Some (opening
             ++ flat_map
                  (fun elt =>
                     match lookupVarDeclForCodingKeysCase sema elt
                                                          target with
                     | Some (varDecl, _, _) =>
                         if isLet varDecl && isParentInitialized varDecl
                         then []
                         else [decodeStatement elt varDecl]
                     | None => []
                     end) (enumAllElements codingKeysEnum)
             ++ closing,
             diags)).
Proof.
  intros Hkeys Hresolve keyExpr call encodeStatement decodeStatement.
  split.
  - exists (encodePrelude sema (encodingContainerDecl codingKeysEnum)
                          codingKeysEnum),
           (if superclassConformsTo sema (asClassDecl target) Encodable
            then [superEncodeStatement containerRef] else []).
    split; [reflexivity|]. split.
    + destruct (superclassConformsTo sema (asClassDecl target) Encodable);
        simpl; lia.
    + apply (deriveBodyEncodable_encode_resolved Hkeys Hresolve).
  - intros Hsuper.
    destruct (deriveBodyDecodable_init_resolved Hkeys Hresolve Hsuper)
      as (superStatements & Hlength & _ & Hbody).
    rewrite Hbody.
    destruct (enumAllElements codingKeysEnum) as [|elt rest] eqn:Helts.
    + exists [], superStatements. eexists.
      split; [simpl; lia|]. split; [exact Hlength | reflexivity].
    + exists (decodePrelude sema (decodingContainerDecl codingKeysEnum)
                            codingKeysEnum),
             superStatements.
      eexists. split; [simpl; lia|]. split; [exact Hlength|].
      rewrite <- app_assoc. reflexivity.
Qed.

(** C7.  The synthesized [encode(to:)] of a struct or class begins with
    [var container = encoder.container(keyedBy: CodingKeys.self)] and the
    declaration of [container], whatever the key enum holds; when the key
    enum has no cases the body consists of these two statements, followed
    by the call to [super] if the superclass is Encodable.  The synthesized
    [init(from:)] begins with
    [let container = try decoder.container(keyedBy: CodingKeys.self)] and
    the declaration of [container] when the key enum has cases; when it
    has none the body has no binding and no declaration: it holds at most
    the call to the initializer of the superclass.  The [init(from:)] of
    an enum whose key enum has no cases is empty.  The bodies of a struct
    or class are produced when every key has a property behind it and the
    initializer of the superclass is there. *)
Theorem container_prelude target codingKeysEnum :
  lookupEvaluatedCodingKeysEnum target Id_CodingKeys = Some codingKeysEnum ->
  let keysType := NominalType (enumName codingKeysEnum) in
  let containerCall coder :=
    CallExpr
      (UnresolvedDotExpr (DeclRefExpr coder) (BaseIdentifier "container")
                         (Some ["keyedBy"]))
      [DotSelfExpr (TypeExpr (mapTypeIntoContext sema keysType))]
      ["keyedBy"] in
  let encodingContainer :=
    {| localIntroducer := Var;
       localName := "container";
       localInterfaceType := KeyedEncodingContainer keysType;
       localIsSynthesized := true |} in
  let decodingContainer :=
    {| localIntroducer := Let;
       localName := "container";
       localInterfaceType := KeyedDecodingContainer keysType;
       localIsSynthesized := true |} in
  let encodeOpening :=
    [PatternBindingNode (NamedPattern encodingContainer)
                        (containerCall "encoder");
     VarDeclNode encodingContainer] in
  let decodeOpening :=
    [PatternBindingNode (NamedPattern decodingContainer)
                        (TryExpr (containerCall "decoder"));
     VarDeclNode decodingContainer] in
  let superEncode :=
    ExprNode
      (TryExpr
         (CallExpr
            (DotSyntaxCallExpr SuperRefExpr (DeclRefExpr "encode"))
            [DotSyntaxCallExpr (DeclRefExpr "container")
                               (UnresolvedDeclRefExpr "superEncoder")]
            ["to"])) in
  (keysResolve sema target codingKeysEnum ->
   exists rest,
     deriveBodyEncodable_encode sema target = Some (encodeOpening ++ rest)) /\
  (enumAllElements codingKeysEnum = [] ->
   deriveBodyEncodable_encode sema target
   = Some (encodeOpening
           ++ (if superclassConformsTo sema (asClassDecl target) Encodable
               then [superEncode] else []))) /\
  (enumAllElements codingKeysEnum <> [] ->
   keysResolve sema target codingKeysEnum ->
   superInitResolves sema target ->
   exists rest diags,
     deriveBodyDecodable_init sema target
     = Some (decodeOpening ++ rest, diags)) /\
  (enumAllElements codingKeysEnum = [] ->
   superInitResolves sema target ->
   exists superStatements,
     deriveBodyDecodable_init sema target = Some (superStatements, []) /\
     length superStatements <= 1 /\
     Forall isExprNode superStatements) /\
  (enumAllElements codingKeysEnum = [] ->
   deriveBodyDecodable_enum_init sema target = Some []).
Proof.
  intros Hkeys keysType containerCall encodingContainer decodingContainer
         encodeOpening decodeOpening superEncode.
  split; [|split; [|split; [|split]]].
  - intros Hresolve.
    rewrite (deriveBodyEncodable_encode_resolved Hkeys Hresolve).
    eexists. reflexivity.
  - intros Hnone. unfold deriveBodyEncodable_encode.
    rewrite Hkeys, Hnone. reflexivity.
  - intros Hsome Hresolve Hsuper.
    destruct (deriveBodyDecodable_init_resolved Hkeys Hresolve Hsuper)
      as (superStatements & _ & _ & Hbody).
    rewrite Hbody.
    destruct (enumAllElements codingKeysEnum) as [|elt rest];
      [contradiction|].
    eexists. eexists. unfold decodePrelude. simpl. reflexivity.
  - intros Hnone Hsuper.
    assert (Hresolve : keysResolve sema target codingKeysEnum)
      by (unfold keysResolve; rewrite Hnone; constructor).
    destruct (deriveBodyDecodable_init_resolved Hkeys Hresolve Hsuper)
      as (superStatements & Hlength & Hexprs & Hbody).
    rewrite Hbody, Hnone. exists superStatements.
    split; [reflexivity|]. split; [exact Hlength | exact Hexprs].
  - intros Hnone. unfold deriveBodyDecodable_enum_init, hasCases.
    rewrite Hkeys, Hnone. reflexivity.
Qed.

(** C1 (amended).  For a class whose superclass conforms to Decodable, the
    synthesized [init(from:)] ends with
    [try super.init(from: container.superDecoder())]: the call to the
    superclass is the last statement, after the prelude and the statements
    that decode the members.  In the same way the synthesized [encode(to:)]
    ends with [try super.encode(to: container.superEncoder())] when the
    superclass conforms to Encodable.  Both bodies are produced when every
    case of the key enum has a property behind it. *)
Theorem super_call_closes_body target codingKeysEnum :
  lookupEvaluatedCodingKeysEnum target Id_CodingKeys = Some codingKeysEnum ->
  keysResolve sema target codingKeysEnum ->
  (superclassConformsTo sema (asClassDecl target) Decodable = true ->
   exists members diags,
     decodeMembers sema target codingKeysEnum containerRef
                   (enumDeclaredInterfaceType codingKeysEnum)
                   (enumAllElements codingKeysEnum)
       = Some (members, diags) /\
     deriveBodyDecodable_init sema target
       = Some ((match enumAllElements codingKeysEnum with
                | [] => []
                | _ :: _ =>
                    decodePrelude sema (decodingContainerDecl codingKeysEnum)
                                  codingKeysEnum ++ members
                end) ++ [superInitFromStatement containerRef],
               diags)) /\
  (superclassConformsTo sema (asClassDecl target) Encodable = true ->
   exists members,
     encodeMembers sema target containerRef
                   (enumDeclaredInterfaceType codingKeysEnum)
                   (enumAllElements codingKeysEnum)
       = Some members /\
     deriveBodyEncodable_encode sema target
       = Some (encodePrelude sema (encodingContainerDecl codingKeysEnum)
                             codingKeysEnum
               ++ members ++ [superEncodeStatement containerRef])).
Proof.
  intros Hkeys Hresolve. split.
  - intros Hsuper.
    destruct (decodeMembers_total target codingKeysEnum containerRef
                (enumDeclaredInterfaceType codingKeysEnum) Hresolve)
      as (members & diags & Hmembers).
    unfold deriveBodyDecodable_init. rewrite Hkeys.
    unfold superclassConformsTo in Hsuper.
    destruct (asClassDecl target) as [classDecl|]; [|discriminate].
    destruct (getSuperclassDecl classDecl) as [superclassDecl|] eqn:Hdecl;
      [|discriminate].
    assert (Hconf : superclassConformsTo sema (Some classDecl) Decodable
                    = true)
      by (unfold superclassConformsTo; rewrite Hdecl; exact Hsuper).
    rewrite Hconf.
    destruct (enumAllElements codingKeysEnum) as [|e0 es] eqn:Helts.
    + simpl in Hmembers. inversion Hmembers; subst.
      exists [], []. split; reflexivity.
    + exists members, diags. split; [exact Hmembers|].
      change (DeclRefExpr
                (localName
                   (createKeyedContainer KeyedDecodingContainer
                      (enumDeclaredInterfaceType codingKeysEnum) Let
                      Id_container)))
        with containerRef.
      rewrite Hmembers. reflexivity.
  - intros Hsuper.
    destruct (encodeMembers_total target containerRef
                (enumDeclaredInterfaceType codingKeysEnum) Hresolve)
      as (members & Hmembers).
    exists members. split; [exact Hmembers|].
    unfold deriveBodyEncodable_encode. rewrite Hkeys.
    change (DeclRefExpr
              (localName
                 (createKeyedContainer KeyedEncodingContainer
                    (enumDeclaredInterfaceType codingKeysEnum) Var
                    Id_container)))
      with containerRef.
    rewrite Hmembers, Hsuper. reflexivity.
Qed.

(** ** The synthesized [init(from:)] of a tagged union *)

Lemma decodeCases_labels targetEnum codingKeysEnum containerExpr elts :
  forall cases,
  decodeCases sema targetEnum codingKeysEnum containerExpr elts = Some cases ->
  Forall (fun arm : CaseStmt => exists pattern, fst arm = CaseLabel pattern)
         cases.
Proof.
  induction elts as [|elt rest IH]; intros cases; simpl.
  - intros H. inversion H. constructor.
  - destruct (lookupEnumCase codingKeysEnum (getBaseIdentifier elt))
      as [codingKeyCase|]; [|apply IH].
    destruct (decodeCaseStatements sema targetEnum codingKeysEnum
                containerExpr elt codingKeyCase) as [caseStatements|];
      [|discriminate].
    destruct (decodeCases sema targetEnum codingKeysEnum containerExpr rest)
      as [others|]; [|discriminate].
    intros H. inversion H; subst. constructor.
    + eexists. reflexivity.
    + apply IH. reflexivity.
Qed.

(** C2.  What the code does in the default arm.  Whenever the synthesized
    [init(from:)] of a tagged union has a [switch], it is the last
    statement, it switches over [container.allKeys.first], and its last
    arm is the default arm, whose body is the one call [fatalError("foo")],
    on every input: the decoding error that the comment at the head of
    [deriveBodyDecodable_enum_init] sketches for this arm is not built.
    The arms before it are the arms of the cases. *)
Theorem default_arm_is_fatal_error target body :
  deriveBodyDecodable_enum_init sema target = Some body ->
  (forall codingKeysEnum,
     lookupEvaluatedCodingKeysEnum target Id_CodingKeys
       = Some codingKeysEnum ->
     hasCases codingKeysEnum = true ->
     exists cases,
       body = decodePrelude sema (decodingContainerDecl codingKeysEnum)
                            codingKeysEnum
              ++ [SwitchNode
                    (UnresolvedDotExpr
                       (UnresolvedDotExpr containerRef
                          (BaseIdentifier Id_allKeys) None)
                       (BaseIdentifier Id_first) None)
                    cases]) /\
  (forall subject cases,
     In (SwitchNode subject cases) body ->
     exists arms,
       cases = arms ++
               [(DefaultLabel AnyPattern,
                 [ExprNode (CallExpr (DeclRefExpr "fatalError")
                                     [StringLiteralExpr "foo"]
                                     [emptyIdentifier])])] /\
       Forall (fun arm : CaseStmt =>
                 exists pattern, fst arm = CaseLabel pattern) arms).
Proof.
  unfold deriveBodyDecodable_enum_init.
  destruct (lookupEvaluatedCodingKeysEnum target Id_CodingKeys)
    as [codingKeysEnum|]; [|discriminate].
  destruct (hasCases codingKeysEnum) eqn:Hcases.
  - destruct (decodeCases sema target codingKeysEnum _
                (getAllElements target)) as [arms|] eqn:Harms;
      [|discriminate].
    intros H. injection H as <-. split.
    + intros ck Hck _. injection Hck as <-. eexists. reflexivity.
    + intros subject cases Hin.
      destruct Hin as [Hin|[Hin|[Hin|[]]]]; try discriminate Hin.
      injection Hin as _ <-.
      exists arms. split; [reflexivity|].
      eapply decodeCases_labels, Harms.
  - intros H. injection H as <-. split.
    + intros ck Hck Hyes. injection Hck as <-. congruence.
    + intros subject cases [].
Qed.

(** ** Running [canSynthesize] again *)




Lemma validateCodingKeysProtocolConformance_found derived front e diags target
    rest :
  validateCodingKeysProtocolConformance sema derived front = (Some e, diags) ->
  lookupDirect Id_CodingKeys target = front :: rest ->
  lookupEvaluatedCodingKeysEnum target Id_CodingKeys = Some e.
Proof.
  intros Hconf Hlook. unfold lookupEvaluatedCodingKeysEnum. rewrite Hlook.
  unfold validateCodingKeysProtocolConformance in Hconf.
  destruct front as [v b|elt|e'|n ty [[e'|m]|]|n ty|n]; simpl in Hconf;
    try discriminate Hconf;
    destruct (negb (conformsToProtocol sema _ CodingKey));
    try discriminate Hconf; inversion Hconf; reflexivity.
Qed.



Lemma addStoredProperties_enumName derived vars : forall enumDecl allConform,
  enumName (snd (fst (addStoredProperties sema derived vars enumDecl
                                          allConform)))
  = enumName enumDecl.
Proof.
  induction vars as [|v rest IH]; intros enumDecl allConform; simpl.
  - reflexivity.
  - destruct (negb (isUserAccessible v)); [apply IH|].
    destruct (negb (conformsToProtocol sema _ (Protocol derived))).
    + specialize (IH enumDecl false).
      destruct (addStoredProperties sema derived rest enumDecl false)
        as [[ok e] d].
      exact IH.
    + rewrite IH. reflexivity.
Qed.


Lemma superclassInitFailure_enum derived requirement :
  isEnumDecl (Nominal derived) = true ->
  superclassInitFailure sema derived requirement = None.
Proof.
  unfold superclassInitFailure, isEnumDecl, asClassDecl.
  destruct (nominalKind (Nominal derived)); try discriminate. reflexivity.
Qed.

(** * Further properties *)

(** ** The names of the per-case key enums *)

(** X1.  For a fixed first identifier, [combineIdentifiers] is injective in
    the second one, and its result is never the first identifier itself:
    two cases with different names have different [CodingKeys_<case>]
    names, and none of them is [CodingKeys]. *)
Theorem combineIdentifiers_separates first a b :
  (combineIdentifiers first a = combineIdentifiers first b <-> a = b) /\
  combineIdentifiers first a <> first.
Proof.
  unfold combineIdentifiers. split; [split|].
  - induction first as [|c first IH]; simpl; intros H; injection H; auto.
  - intros ->. reflexivity.
  - induction first as [|c first IH]; simpl; [discriminate|].
    intros H. injection H. exact IH.
Qed.

(** ** Diagnostics and results *)

Lemma validateElements_diagnosed proto elts : forall properties,
  snd (fst (validateElements sema proto elts properties)) = true <->
  snd (validateElements sema proto elts properties) = [].
Proof.
  induction elts as [|elt rest IH]; intros properties; simpl.
  - split; reflexivity.
  - destruct (mapFind (getBaseIdentifier elt) properties) as [[k var]|].
    + destruct (negb (conformsToProtocol sema _ proto)).
      * destruct (validateElements sema proto rest properties) as [[p v] d].
        simpl. split; discriminate.
      * apply IH.
    + destruct (validateElements sema proto rest properties) as [[p v] d].
      simpl. split; discriminate.
Qed.

Lemma validateCodingKeysEnum_diagnosed derived codingKeysDecl :
  fst (validateCodingKeysEnum sema derived codingKeysDecl) = true <->
  snd (validateCodingKeysEnum sema derived codingKeysDecl) = [].
Proof.
  unfold validateCodingKeysEnum.
  pose proof (validateElements_diagnosed (Protocol derived)
                (enumAllElements codingKeysDecl)
                (collectProperties (getStoredProperties (Nominal derived))
                                   [])) as H.
  destruct (validateElements sema (Protocol derived)
              (enumAllElements codingKeysDecl)
              (collectProperties (getStoredProperties (Nominal derived)) []))
    as [[p v] d].
  simpl in H. destruct v; simpl.
  - assert (Hd : d = []) by (apply H; reflexivity). subst d.
    destruct (isSpecificProtocol (Protocol derived) Decodable); simpl;
      [|split; reflexivity].
    destruct (filter (fun entry => negb (hasDefaultValue (snd entry))) p);
      simpl; split; try reflexivity; discriminate.
  - split; [discriminate|]. intros Hd. apply H in Hd. discriminate Hd.
Qed.

Lemma validateCaseCodingKeysEnum_diagnosed derived elt codingKeysDecl :
  fst (validateCaseCodingKeysEnum sema derived elt codingKeysDecl) = true <->
  snd (validateCaseCodingKeysEnum sema derived elt codingKeysDecl) = [].
Proof.
  unfold validateCaseCodingKeysEnum.
  set (properties := match getParameterList elt with
                     | Some params => collectProperties params []
                     | None => []
                     end).
  pose proof (validateElements_diagnosed (Protocol derived)
                (enumAllElements codingKeysDecl) properties) as H.
  destruct (validateElements sema (Protocol derived)
              (enumAllElements codingKeysDecl) properties) as [[p v] d].
  simpl in H. destruct v; simpl.
  - assert (Hd : d = []) by (apply H; reflexivity). subst d.
    destruct (isSpecificProtocol (Protocol derived) Decodable); simpl;
      [|split; reflexivity].
    destruct (filter (fun entry => negb (hasDefaultExpr (snd entry))) p);
      simpl; split; try reflexivity; discriminate.
  - split; [discriminate|]. intros Hd. apply H in Hd. discriminate Hd.
Qed.

Lemma validateCodingKeysProtocolConformance_diagnosed derived decl :
  (exists e,
     validateCodingKeysProtocolConformance sema derived decl = (Some e, [])) \/
  (exists diag,
     validateCodingKeysProtocolConformance sema derived decl
     = (None, [diag])).
Proof.
  unfold validateCodingKeysProtocolConformance.
  destruct decl as [v b|elt|e|n ty [[e|m]|]|n ty|n]; simpl;
    try (right; eexists; reflexivity);
    destruct (negb (conformsToProtocol sema _ CodingKey));
    try (right; eexists; reflexivity);
    left; eexists; reflexivity.
Qed.

Lemma classifyCases_diagnosed derived elts : forall needsSynthesis,
  fst (classifyCases sema derived elts needsSynthesis) = Invalid <->
  snd (classifyCases sema derived elts needsSynthesis) <> [].
Proof.
  induction elts as [|elt rest IH]; intros needsSynthesis; simpl.
  - destruct needsSynthesis; simpl; split; try discriminate;
      intros H; contradiction.
  - destruct (lookupDirect (combineIdentifiers Id_CodingKeys
                              (getBaseIdentifier elt)) (Nominal derived))
      as [|front others]; [apply IH|].
    destruct (validateCodingKeysProtocolConformance_diagnosed derived front)
      as [(e & ->)|(diag & ->)].
    + pose proof (validateCaseCodingKeysEnum_diagnosed derived elt e) as Hc.
      destruct (validateCaseCodingKeysEnum sema derived elt e) as [ok d].
      simpl in Hc. destruct ok; simpl.
      * assert (Hd : d = []) by (apply Hc; reflexivity). subst d.
        specialize (IH needsSynthesis).
        destruct (classifyCases sema derived rest needsSynthesis) as [r d'].
        exact IH.
      * split; [|reflexivity]. intros _ Hd. apply Hc in Hd. discriminate Hd.
    + split; [discriminate | reflexivity].
Qed.

Lemma classifyCodingKeys_diagnosed derived :
  fst (classifyCodingKeys sema derived) = Invalid <->
  snd (classifyCodingKeys sema derived) <> [].
Proof.
  unfold classifyCodingKeys.
  destruct (lookupDirect Id_CodingKeys (Nominal derived)) as [|front rest].
  - destruct (isEnumDecl (Nominal derived)).
    + apply classifyCases_diagnosed.
    + simpl. split; [discriminate | intros H; contradiction].
  - destruct (validateCodingKeysProtocolConformance_diagnosed derived front)
      as [(e & ->)|(diag & ->)].
    + destruct (isEnumDecl (Nominal derived)).
      * pose proof (classifyCases_diagnosed derived
                      (getAllElements (Nominal derived)) false) as H.
        destruct (classifyCases sema derived
                    (getAllElements (Nominal derived)) false) as [r d].
        exact H.
      * pose proof (validateCodingKeysEnum_diagnosed derived e) as H.
        destruct (validateCodingKeysEnum sema derived e) as [ok d].
        simpl in *. destruct ok.
        -- assert (Hd : d = []) by (apply H; reflexivity). subst d.
           split; [discriminate | intros E; contradiction].
        -- split; [|reflexivity]. intros _ Hd. apply H in Hd.
           discriminate Hd.
    + simpl. split; [discriminate | reflexivity].
Qed.

(** X2.  The outcomes of [classifyCodingKeys].  It returns [Invalid]
    exactly when it has emitted a diagnostic: an invalid key enum is always
    explained, and a [Valid] or [NeedsSynthesizedCodingKeys] classification
    comes without any diagnostic.  For a struct or class it asks for
    synthesis exactly when the type has no member named [CodingKeys]: a
    member of that name, whatever it is, is either accepted or rejected,
    never replaced. *)
Theorem classifyCodingKeys_outcomes derived :
  (fst (classifyCodingKeys sema derived) = Invalid <->
   snd (classifyCodingKeys sema derived) <> []) /\
  (isEnumDecl (Nominal derived) = false ->
   (fst (classifyCodingKeys sema derived) = NeedsSynthesizedCodingKeys <->
    lookupDirect Id_CodingKeys (Nominal derived) = [])).
Proof.
  split.
  - unfold classifyCodingKeys.
    destruct (lookupDirect Id_CodingKeys (Nominal derived)) as [|front rest].
    + destruct (isEnumDecl (Nominal derived)).
      * apply classifyCases_diagnosed.
      * simpl. split; [discriminate | intros H; contradiction].
    + destruct (validateCodingKeysProtocolConformance_diagnosed derived
                  front) as [(e & ->)|(diag & ->)];
        [|simpl; split; [discriminate | reflexivity]].
      destruct (isEnumDecl (Nominal derived)).
      * pose proof (classifyCases_diagnosed derived
                      (getAllElements (Nominal derived)) false) as H.
        destruct (classifyCases sema derived
                    (getAllElements (Nominal derived)) false) as [r d].
        exact H.
      * pose proof (validateCodingKeysEnum_diagnosed derived e) as H.
        destruct (validateCodingKeysEnum sema derived e) as [ok d].
        simpl in *. destruct ok.
        -- assert (Hd : d = []) by (apply H; reflexivity). subst d.
           split; [discriminate | intros E; contradiction].
        -- split; [|reflexivity]. intros _ Hd. apply H in Hd.
           discriminate Hd.
  - intros Henum. unfold classifyCodingKeys. rewrite Henum.
    destruct (lookupDirect Id_CodingKeys (Nominal derived)) as [|front rest].
    + simpl. split; reflexivity.
    + destruct (validateCodingKeysProtocolConformance sema derived front)
        as [[codingKeysEnum|] diags]; simpl;
        [|split; discriminate].
      destruct (validateCodingKeysEnum sema derived codingKeysEnum)
        as [ok diags'].
      destruct ok; simpl; split; discriminate.
Qed.

Lemma add_diagnosed derived varDecl enumDecl :
  fst (fst (add sema derived varDecl enumDecl)) = true <->
  snd (add sema derived varDecl enumDecl) = [].
Proof.
  unfold add.
  destruct (negb (isUserAccessible varDecl)); [split; reflexivity|].
  destruct (negb (conformsToProtocol sema _ (Protocol derived))); simpl;
    split; try reflexivity; discriminate.
Qed.

Lemma addParams_diagnosed derived params : forall allConform nestedEnum,
  (allConform = false ->
   fst (fst (addParams sema derived params allConform nestedEnum)) = false /\
   snd (addParams sema derived params allConform nestedEnum) = []) /\
  (allConform = true ->
   (fst (fst (addParams sema derived params allConform nestedEnum)) = true <->
    snd (addParams sema derived params allConform nestedEnum) = [])).
Proof.
  induction params as [|p rest IH]; intros allConform nestedEnum; simpl.
  - split; intros ->; [split; reflexivity | split; reflexivity].
  - destruct allConform.
    + split; [discriminate|]. intros _.
      pose proof (add_diagnosed derived p nestedEnum) as Hadd.
      destruct (add sema derived p nestedEnum) as [[ok e] d].
      simpl in Hadd. destruct (IH ok e) as [IHf IHt].
      destruct (addParams sema derived rest ok e) as [[ok' e'] d'].
      simpl in *. destruct ok.
      * assert (Hd : d = []) by (apply Hadd; reflexivity). subst d.
        simpl. apply IHt. reflexivity.
      * destruct (IHf eq_refl) as [-> ->]. rewrite app_nil_r.
        split; [discriminate|]. intros Hd. apply Hadd in Hd. discriminate Hd.
    + split; [|discriminate]. intros _. apply IH. reflexivity.
Qed.

Lemma synthesizeCaseCodingKeys_diagnosed derived codingKeysEnum elements :
  forall target allConform,
  (allConform = false ->
   snd (fst (synthesizeCaseCodingKeys sema derived codingKeysEnum elements
               target allConform)) = false /\
   snd (synthesizeCaseCodingKeys sema derived codingKeysEnum elements
          target allConform) = []) /\
  (allConform = true ->
   (snd (fst (synthesizeCaseCodingKeys sema derived codingKeysEnum elements
                target allConform)) = true <->
    snd (synthesizeCaseCodingKeys sema derived codingKeysEnum elements
           target allConform) = [])).
Proof.
  induction elements as [|elementDecl rest IH]; intros target allConform;
    simpl.
  - split; intros ->; split; reflexivity.
  - destruct (lookupEnumCase codingKeysEnum (getBaseIdentifier elementDecl));
      [|apply IH].
    destruct (lookupDirect _ target); [|apply IH].
    destruct (hasAnyUnnamedParameters elementDecl); [apply IH|].
    set (nested := match getParameterList elementDecl with
                   | Some elementParams =>
                       addParams sema derived elementParams allConform _
                   | None => (allConform, _, [])
                   end).
    assert (Hnested :
              (allConform = false ->
               fst (fst nested) = false /\ snd nested = []) /\
              (allConform = true ->
               (fst (fst nested) = true <-> snd nested = []))).
    { unfold nested. destruct (getParameterList elementDecl) as [ps|].
      - apply addParams_diagnosed.
      - simpl. split; intros ->; split; reflexivity. }
    destruct nested as [[allConform' nestedEnum'] diags]. simpl in Hnested.
    destruct (IH (addMember (EnumMember nestedEnum') target) allConform')
      as [IHf IHt].
    destruct (synthesizeCaseCodingKeys sema derived codingKeysEnum rest
                (addMember (EnumMember nestedEnum') target) allConform')
      as [[target' allConform''] diags'].
    simpl in *. destruct Hnested as [Hf Ht]. split.
    + intros ->. destruct (Hf eq_refl) as [-> ->].
      destruct (IHf eq_refl) as [-> ->]. split; reflexivity.
    + intros ->. specialize (Ht eq_refl). destruct allConform'.
      * assert (Hd : diags = []) by (apply Ht; reflexivity). subst diags.
        simpl. apply IHt. reflexivity.
      * destruct (IHf eq_refl) as [-> ->]. rewrite app_nil_r.
        split; [discriminate|]. intros Hd. apply Ht in Hd. discriminate Hd.
Qed.

Lemma addStoredProperties_diagnosed derived vars : forall enumDecl allConform,
  (allConform = true ->
   (fst (fst (addStoredProperties sema derived vars enumDecl allConform))
    = true <->
    snd (addStoredProperties sema derived vars enumDecl allConform) = [])) /\
  (allConform = false ->
   fst (fst (addStoredProperties sema derived vars enumDecl allConform))
   = false).
Proof.
  induction vars as [|v rest IH]; intros enumDecl allConform; simpl.
  - split; intros ->; [split|]; reflexivity.
  - destruct (negb (isUserAccessible v)); [apply IH|].
    destruct (negb (conformsToProtocol sema _ (Protocol derived))).
    + destruct (IH enumDecl false) as [_ IHf].
      destruct (addStoredProperties sema derived rest enumDecl false)
        as [[ok e] d].
      simpl in *. rewrite (IHf eq_refl).
      split; intros _; [split; discriminate | reflexivity].
    + apply IH.
Qed.

Lemma synthesizeCodingKeysEnum_diagnosed derived :
  fst (fst (synthesizeCodingKeysEnum sema derived)) = true <->
  snd (synthesizeCodingKeysEnum sema derived) = [].
Proof.
  unfold synthesizeCodingKeysEnum.
  destruct (isEnumDecl (Nominal derived)).
  - unfold synthesizeCodingKeysEnum_enum.
    destruct (match lookupEvaluatedCodingKeysEnum (Nominal derived)
                      Id_CodingKeys with
              | Some codingKeysEnum => (codingKeysEnum, Nominal derived)
              | None => _
              end) as [codingKeysEnum target1].
    destruct (synthesizeCaseCodingKeys_diagnosed derived codingKeysEnum
                (getAllElements (Nominal derived)) target1 true) as [_ H].
    destruct (synthesizeCaseCodingKeys sema derived codingKeysEnum
                (getAllElements (Nominal derived)) target1 true)
      as [[t ac] d].
    apply H. reflexivity.
  - match goal with
    | |- context [addStoredProperties sema derived ?v ?e true] =>
        destruct (addStoredProperties_diagnosed derived v e true) as [H _];
        destruct (addStoredProperties sema derived v e true) as [[ok e'] d]
    end.
    specialize (H eq_refl). simpl in H. destruct ok; exact H.
Qed.

Lemma synthesizeCodingKeysEnum_failure derived :
  isEnumDecl (Nominal derived) = false ->
  fst (fst (synthesizeCodingKeysEnum sema derived)) = false ->
  snd (fst (synthesizeCodingKeysEnum sema derived)) = Nominal derived.
Proof.
  unfold synthesizeCodingKeysEnum. intros ->.
  match goal with
  | |- context [addStoredProperties sema derived ?v ?e true] =>
      destruct (addStoredProperties sema derived v e true) as [[ok e'] d]
  end.
  destruct ok; simpl; [discriminate | reflexivity].
Qed.

(** X3.  What [canSynthesize] reports.  When it returns true it has emitted
    no diagnostic.  When it returns false for a struct or class, the target
    is unchanged: no partial key enum is installed.  And a failure is
    always explained by a diagnostic, with one exception: the lookup of the
    superclass initializer had more than one result. *)
Theorem canSynthesize_reports derived requirement ok target diags :
  canSynthesize sema derived requirement = (ok, target, diags) ->
  (ok = true -> diags = []) /\
  (ok = false -> isEnumDecl (Nominal derived) = false ->
   target = Nominal derived) /\
  (ok = false -> diags = [] ->
   exists classDecl superclassDecl first second others,
     asClassDecl (Nominal derived) = Some classDecl /\
     getSuperclassDecl classDecl = Some superclassDecl /\
     lookupMember sema superclassDecl
       (if conformsToProtocol sema
             (superclassDeclaredInterfaceType superclassDecl)
             (Protocol derived)
        then requirement else initNoArguments)
     = first :: second :: others).
Proof.
  unfold canSynthesize.
  destruct (superclassInitFailure sema derived requirement) as [ds|] eqn:Hpre.
  - intros H. injection H as <- <- <-.
    split; [discriminate|]. split; [reflexivity|].
    intros _ ->. unfold superclassInitFailure in Hpre.
    destruct (asClassDecl (Nominal derived)) as [classDecl|];
      [|discriminate].
    destruct (isSpecificProtocol (Protocol derived) Decodable);
      [|discriminate].
    destruct (getSuperclassDecl classDecl) as [superclassDecl|] eqn:Hsuper;
      [|discriminate].
    exists classDecl, superclassDecl.
    destruct (lookupMember sema superclassDecl _)
      as [|first [|second others]] eqn:Hres; [discriminate| |].
    + destruct (negb (isDesignatedInit first)); [discriminate|].
      destruct (negb (isAccessibleFrom first)); [discriminate|].
      destruct (isFailable first); discriminate.
    + exists first, second, others.
      split; [reflexivity|]. split; [exact Hsuper | reflexivity].
  - pose proof (classifyCodingKeys_diagnosed derived) as Hclass.
    destruct (classifyCodingKeys sema derived) as [c d]. simpl in Hclass.
    destruct c.
    + intros H. injection H as <- <- <-.
      split; [discriminate|]. split; [reflexivity|].
      intros _ ->. exfalso. apply Hclass; reflexivity.
    + assert (Hd : d = []).
      { destruct d as [|x xs]; [reflexivity|].
        assert (E : NeedsSynthesizedCodingKeys = Invalid)
          by (apply Hclass; discriminate).
        discriminate E. }
      subst d.
      pose proof (synthesizeCodingKeysEnum_diagnosed derived) as Hsyn.
      pose proof (synthesizeCodingKeysEnum_failure derived) as Hfail.
      destruct (synthesizeCodingKeysEnum sema derived) as [[ok' t'] d'].
      simpl in *. intros H. injection H as <- <- <-.
      split; [intros ->; apply Hsyn; reflexivity|].
      split; [intros -> Henum; apply Hfail; [exact Henum | reflexivity]|].
      intros -> Hd. apply Hsyn in Hd. discriminate Hd.
    + assert (Hd : d = []).
      { destruct d as [|x xs]; [reflexivity|].
        assert (E : Valid = Invalid) by (apply Hclass; discriminate).
        discriminate E. }
      subst d. intros H. injection H as <- <- <-.
      split; [reflexivity|]. split; discriminate.
Qed.

(** ** Synthesis of [CodingKeys] for a struct or class *)

Lemma enumAddMember_cases e names name :
  enumAddMember (implicitElement name)
    {| enumName := enumName e;
       enumMembers := enumMembers e
                      ++ map (fun c => CaseMember (implicitElement c)) names;
       enumIsImplicit := enumIsImplicit e;
       enumIsSynthesized := enumIsSynthesized e;
       enumAccess := enumAccess e;
       enumInherited := enumInherited e |}
  = {| enumName := enumName e;
       enumMembers := enumMembers e
                      ++ map (fun c => CaseMember (implicitElement c))
                             (names ++ [name]);
       enumIsImplicit := enumIsImplicit e;
       enumIsSynthesized := enumIsSynthesized e;
       enumAccess := enumAccess e;
       enumInherited := enumInherited e |}.
Proof.
  unfold enumAddMember. simpl. rewrite map_app, app_assoc. reflexivity.
Qed.

Lemma addStoredProperties_conforming derived vars : forall e names,
  forallb (conformsToDerived sema derived) (filter isUserAccessible vars)
    = true ->
  addStoredProperties sema derived vars
    {| enumName := enumName e;
       enumMembers := enumMembers e
                      ++ map (fun c => CaseMember (implicitElement c)) names;
       enumIsImplicit := enumIsImplicit e;
       enumIsSynthesized := enumIsSynthesized e;
       enumAccess := enumAccess e;
       enumInherited := enumInherited e |}
    true
  = (true,
     {| enumName := enumName e;
        enumMembers :=
          enumMembers e
          ++ map (fun c => CaseMember (implicitElement c))
                 (names ++ map getVarNameForCoding
                               (filter isUserAccessible vars));
        enumIsImplicit := enumIsImplicit e;
        enumIsSynthesized := enumIsSynthesized e;
        enumAccess := enumAccess e;
        enumInherited := enumInherited e |},
     []).
Proof.
  induction vars as [|v rest IH]; intros e names; simpl.
  - intros _. rewrite app_nil_r. reflexivity.
  - destruct (isUserAccessible v); simpl; [|apply IH].
    change (conformsToProtocol sema
              (mapTypeIntoContext sema (getValueInterfaceType v))
              (Protocol derived))
      with (conformsToDerived sema derived v).
    destruct (conformsToDerived sema derived v); simpl; [|discriminate].
    intros Hrest. rewrite enumAddMember_cases, (IH e _ Hrest).
    rewrite <- app_assoc. reflexivity.
Qed.

Lemma addStoredProperties_diagnostics derived vars : forall e allConform,
  snd (addStoredProperties sema derived vars e allConform)
  = map (fun v => codable_non_conforming_property_here (Protocol derived)
                    (getName v) (getType sema v))
        (filter (fun v => negb (conformsToDerived sema derived v))
                (filter isUserAccessible vars)) /\
  fst (fst (addStoredProperties sema derived vars e allConform))
  = allConform
    && forallb (conformsToDerived sema derived)
               (filter isUserAccessible vars).
Proof.
  induction vars as [|v rest IH]; intros e allConform; simpl.
  - rewrite andb_true_r. split; reflexivity.
  - destruct (isUserAccessible v); simpl; [|apply IH].
    change (conformsToProtocol sema
              (mapTypeIntoContext sema (getValueInterfaceType v))
              (Protocol derived))
      with (conformsToDerived sema derived v).
    destruct (conformsToDerived sema derived v); simpl.
    + apply IH.
    + destruct (IH e false) as [IHd IHok].
      destruct (addStoredProperties sema derived rest e false)
        as [[ok e'] d].
      simpl in *. rewrite IHd, IHok, andb_false_r. split; reflexivity.
Qed.

Lemma synthesizeCodingKeysEnum_success derived :
  isEnumDecl (Nominal derived) = false ->
  forallb (conformsToDerived sema derived) (accessibleProperties derived)
    = true ->
  synthesizeCodingKeysEnum sema derived
  = (true,
     addMember
       (EnumMember (implicitKeyEnum Id_CodingKeys true
                      (synthesizedCaseNames sema derived)))
       (Nominal derived),
     []).
Proof.
  intros Henum Hall. unfold synthesizeCodingKeysEnum. rewrite Henum.
  unfold synthesizedCaseNames, accessibleProperties, hasCodableSuperclass
    in *.
  destruct (superclassConformsTo sema (asClassDecl (Nominal derived))
                                 Encodable
            || superclassConformsTo sema (asClassDecl (Nominal derived))
                                    Decodable).
  - pose proof (@addStoredProperties_conforming derived
                  (getStoredProperties (Nominal derived))
                  (newCodingKeysEnum Id_CodingKeys true) [Id_super] Hall)
      as H.
    simpl in H. unfold enumAddMember, newCodingKeysEnum. simpl.
    rewrite H. reflexivity.
  - pose proof (@addStoredProperties_conforming derived
                  (getStoredProperties (Nominal derived))
                  (newCodingKeysEnum Id_CodingKeys true) [] Hall) as H.
    simpl in H. unfold newCodingKeysEnum. rewrite H. reflexivity.
Qed.

(** X4.  [synthesizeCodingKeysEnum] on a struct or class is all or nothing.
    When the type of every accessible stored property conforms, it adds to
    the target one implicit, private enum [CodingKeys] whose cases are
    [super] (for a class with a Codable superclass) followed by the coding
    names of the accessible stored properties, in their order, and it emits
    nothing.  Otherwise it leaves the target as it is and emits one
    "non-conforming property" diagnostic per offending property, in their
    order. *)
Theorem synthesizeCodingKeysEnum_all_or_nothing derived :
  isEnumDecl (Nominal derived) = false ->
  synthesizeCodingKeysEnum sema derived
  = if forallb (conformsToDerived sema derived)
               (accessibleProperties derived)
    then (true,
          addMember
            (EnumMember (implicitKeyEnum Id_CodingKeys true
                           (synthesizedCaseNames sema derived)))
            (Nominal derived),
          [])
    else (false, Nominal derived,
          map (fun v => codable_non_conforming_property_here
                          (Protocol derived) (getName v)
                          (getType sema v))
              (filter (fun v => negb (conformsToDerived sema derived v))
                      (accessibleProperties derived))).
Proof.
  intros Henum.
  destruct (forallb (conformsToDerived sema derived)
              (accessibleProperties derived)) eqn:Hall.
  - apply synthesizeCodingKeysEnum_success; assumption.
  - unfold synthesizeCodingKeysEnum, accessibleProperties in *.
    rewrite Henum.
    match goal with
    | |- context [addStoredProperties sema derived ?v ?e true] =>
        destruct (addStoredProperties_diagnostics derived v e true)
          as [Hd Hok];
        destruct (addStoredProperties sema derived v e true) as [[ok e'] d]
    end.
    simpl in *. rewrite Hall in Hok. subst ok d. reflexivity.
Qed.

Lemma mapAssign_fresh key var (m : PropertyMap) :
  ~ In key (map fst m) -> mapAssign key var m = m ++ [(key, var)].
Proof.
  induction m as [|[k v] rest IH]; simpl; intros Hnot; [reflexivity|].
  destruct (String.eqb_spec k key) as [E|_].
  - exfalso. apply Hnot. left. exact E.
  - rewrite IH; [reflexivity|]. intros H. apply Hnot. right. exact H.
Qed.

Lemma mapErase_fresh key (m : PropertyMap) :
  ~ In key (map fst m) -> mapErase key m = m.
Proof.
  induction m as [|[k v] rest IH]; simpl; intros Hnot; [reflexivity|].
  destruct (String.eqb_spec k key) as [E|_]; simpl.
  - exfalso. apply Hnot. left. exact E.
  - rewrite IH; [reflexivity|]. intros H. apply Hnot. right. exact H.
Qed.

Lemma mapFind_fresh key (m : PropertyMap) :
  ~ In key (map fst m) -> mapFind key m = None.
Proof.
  induction m as [|[k v] rest IH]; simpl; intros Hnot; [reflexivity|].
  destruct (String.eqb_spec k key) as [E|_]; simpl.
  - exfalso. apply Hnot. left. exact E.
  - apply IH. intros H. apply Hnot. right. exact H.
Qed.

(** With distinct coding names, the property map holds the accessible
    variables in their order. *)
Lemma collectProperties_distinct vars : forall properties,
  NoDup (map fst properties
         ++ map getVarNameForCoding (filter isUserAccessible vars)) ->
  collectProperties vars properties
  = properties
    ++ map (fun v => (getVarNameForCoding v, v))
           (filter isUserAccessible vars).
Proof.
  induction vars as [|v rest IH]; intros properties; simpl.
  - intros _. rewrite app_nil_r. reflexivity.
  - destruct (isUserAccessible v); simpl; intros Hnodup;
      [|apply IH, Hnodup].
    assert (Hfresh : ~ In (getVarNameForCoding v) (map fst properties)).
    { intros Hin. apply NoDup_remove_2 in Hnodup. apply Hnodup.
      apply in_or_app. left. exact Hin. }
    rewrite mapAssign_fresh by exact Hfresh. rewrite IH.
    + rewrite <- app_assoc. reflexivity.
    + rewrite map_app. simpl. rewrite <- app_assoc. simpl.
      apply NoDup_remove_1 in Hnodup as Hrest.
      apply NoDup_remove_2 in Hnodup.
      clear - Hnodup Hrest.
      induction (map fst properties) as [|k ks IHk]; simpl in *.
      * constructor; assumption.
      * inversion Hrest; subst. constructor.
        -- intros Hin. apply in_app_or in Hin.
           destruct Hin as [Hin|[Hin|Hin]].
           ++ apply H1. apply in_or_app. left. exact Hin.
           ++ apply Hnodup. left. symmetry. exact Hin.
           ++ apply H1. apply in_or_app. right. exact Hin.
        -- apply IHk; [|assumption].
           intros Hin. apply Hnodup. right. exact Hin.
Qed.

(** The validator accepts the key enum made of the coding names of the
    variables of the map, and leaves no variable over. *)
Lemma validateElements_own_keys derived vars :
  NoDup (map getVarNameForCoding vars) ->
  forallb (conformsToDerived sema derived) vars = true ->
  validateElements sema (Protocol derived)
    (map (fun v => implicitElement (getVarNameForCoding v)) vars)
    (map (fun v => (getVarNameForCoding v, v)) vars)
  = ([], true, []).
Proof.
  induction vars as [|v rest IH]; simpl; intros Hnodup Hall;
    [reflexivity|].
  rewrite String.eqb_refl. simpl.
  apply andb_true_iff in Hall. destruct Hall as [Hv Hrest].
  unfold conformsToDerived in Hv. rewrite Hv. simpl.
  inversion Hnodup as [|? ? Hfresh Hnodup']; subst.
  rewrite mapErase_fresh.
  - apply IH; assumption.
  - rewrite map_map. simpl. exact Hfresh.
Qed.

(** X5.  The key enum that [synthesizeCodingKeysEnum] installs on a struct,
    or on a class without Codable superclass, is accepted by the
    classification that follows: a target without [CodingKeys], whose
    accessible stored properties have distinct coding names and types that
    conform, is classified [Valid] after synthesis, without diagnostics.
    The synthesized enum is taken to conform to [CodingKey], which the
    conformance checker is asked to derive. *)
Theorem synthesized_keys_are_valid derived :
  isEnumDecl (Nominal derived) = false ->
  lookupDirect Id_CodingKeys (Nominal derived) = [] ->
  hasCodableSuperclass sema (Nominal derived) = false ->
  NoDup (map getVarNameForCoding (accessibleProperties derived)) ->
  forallb (conformsToDerived sema derived) (accessibleProperties derived)
    = true ->
  conformsToProtocol sema (NominalType Id_CodingKeys) CodingKey = true ->
  fst (fst (synthesizeCodingKeysEnum sema derived)) = true /\
  classifyCodingKeys sema
    (withNominal derived (snd (fst (synthesizeCodingKeysEnum sema derived))))
  = (Valid, []).
Proof.
  intros Henum Hnone Hsuper Hnodup Hall Hkey.
  rewrite (synthesizeCodingKeysEnum_success derived Henum Hall).
  split; [reflexivity|]. simpl fst. simpl snd.
  unfold synthesizedCaseNames. rewrite Hsuper. simpl app.
  set (E := implicitKeyEnum Id_CodingKeys true
              (map getVarNameForCoding (accessibleProperties derived))).
  unfold classifyCodingKeys. simpl Nominal.
  rewrite (lookupDirect_extends Id_CodingKeys
             (extendsWith_addMember (EnumMember E) (Nominal derived))).
  rewrite Hnone. simpl.
  change (enumDeclaredInterfaceType E) with (NominalType Id_CodingKeys).
  rewrite Hkey. simpl.
  change (isEnumDecl (addMember (EnumMember E) (Nominal derived)))
    with (isEnumDecl (Nominal derived)).
  rewrite Henum.
  unfold validateCodingKeysEnum. simpl Nominal. simpl Protocol.
  change (getStoredProperties (addMember (EnumMember E) (Nominal derived)))
    with (getStoredProperties (Nominal derived)).
  rewrite (collectProperties_distinct
             (getStoredProperties (Nominal derived)) []);
    [|exact Hnodup].
  simpl app.
  assert (Hcases :
            enumAllElements E
            = map (fun v => implicitElement (getVarNameForCoding v))
                  (accessibleProperties derived)).
  { unfold E, enumAllElements, implicitKeyEnum. simpl.
    clear. induction (accessibleProperties derived) as [|v vs IH];
      simpl; [reflexivity|]. rewrite IH. reflexivity. }
  rewrite Hcases.
  change (filter isUserAccessible (getStoredProperties (Nominal derived)))
    with (accessibleProperties derived).
  pose proof (@validateElements_own_keys derived
                (accessibleProperties derived) Hnodup Hall) as Hvalid.
  simpl Protocol in Hvalid. rewrite Hvalid. simpl.
  destruct (isSpecificProtocol (Protocol derived) Decodable); reflexivity.
Qed.

Lemma mapAssign_keys key var (m : PropertyMap) k :
  In k (map fst (mapAssign key var m)) -> k = key \/ In k (map fst m).
Proof.
  induction m as [|[k0 v0] rest IH]; simpl.
  - intros [H|[]]. left. symmetry. exact H.
  - destruct (String.eqb k0 key); simpl.
    + intros [H|H]; right; [left|right]; assumption.
    + intros [H|H]; [right; left; exact H|].
      destruct (IH H) as [E|E]; [left | right; right]; assumption.
Qed.

Lemma collectProperties_keys vars k : forall properties,
  In k (map fst (collectProperties vars properties)) ->
  In k (map fst properties) \/
  In k (map getVarNameForCoding (filter isUserAccessible vars)).
Proof.
  induction vars as [|v rest IH]; intros properties; simpl.
  - intros H. left. exact H.
  - destruct (isUserAccessible v); simpl; [|apply IH].
    intros H. destruct (IH _ H) as [H'|H'].
    + destruct (mapAssign_keys _ _ _ _ H') as [E|E].
      * right. left. symmetry. exact E.
      * left. exact E.
    + right. right. exact H'.
Qed.

Lemma hasCodableSuperclass_class target :
  hasCodableSuperclass sema target = true -> isEnumDecl target = false.
Proof.
  unfold hasCodableSuperclass, superclassConformsTo, asClassDecl, isEnumDecl.
  destruct (nominalKind target); try reflexivity. discriminate.
Qed.

(** X6.  The case [super] that [synthesizeCodingKeysEnum] puts first in the
    key enum of a class with a Codable superclass is handled like the key
    of a property by everything that reads the enum afterwards.  With no
    non-static property named [super] in the class, both body synthesizers
    reach the [llvm_unreachable] of [lookupVarDeclForCodingKeysCase], and a
    later classification of the target rejects the enum with an
    "extraneous coding key" diagnostic for [super]. *)
Theorem super_key_has_no_property derived :
  hasCodableSuperclass sema (Nominal derived) = true ->
  lookupDirect Id_CodingKeys (Nominal derived) = [] ->
  forallb (conformsToDerived sema derived) (accessibleProperties derived)
    = true ->
  findVarDecl sema (lookupDirect Id_super (Nominal derived)) = None ->
  fst (fst (synthesizeCodingKeysEnum sema derived)) = true /\
  deriveBodyEncodable_encode sema
    (snd (fst (synthesizeCodingKeysEnum sema derived))) = None /\
  deriveBodyDecodable_init sema
    (snd (fst (synthesizeCodingKeysEnum sema derived))) = None /\
  (~ In Id_super (map getVarNameForCoding (accessibleProperties derived)) ->
   conformsToProtocol sema (NominalType Id_CodingKeys) CodingKey = true ->
   fst (classifyCodingKeys sema
          (withNominal derived
             (snd (fst (synthesizeCodingKeysEnum sema derived)))))
   = Invalid /\
   In (codable_extraneous_codingkey_case_here Id_super)
      (snd (classifyCodingKeys sema
              (withNominal derived
                 (snd (fst (synthesizeCodingKeysEnum sema derived))))))).
Proof.
  intros Hsuper Hnone Hall Hprop.
  pose proof (hasCodableSuperclass_class _ Hsuper) as Henum.
  rewrite (synthesizeCodingKeysEnum_success derived Henum Hall).
  simpl fst. simpl snd.
  unfold synthesizedCaseNames. rewrite Hsuper. simpl app.
  set (names := map getVarNameForCoding (accessibleProperties derived)).
  set (E := implicitKeyEnum Id_CodingKeys true (Id_super :: names)).
  set (target' := addMember (EnumMember E) (Nominal derived)).
  assert (Hext : extendsWith (Nominal derived) target' [EnumMember E])
    by apply extendsWith_addMember.
  assert (Hkeys : lookupDirect Id_CodingKeys target' = [EnumMember E]).
  { rewrite (lookupDirect_extends Id_CodingKeys Hext), Hnone. reflexivity. }
  assert (Hfound : lookupEvaluatedCodingKeysEnum target' Id_CodingKeys
                   = Some E).
  { unfold lookupEvaluatedCodingKeysEnum. rewrite Hkeys. reflexivity. }
  assert (Hlook : lookupVarDeclForCodingKeysCase sema
                    (implicitElement Id_super) target' = None).
  { unfold lookupVarDeclForCodingKeysCase.
    rewrite (lookupDirect_extends _ Hext). simpl.
    rewrite app_nil_r. exact Hprop. }
  split; [reflexivity|]. split; [|split].
  - unfold deriveBodyEncodable_encode. rewrite Hfound.
    unfold E, enumAllElements, implicitKeyEnum. simpl.
    fold target'. rewrite Hlook. reflexivity.
  - unfold deriveBodyDecodable_init. rewrite Hfound.
    unfold E, enumAllElements, implicitKeyEnum. simpl.
    fold target'. rewrite Hlook.
    destruct (asClassDecl target') as [classDecl|]; [|reflexivity].
    destruct (getSuperclassDecl classDecl) as [superclassDecl|];
      [|reflexivity].
    destruct (superclassConformsTo sema (Some classDecl) Decodable);
      [reflexivity|].
    destruct (superInitStatement superclassDecl); reflexivity.
  - intros Hfresh Hconf.
    unfold classifyCodingKeys. simpl Nominal. rewrite Hkeys. simpl.
    change (enumDeclaredInterfaceType E) with (NominalType Id_CodingKeys).
    rewrite Hconf. simpl.
    change (isEnumDecl target') with (isEnumDecl (Nominal derived)).
    rewrite Henum.
    unfold validateCodingKeysEnum. simpl Nominal. simpl Protocol.
    change (getStoredProperties target')
      with (getStoredProperties (Nominal derived)).
    unfold E, enumAllElements, implicitKeyEnum. simpl.
    rewrite mapFind_fresh.
    + destruct (validateElements sema (Protocol derived) _ _)
        as [[p v] d].
      simpl. split; [reflexivity | left; reflexivity].
    + intros Hin. apply collectProperties_keys in Hin.
      destruct Hin as [[]|Hin]. apply Hfresh. exact Hin.
Qed.

(** ** Validated per-case key enums and the decoding of a case *)

Lemma lookupEnumCase_name e identifier key :
  lookupEnumCase e identifier = Some key ->
  getBaseIdentifier key = identifier.
Proof.
  unfold lookupEnumCase.
  destruct (filter (fun m => String.eqb (enumMemberName m) identifier)
                   (enumMembers e)) as [|m ms] eqn:Hfilter; [discriminate|].
  assert (Hin : In m (filter (fun m => String.eqb (enumMemberName m)
                                          identifier) (enumMembers e)))
    by (rewrite Hfilter; left; reflexivity).
  apply filter_In in Hin. destruct Hin as [_ Hname].
  apply String.eqb_eq in Hname.
  destruct m as [elt|name]; [|discriminate].
  intros H. injection H as <-. exact Hname.
Qed.

Lemma caseNames_members ms name :
  In name (map getBaseIdentifier (casesOf ms)) ->
  In name (map enumMemberName ms).
Proof.
  induction ms as [|[elt|n] rest IH]; simpl; [intros []| |].
  - intros [H|H]; [left; exact H | right; apply IH, H].
  - intros H. right. apply IH, H.
Qed.

Lemma lookupEnumCase_listed e name :
  NoDup (map enumMemberName (enumMembers e)) ->
  In name (caseNames e) ->
  lookupEnumCase e name <> None.
Proof.
  unfold lookupEnumCase, caseNames, enumAllElements.
  induction (enumMembers e) as [|m rest IH]; simpl; [intros _ []|].
  intros Hnodup Hin. inversion Hnodup as [|? ? Hfresh Hrest]; subst.
  destruct m as [elt|n]; simpl in *.
  - destruct (String.eqb_spec (getBaseIdentifier elt) name) as [E|Hne].
    + discriminate.
    + destruct Hin as [Hin|Hin]; [contradiction|]. apply IH; assumption.
  - destruct (String.eqb_spec n name) as [E|Hne].
    + exfalso. subst n. apply Hfresh. apply caseNames_members, Hin.
    + apply IH; assumption.
Qed.

Lemma decodeKeyedParams_total nestedContainerDecl caseCodingKeys params :
  (forall p, In p params ->
     lookupEnumCase caseCodingKeys (getName p) = None ->
     hasDefaultExpr p = true) ->
  exists decodeCalls,
    decodeKeyedParams sema nestedContainerDecl caseCodingKeys params
    = Some (decodeCalls, map getVarNameForCoding params) /\
    length decodeCalls = length params.
Proof.
  induction params as [|p rest IH]; simpl; intros Hdefault.
  - exists []. split; reflexivity.
  - destruct IH as (calls & Hrest & Hlen).
    { intros q Hq. apply Hdefault. right. exact Hq. }
    rewrite Hrest.
    destruct (lookupEnumCase caseCodingKeys (getName p)) eqn:Hkey.
    + eexists. split; [reflexivity|]. simpl. rewrite Hlen. reflexivity.
    + rewrite (Hdefault p (or_introl eq_refl) Hkey).
      eexists. split; [reflexivity|]. simpl. rewrite Hlen. reflexivity.
Qed.

(** X7.  What the validator checks is what the decoding of a case relies
    on.  When [validateCaseCodingKeysEnum] accepts the key enum of a case
    for Decodable, every parameter of the case without a key has a default
    expression, so that the synthesis of the keyed decoding of the case
    does not fail on its assertion and passes one argument per parameter,
    labelled by the parameters in their order.  The parameters are
    accessible and have distinct names, and the members of the key enum
    have distinct names. *)
Theorem validated_case_is_decodable
    derived elt params caseCodingKeys nestedContainerDecl :
  Protocol derived = Decodable ->
  getParameterList elt = Some params ->
  fst (validateCaseCodingKeysEnum sema derived elt caseCodingKeys) = true ->
  Forall (fun p => isUserAccessible p = true /\
                   getOriginalWrappedProperty p = None) params ->
  NoDup (map getName params) ->
  NoDup (map enumMemberName (enumMembers caseCodingKeys)) ->
  (forall p, In p params ->
     lookupEnumCase caseCodingKeys (getName p) = None ->
     hasDefaultExpr p = true) /\
  exists decodeCalls,
    decodeKeyedParams sema nestedContainerDecl caseCodingKeys params
    = Some (decodeCalls, map getName params) /\
    length decodeCalls = length params.
Proof.
  intros Hproto Hparams Hvalid Hacc Hnodup Hmembers.
  assert (Hfilter : filter isUserAccessible params = params).
  { clear - Hacc. induction Hacc as [|p ps [Hp _] _ IH]; simpl;
      [reflexivity|]. rewrite Hp, IH. reflexivity. }
  assert (Hnames : map getVarNameForCoding params = map getName params).
  { clear - Hacc. induction Hacc as [|p ps [_ Hp] _ IH]; simpl;
      [reflexivity|].
    unfold getVarNameForCoding at 1. rewrite Hp, IH. reflexivity. }
  assert (Hdefault : forall p, In p params ->
            lookupEnumCase caseCodingKeys (getName p) = None ->
            hasDefaultExpr p = true).
  { intros p Hp Hkey.
    assert (Hnot : ~ In (getName p) (caseNames caseCodingKeys)).
    { intros Hin.
      apply (lookupEnumCase_listed caseCodingKeys _ Hmembers Hin), Hkey. }
    unfold validateCaseCodingKeysEnum in Hvalid. rewrite Hparams in Hvalid.
    rewrite (collectProperties_distinct params []) in Hvalid
      by (simpl; rewrite Hfilter, Hnames; exact Hnodup).
    simpl app in Hvalid. rewrite Hfilter in Hvalid.
    assert (Hentry : In (getVarNameForCoding p, p)
                        (map (fun v => (getVarNameForCoding v, v)) params))
      by (apply in_map_iff; exists p; split; [reflexivity | exact Hp]).
    assert (Hname : getVarNameForCoding p = getName p).
    { rewrite Forall_forall in Hacc. destruct (Hacc p Hp) as [_ Hw].
      unfold getVarNameForCoding. rewrite Hw. reflexivity. }
    pose proof (validateElements_keeps (Protocol derived)
                  (enumAllElements caseCodingKeys) _
                  (getVarNameForCoding p, p) Hentry) as Hkeep.
    simpl fst in Hkeep at 1. rewrite Hname in Hkeep at 1.
    specialize (Hkeep Hnot).
    destruct (validateElements sema (Protocol derived)
                (enumAllElements caseCodingKeys)
                (map (fun v => (getVarNameForCoding v, v)) params))
      as [[left valid] diags].
    simpl in Hkeep, Hvalid. destruct valid; simpl in Hvalid;
      [|discriminate].
    rewrite Hproto in Hvalid. simpl in Hvalid.
    destruct (hasDefaultExpr p) eqn:Hhas; [reflexivity|].
    assert (Hmissing : In (getVarNameForCoding p, p)
                          (filter (fun entry =>
                                     negb (hasDefaultExpr (snd entry)))
                                  left)).
    { apply filter_In. split; [exact Hkeep|]. simpl. rewrite Hhas.
      reflexivity. }
    destruct (filter (fun entry => negb (hasDefaultExpr (snd entry))) left);
      [destruct Hmissing | discriminate]. }
  split; [exact Hdefault|].
  rewrite <- Hnames.
  apply decodeKeyedParams_total. exact Hdefault.
Qed.

(** ** The arms of the decoding of an enum *)

Lemma decodeCases_patterns targetEnum codingKeysEnum containerExpr :
  forall elts cases,
  decodeCases sema targetEnum codingKeysEnum containerExpr elts = Some cases ->
  map fst cases
  = map (fun elt =>
           CaseLabel (OptionalSomePattern
             (EnumElementPattern
                (mapTypeIntoContext sema
                   (enumDeclaredInterfaceType codingKeysEnum))
                (getBaseIdentifier elt))))
        (filter (fun elt =>
                   match lookupEnumCase codingKeysEnum
                                        (getBaseIdentifier elt) with
                   | Some _ => true
                   | None => false
                   end) elts).
Proof.
  induction elts as [|elt rest IH]; simpl; intros cases Hcases.
  - injection Hcases as <-. reflexivity.
  - destruct (lookupEnumCase codingKeysEnum (getBaseIdentifier elt))
      as [key|] eqn:Hkey.
    + destruct (decodeCaseStatements sema targetEnum codingKeysEnum
                  containerExpr elt key); [|discriminate].
      destruct (decodeCases sema targetEnum codingKeysEnum containerExpr rest)
        as [others|]; [|discriminate].
      injection Hcases as <-. simpl.
      rewrite (lookupEnumCase_name _ _ Hkey), (IH others eq_refl).
      reflexivity.
    + apply IH, Hcases.
Qed.

(** X8.  The body of the initializer of an enum is empty when the key enum
    has no case.  Otherwise it is the two statements that open the
    container followed by one [switch container.allKeys.first], and the
    arms of the switch before the default one are, in the order of the
    cases of the target, one arm [.some(CodingKeys.name)] for each case
    [name] of the target that the key enum lists: a case of the target
    without a key has no arm. *)
Theorem enum_init_arms targetEnum codingKeysEnum body :
  lookupEvaluatedCodingKeysEnum targetEnum Id_CodingKeys
  = Some codingKeysEnum ->
  deriveBodyDecodable_enum_init sema targetEnum = Some body ->
  (hasCases codingKeysEnum = false -> body = []) /\
  (hasCases codingKeysEnum = true ->
   exists cases,
     body = decodePrelude sema (decodingContainerDecl codingKeysEnum)
                          codingKeysEnum
            ++ [SwitchNode allKeysFirst (cases ++ [defaultCase])] /\
     map fst cases
     = map (fun elt =>
              CaseLabel (OptionalSomePattern
                (EnumElementPattern
                   (mapTypeIntoContext sema
                      (enumDeclaredInterfaceType codingKeysEnum))
                   (getBaseIdentifier elt))))
           (filter (fun elt =>
                      match lookupEnumCase codingKeysEnum
                                           (getBaseIdentifier elt) with
                      | Some _ => true
                      | None => false
                      end) (getAllElements targetEnum))).
Proof.
  intros Hkeys Hbody. unfold deriveBodyDecodable_enum_init in Hbody.
  rewrite Hkeys in Hbody.
  destruct (hasCases codingKeysEnum).
  - split; [discriminate|]. intros _.
    destruct (decodeCases sema targetEnum codingKeysEnum _
                (getAllElements targetEnum)) as [cases|] eqn:Hcases;
      [|discriminate].
    injection Hbody as <-. exists cases. split; [reflexivity|].
    apply (decodeCases_patterns _ _ _ _ Hcases).
  - split; [|discriminate]. intros _. injection Hbody as <-. reflexivity.
Qed.

Lemma decodeUnkeyedParams_calls nestedContainerDecl params :
  decodeUnkeyedParams sema nestedContainerDecl params
  = (map (fun p =>
            TryExpr
              (CallExpr
                 (UnresolvedDotExpr
                    (DeclRefExpr (localName nestedContainerDecl))
                    (BaseIdentifier Id_decode) (Some [emptyIdentifier]))
                 [DotSelfExpr (TypeExpr (getType sema p))]
                 [emptyIdentifier])) params,
     map getVarNameForCoding params).
Proof.
  induction params as [|p rest IH]; simpl; [reflexivity|].
  rewrite IH. reflexivity.
Qed.

Lemma decodeKeyedParams_calls nestedContainerDecl caseCodingKeys :
  forall params decodeCalls labels,
  decodeKeyedParams sema nestedContainerDecl caseCodingKeys params
  = Some (decodeCalls, labels) ->
  labels = map getVarNameForCoding params /\
  Forall2 (fun p call =>
             match lookupEnumCase caseCodingKeys (getName p) with
             | None =>
                 hasDefaultExpr p = true /\
                 call = TypeCheckedDefaultExpr (getName p)
             | Some key =>
                 call
                 = TryExpr
                     (CallExpr
                        (UnresolvedDotExpr
                           (DeclRefExpr (localName nestedContainerDecl))
                           (BaseIdentifier Id_decode)
                           (Some [emptyIdentifier; Id_forKey]))
                        [DotSelfExpr (TypeExpr (getType sema p));
                         MemberRefExpr
                           (TypeExpr
                              (enumDeclaredInterfaceType caseCodingKeys))
                           (getName p)]
                        [emptyIdentifier; Id_forKey])
             end) params decodeCalls.
Proof.
  induction params as [|p rest IH]; simpl; intros decodeCalls labels Hcalls.
  - injection Hcalls as <- <-. split; [reflexivity | constructor].
  - destruct (lookupEnumCase caseCodingKeys (getName p)) as [key|] eqn:Hkey.
    + destruct (decodeKeyedParams sema nestedContainerDecl caseCodingKeys
                  rest) as [[calls names]|]; [|discriminate].
      injection Hcalls as <- <-.
      destruct (IH calls names eq_refl) as [-> Hrest].
      split; [reflexivity|]. constructor; [|exact Hrest].
      rewrite Hkey, (lookupEnumCase_name _ _ Hkey). reflexivity.
    + destruct (hasDefaultExpr p) eqn:Hdefault; [|discriminate].
      destruct (decodeKeyedParams sema nestedContainerDecl caseCodingKeys
                  rest) as [[calls names]|]; [|discriminate].
      injection Hcalls as <- <-.
      destruct (IH calls names eq_refl) as [-> Hrest].
      split; [reflexivity|]. constructor; [|exact Hrest].
      rewrite Hkey. split; [exact Hdefault | reflexivity].
Qed.

Lemma decodeKeyedParams_resolved nestedContainerDecl caseCodingKeys params :
  (forall p, In p params ->
     lookupEnumCase caseCodingKeys (getName p) = None ->
     hasDefaultExpr p = true) ->
  decodeKeyedParams sema nestedContainerDecl caseCodingKeys params
  = Some (map (fun p =>
                 match lookupEnumCase caseCodingKeys (getName p) with
                 | Some _ =>
                     TryExpr
                       (CallExpr
                          (UnresolvedDotExpr
                             (DeclRefExpr (localName nestedContainerDecl))
                             (BaseIdentifier Id_decode)
                             (Some [emptyIdentifier; Id_forKey]))
                          [DotSelfExpr (TypeExpr (getType sema p));
                           MemberRefExpr
                             (TypeExpr
                                (enumDeclaredInterfaceType caseCodingKeys))
                             (getName p)]
                          [emptyIdentifier; Id_forKey])
                 | None => TypeCheckedDefaultExpr (getName p)
                 end) params,
          map getVarNameForCoding params).
Proof.
  induction params as [|p rest IH]; simpl; intros Hdefault; [reflexivity|].
  rewrite IH by (intros q Hq; apply Hdefault; right; exact Hq).
  destruct (lookupEnumCase caseCodingKeys (getName p)) as [key|] eqn:Hkey.
  - rewrite (lookupEnumCase_name _ _ Hkey). reflexivity.
  - rewrite (Hdefault p (or_introl eq_refl) Hkey). reflexivity.
Qed.

(** X9.  The whole body of the initializer of an enum whose key enum has a
    case.  It opens the container and switches over
    [container.allKeys.first], with one arm [.some(CodingKeys.name)] per
    case of the target that has a key, in their order, and the default arm
    last.  The arm of a case without parameters is the one statement
    [self = Target.name].  The arm of a case with parameters binds
    [nestedContainer] under [try] and assigns [self] the case applied to
    one argument per parameter, in the order of the parameters and under
    their labels.  With an unnamed parameter the container is
    [container.nestedUnkeyedContainer(forKey: CodingKeys.name)] and every
    argument is [try nestedContainer.decode(T.self)]; otherwise it is
    [container.nestedContainer(keyedBy: CodingKeys_name.self, forKey:
    CodingKeys.name)], the argument of a parameter with a key is
    [try nestedContainer.decode(T.self, forKey: CodingKeys_name.parameter)]
    and that of a parameter without a key is its default expression.  The
    body is produced when the key enum of every such case is there and
    every parameter without a key has a default expression. *)
Theorem enum_init_arm_statements targetEnum codingKeysEnum :
  lookupEvaluatedCodingKeysEnum targetEnum Id_CodingKeys
  = Some codingKeysEnum ->
  hasCases codingKeysEnum = true ->
  (forall elt params,
     In elt (getAllElements targetEnum) ->
     lookupEnumCase codingKeysEnum (getBaseIdentifier elt) <> None ->
     getParameterList elt = Some params ->
     hasAnyUnnamedParameters elt = false ->
     exists caseCodingKeys,
       lookupEvaluatedCodingKeysEnum targetEnum
         (combineIdentifiers "CodingKeys" (getBaseIdentifier elt))
       = Some caseCodingKeys /\
       forall p, In p params ->
         lookupEnumCase caseCodingKeys (getName p) = None ->
         hasDefaultExpr p = true) ->
  let selfType := TypeExpr (NominalType (nominalName targetEnum)) in
  let keysType := NominalType (enumName codingKeysEnum) in
  let keyOf elt :=
    MemberRefExpr (TypeExpr (mapTypeIntoContext sema keysType))
                  (getBaseIdentifier elt) in
  let container :=
    {| localIntroducer := Let;
       localName := "container";
       localInterfaceType := KeyedDecodingContainer keysType;
       localIsSynthesized := true |} in
  let unkeyedNested :=
    {| localIntroducer := Var;
       localName := "nestedContainer";
       localInterfaceType := UnkeyedDecodingContainer;
       localIsSynthesized := false |} in
  let keyedNested caseCodingKeys :=
    {| localIntroducer := Var;
       localName := "nestedContainer";
       localInterfaceType :=
         KeyedDecodingContainer (NominalType (enumName caseCodingKeys));
       localIsSynthesized := true |} in
  let assign elt (params : list VarDecl) arguments :=
    ExprNode
      (AssignExpr (DeclRefExpr "self")
         (CallExpr
            (UnresolvedDotExpr selfType
               (BaseIdentifier (getBaseIdentifier elt))
               (Some (map getVarNameForCoding params)))
            arguments (map getVarNameForCoding params))) in
  let armOf elt :=
    match getParameterList elt with
    | None =>
        [ExprNode
           (AssignExpr (DeclRefExpr "self")
              (MemberRefExpr selfType (getBaseIdentifier elt)))]
    | Some params =>
        if hasAnyUnnamedParameters elt then
          [PatternBindingNode (NamedPattern unkeyedNested)
             (TryExpr
                (CallExpr
                   (UnresolvedDotExpr (DeclRefExpr "container")
                      (BaseIdentifier "nestedUnkeyedContainer")
                      (Some ["forKey"]))
                   [keyOf elt] ["forKey"]));
           VarDeclNode unkeyedNested;
           assign elt params
             (map (fun p =>
                     TryExpr
                       (CallExpr
                          (UnresolvedDotExpr (DeclRefExpr "nestedContainer")
                             (BaseIdentifier "decode")
                             (Some [emptyIdentifier]))
                          [DotSelfExpr (TypeExpr (getType sema p))]
                          [emptyIdentifier])) params)]
        else
          match lookupEvaluatedCodingKeysEnum targetEnum
                  (combineIdentifiers "CodingKeys"
                                      (getBaseIdentifier elt)) with
          | None => []
          | Some caseCodingKeys =>
              [PatternBindingNode (NamedPattern (keyedNested caseCodingKeys))
                 (TryExpr
                    (CallExpr
                       (UnresolvedDotExpr (DeclRefExpr "container")
                          (BaseIdentifier "nestedContainer")
                          (Some ["keyedBy"; "forKey"]))
                       [DotSelfExpr
                          (TypeExpr
                             (mapTypeIntoContext sema
                                (NominalType (enumName caseCodingKeys))));
                        keyOf elt]
                       ["keyedBy"; "forKey"]));
               VarDeclNode (keyedNested caseCodingKeys);
               assign elt params
                 (map (fun p =>
                         match lookupEnumCase caseCodingKeys
                                              (getName p) with
                         | Some _ =>
                             TryExpr
                               (CallExpr
                                  (UnresolvedDotExpr
                                     (DeclRefExpr "nestedContainer")
                                     (BaseIdentifier "decode")
                                     (Some [emptyIdentifier; "forKey"]))
                                  [DotSelfExpr (TypeExpr (getType sema p));
                                   MemberRefExpr
                                     (TypeExpr
                                        (NominalType
                                           (enumName caseCodingKeys)))
                                     (getName p)]
                                  [emptyIdentifier; "forKey"])
                         | None => TypeCheckedDefaultExpr (getName p)
                         end) params)]
          end
    end in
  deriveBodyDecodable_enum_init sema targetEnum
  = Some
      [PatternBindingNode (NamedPattern container)
         (TryExpr
            (CallExpr
               (UnresolvedDotExpr (DeclRefExpr "decoder")
                  (BaseIdentifier "container") (Some ["keyedBy"]))
               [DotSelfExpr (TypeExpr (mapTypeIntoContext sema keysType))]
               ["keyedBy"]));
       VarDeclNode container;
       SwitchNode
         (UnresolvedDotExpr
            (UnresolvedDotExpr (DeclRefExpr "container")
                               (BaseIdentifier "allKeys") None)
            (BaseIdentifier "first") None)
         (map (fun elt =>
                 (CaseLabel
                    (OptionalSomePattern
                       (EnumElementPattern
                          (mapTypeIntoContext sema keysType)
                          (getBaseIdentifier elt))),
                  armOf elt))
              (filter (fun elt =>
                         match lookupEnumCase codingKeysEnum
                                              (getBaseIdentifier elt) with
                         | Some _ => true
                         | None => false
                         end) (getAllElements targetEnum))
          ++ [(DefaultLabel AnyPattern,
               [ExprNode
                  (CallExpr (DeclRefExpr "fatalError")
                            [StringLiteralExpr "foo"]
                            [emptyIdentifier])])])].
Proof.
  intros Hkeys Hcases Hresolve selfType keysType keyOf container
         unkeyedNested keyedNested assign armOf.
  assert (Harm : forall elt key,
            In elt (getAllElements targetEnum) ->
            lookupEnumCase codingKeysEnum (getBaseIdentifier elt)
            = Some key ->
            decodeCaseStatements sema targetEnum codingKeysEnum
              (DeclRefExpr "container") elt key
            = Some (armOf elt)).
  { intros elt key Hin Hkey.
    pose proof (lookupEnumCase_name _ _ Hkey) as Hname.
    unfold decodeCaseStatements, armOf.
    destruct (getParameterList elt) as [params|] eqn:Hparams;
      [|reflexivity].
    destruct (hasAnyUnnamedParameters elt) eqn:Hunnamed.
    - rewrite decodeUnkeyedParams_calls.
      unfold createNestedUnkeyedContainerForKeyCall, keyOf.
      rewrite Hname. reflexivity.
    - destruct (Hresolve elt params Hin
                  ltac:(rewrite Hkey; discriminate) Hparams Hunnamed)
        as (caseCodingKeys & Hfound & Hdefault).
      change Id_CodingKeys with "CodingKeys". rewrite Hfound.
      rewrite (decodeKeyedParams_resolved _ caseCodingKeys params Hdefault).
      unfold createNestedContainerKeyedByForKeyCall, keyOf.
      rewrite Hname. reflexivity. }
  assert (Harms : forall elts,
            (forall elt, In elt elts -> In elt (getAllElements targetEnum)) ->
            decodeCases sema targetEnum codingKeysEnum
                        (DeclRefExpr "container") elts
            = Some
                (map (fun elt =>
                        (CaseLabel
                           (OptionalSomePattern
                              (EnumElementPattern
                                 (mapTypeIntoContext sema keysType)
                                 (getBaseIdentifier elt))),
                         armOf elt))
                     (filter (fun elt =>
                                match lookupEnumCase codingKeysEnum
                                        (getBaseIdentifier elt) with
                                | Some _ => true
                                | None => false
                                end) elts))).
  { induction elts as [|elt rest IH]; intros Hsub; simpl; [reflexivity|].
    rewrite IH by (intros e He; apply Hsub; right; exact He).
    destruct (lookupEnumCase codingKeysEnum (getBaseIdentifier elt))
      as [key|] eqn:Hkey; [|reflexivity].
    rewrite (Harm elt key (Hsub elt (or_introl eq_refl)) Hkey).
    simpl. rewrite (lookupEnumCase_name _ _ Hkey). reflexivity. }
  unfold deriveBodyDecodable_enum_init. rewrite Hkeys, Hcases.
  change (DeclRefExpr
            (localName
               (createKeyedContainer KeyedDecodingContainer
                  (enumDeclaredInterfaceType codingKeysEnum) Let
                  Id_container)))
    with (DeclRefExpr "container").
  rewrite (Harms (getAllElements targetEnum) (fun elt H => H)).
  reflexivity.
Qed.

(** ** The member statements of a struct or class, key by key *)

Lemma encodeMembers_keys targetDecl containerExpr codingKeysType :
  forall elts statements,
  encodeMembers sema targetDecl containerExpr codingKeysType elts
    = Some statements ->
  Forall2 (fun elt statement =>
             exists varDecl varType useIfPresentVariant,
               lookupVarDeclForCodingKeysCase sema elt targetDecl
               = Some (varDecl, varType, useIfPresentVariant) /\
               statement
               = encodeMemberStatement containerExpr codingKeysType elt
                                       varDecl useIfPresentVariant)
          elts statements.
Proof.
  induction elts as [|elt rest IH]; simpl; intros statements H.
  - injection H as <-. constructor.
  - destruct (lookupVarDeclForCodingKeysCase sema elt targetDecl)
      as [[[vd ty] b]|] eqn:Hlook; [|discriminate].
    destruct (encodeMembers sema targetDecl containerExpr codingKeysType rest)
      as [others|]; [|discriminate].
    injection H as <-. constructor; [|apply IH; reflexivity].
    exists vd, ty, b. split; [exact Hlook | reflexivity].
Qed.

(** X10.  The synthesized [encode(to:)] of a struct or class follows the
    key enum.  After the two statements that open the container come
    exactly one encode statement for each case of the key enum, in the
    order of the cases, each for the property found under the name of its
    case, and after them only the call of [super.encode] when the
    superclass is Encodable.  The body has no other statement. *)
Theorem encode_statements_follow_keys target codingKeysEnum body :
  lookupEvaluatedCodingKeysEnum target Id_CodingKeys
  = Some codingKeysEnum ->
  deriveBodyEncodable_encode sema target = Some body ->
  exists members,
    body = encodePrelude sema (encodingContainerDecl codingKeysEnum)
                         codingKeysEnum
           ++ members
           ++ (if superclassConformsTo sema (asClassDecl target) Encodable
               then [superEncodeStatement containerRef] else []) /\
    Forall2 (fun elt statement =>
               exists varDecl varType useIfPresentVariant,
                 lookupVarDeclForCodingKeysCase sema elt target
                 = Some (varDecl, varType, useIfPresentVariant) /\
                 statement
                 = encodeMemberStatement containerRef
                     (enumDeclaredInterfaceType codingKeysEnum) elt
                     varDecl useIfPresentVariant)
            (enumAllElements codingKeysEnum) members /\
    length body
    = 2 + length (enumAllElements codingKeysEnum)
      + (if superclassConformsTo sema (asClassDecl target) Encodable
         then 1 else 0).
Proof.
  intros Hkeys. unfold deriveBodyEncodable_encode. rewrite Hkeys.
  change (DeclRefExpr
            (localName
               (createKeyedContainer KeyedEncodingContainer
                  (enumDeclaredInterfaceType codingKeysEnum) Var
                  Id_container)))
    with containerRef.
  change (createKeyedContainer KeyedEncodingContainer
            (enumDeclaredInterfaceType codingKeysEnum) Var Id_container)
    with (encodingContainerDecl codingKeysEnum).
  destruct (encodeMembers sema target containerRef
              (enumDeclaredInterfaceType codingKeysEnum)
              (enumAllElements codingKeysEnum)) as [members|] eqn:Hmembers;
    [|discriminate].
  intros H. injection H as <-.
  pose proof (encodeMembers_keys _ _ _ _ Hmembers) as Hall.
  exists members. split; [reflexivity|]. split; [exact Hall|].
  unfold encodePrelude. simpl.
  rewrite length_app, (Forall2_length Hall).
  destruct (superclassConformsTo sema (asClassDecl target) Encodable); simpl; lia.
Qed.

Lemma decodeMembers_keys
    targetDecl codingKeysEnum containerExpr codingKeysType :
  forall elts statements diags,
  decodeMembers sema targetDecl codingKeysEnum containerExpr codingKeysType
                elts = Some (statements, diags) ->
  statements
  = flat_map (fun elt =>
                match lookupVarDeclForCodingKeysCase sema elt targetDecl with
                | Some (varDecl, varType, useIfPresentVariant) =>
                    if isLet varDecl && isParentInitialized varDecl then []
                    else [decodeMemberStatement containerExpr codingKeysType
                            elt varDecl varType useIfPresentVariant]
                | None => []
                end) elts /\
  diags
  = flat_map (fun elt =>
                match lookupVarDeclForCodingKeysCase sema elt targetDecl with
                | Some (varDecl, _, _) =>
                    if isLet varDecl && isParentInitialized varDecl then
                      willNotBeDecodedDiagnostics sema targetDecl
                                                  codingKeysEnum varDecl
                    else []
                | None => []
                end) elts.
Proof.
  induction elts as [|elt rest IH]; simpl; intros statements diags H.
  - injection H as <- <-. split; reflexivity.
  - destruct (lookupVarDeclForCodingKeysCase sema elt targetDecl)
      as [[[vd ty] b]|] eqn:Hlook; [|discriminate].
    destruct (decodeMembers sema targetDecl codingKeysEnum containerExpr
                codingKeysType rest) as [[others ds]|]; [|discriminate].
    destruct (IH others ds eq_refl) as [Hothers Hds].
    destruct (isLet vd && isParentInitialized vd);
      injection H as <- <-; simpl; rewrite <- Hothers, <- Hds;
      split; reflexivity.
Qed.

(** X11.  The synthesized [init(from:)] of a struct or class with at least
    one key follows the key enum as well, except for constants with an
    initial value.  Between the opening of the container and the call of
    the superclass initializer it has, in the order of the cases of the
    key enum, one decode statement for each case whose property is not a
    [let] with an initial value, and none for the others; and its warnings
    are, in the same order, those of the cases whose property is such a
    [let]. *)
Theorem init_statements_follow_keys target codingKeysEnum body diags :
  lookupEvaluatedCodingKeysEnum target Id_CodingKeys
  = Some codingKeysEnum ->
  enumAllElements codingKeysEnum <> [] ->
  deriveBodyDecodable_init sema target = Some (body, diags) ->
  exists superStatements,
    body
    = decodePrelude sema (decodingContainerDecl codingKeysEnum)
                    codingKeysEnum
      ++ flat_map
           (fun elt =>
              match lookupVarDeclForCodingKeysCase sema elt target with
              | Some (varDecl, varType, useIfPresentVariant) =>
                  if isLet varDecl && isParentInitialized varDecl then []
                  else [decodeMemberStatement containerRef
                          (enumDeclaredInterfaceType codingKeysEnum)
                          elt varDecl varType useIfPresentVariant]
              | None => []
              end) (enumAllElements codingKeysEnum)
      ++ superStatements /\
    length superStatements <= 1 /\
    diags
    = flat_map
        (fun elt =>
           match lookupVarDeclForCodingKeysCase sema elt target with
           | Some (varDecl, _, _) =>
               if isLet varDecl && isParentInitialized varDecl then
                 willNotBeDecodedDiagnostics sema target codingKeysEnum
                                             varDecl
               else []
           | None => []
           end) (enumAllElements codingKeysEnum).
Proof.
  intros Hkeys Hcases. unfold deriveBodyDecodable_init. rewrite Hkeys.
  change (DeclRefExpr
            (localName
               (createKeyedContainer KeyedDecodingContainer
                  (enumDeclaredInterfaceType codingKeysEnum) Let
                  Id_container)))
    with containerRef.
  change (createKeyedContainer KeyedDecodingContainer
            (enumDeclaredInterfaceType codingKeysEnum) Let Id_container)
    with (decodingContainerDecl codingKeysEnum).
  set (superCall :=
         match asClassDecl target with
         | Some classDecl =>
             match getSuperclassDecl classDecl with
             | Some superclassDecl =>
                 if superclassConformsTo sema (Some classDecl) Decodable then
                   Some [superInitFromStatement containerRef]
                 else
                   match superInitStatement superclassDecl with
                   | Some statement => Some [statement]
                   | None => None
                   end
             | None => Some []
             end
         | None => Some []
         end).
  assert (Hsuper : forall superStatements,
            superCall = Some superStatements -> length superStatements <= 1).
  { intros superStatements. unfold superCall.
    destruct (asClassDecl target) as [classDecl|];
      [|intros H; injection H as <-; simpl; lia].
    destruct (getSuperclassDecl classDecl) as [superclassDecl|];
      [|intros H; injection H as <-; simpl; lia].
    destruct (superclassConformsTo sema (Some classDecl) Decodable);
      [intros H; injection H as <-; simpl; lia|].
    destruct (superInitStatement superclassDecl);
      [intros H; injection H as <-; simpl; lia | discriminate]. }
  destruct (enumAllElements codingKeysEnum) as [|elt rest] eqn:Helts;
    [contradiction|].
  rewrite <- Helts.
  destruct (decodeMembers sema target codingKeysEnum containerRef
              (enumDeclaredInterfaceType codingKeysEnum)
              (enumAllElements codingKeysEnum))
    as [[members warnings]|] eqn:Hmembers; [|discriminate].
  destruct superCall as [superStatements|]; [|discriminate].
  intros H. injection H as <- <-.
  destruct (decodeMembers_keys _ _ _ _ _ Hmembers) as [<- <-].
  exists superStatements. split; [reflexivity|].
  split; [apply Hsuper; reflexivity | reflexivity].
Qed.

(** ** The warning for a constant that is not decoded *)

Lemma findVarDecl_found decls varDecl varType useIfPresentVariant :
  findVarDecl sema decls = Some (varDecl, varType, useIfPresentVariant) ->
  exists v backing,
    In (VarMember v backing) decls /\
    varDecl = match backing with
              | Some backingVar => backingVar
              | None => v
              end.
Proof.
  induction decls as [|d rest IH]; simpl; [discriminate|].
  intros Hfound.
  assert (Hrest : findVarDecl sema rest
                  = Some (varDecl, varType, useIfPresentVariant) ->
                  exists v backing,
                    (d = VarMember v backing \/ In (VarMember v backing) rest)
                    /\ varDecl = match backing with
                                 | Some backingVar => backingVar
                                 | None => v
                                 end).
  { intros H. destruct (IH H) as (v & backing & Hin & Heq).
    exists v, backing. split; [right; exact Hin | exact Heq]. }
  destruct d as [v backing| | | | |]; try (apply Hrest, Hfound).
  destruct (negb (isStatic match backing with
                           | Some backingVar => backingVar
                           | None => v
                           end)); [|apply Hrest, Hfound].
  exists v, backing. split; [left; reflexivity|].
  destruct (getOptionalObjectType _); injection Hfound as <- _ _; reflexivity.
Qed.

Lemma keyExistsInCodingKeys_listed codingKeysEnum elt varDecl :
  In elt (enumAllElements codingKeysEnum) ->
  getName varDecl = getBaseIdentifier elt ->
  keyExistsInCodingKeys codingKeysEnum varDecl = true.
Proof.
  unfold keyExistsInCodingKeys, enumAllElements. intros Hin Hname.
  apply existsb_exists. exists (CaseMember elt).
  split; [|rewrite Hname; apply String.eqb_refl].
  apply filter_In. split; [|simpl; rewrite Hname; apply String.eqb_refl].
  clear Hname. induction (enumMembers codingKeysEnum) as [|m rest IH];
    simpl in *; [destruct Hin|].
  destruct m as [e|n]; simpl in Hin.
  - destruct Hin as [->|Hin]; [left; reflexivity | right; apply IH, Hin].
  - right. apply IH, Hin.
Qed.

(** X12.  The warning for a [let] with an initial value, for a property
    that is found through its key and has no property wrapper.  The
    property then has the name of the key, so that the test for the key in
    the key enum always succeeds: the warning is left out exactly when the
    key enum is written by the user and the type is also Encodable.  When
    it is given it starts with [decodable_property_will_not_be_decoded]
    and has two or three parts. *)
Theorem constant_warning_silenced_by_encodable
    target codingKeysEnum elt varDecl varType useIfPresentVariant :
  In elt (enumAllElements codingKeysEnum) ->
  lookupVarDeclForCodingKeysCase sema elt target
  = Some (varDecl, varType, useIfPresentVariant) ->
  (forall v backingVar,
     ~ In (VarMember v (Some backingVar)) (getMembers target)) ->
  getName varDecl = getBaseIdentifier elt /\
  keyExistsInCodingKeys codingKeysEnum varDecl = true /\
  (willNotBeDecodedDiagnostics sema target codingKeysEnum varDecl = [] <->
   enumIsImplicit codingKeysEnum = false /\
   lookupConformance sema (getDeclaredInterfaceType target) Encodable
   = true) /\
  (willNotBeDecodedDiagnostics sema target codingKeysEnum varDecl <> [] ->
   exists others,
     willNotBeDecodedDiagnostics sema target codingKeysEnum varDecl
     = decodable_property_will_not_be_decoded (getName varDecl) :: others /\
     1 <= length others <= 2).
Proof.
  intros Hin Hlook Hplain.
  unfold lookupVarDeclForCodingKeysCase in Hlook.
  destruct (findVarDecl_found _ Hlook) as (v & backing & Hmember & Hvar).
  unfold lookupDirect in Hmember. apply filter_In in Hmember.
  destruct Hmember as [Hmember Hname].
  destruct backing as [backingVar|];
    [exfalso; apply (Hplain v backingVar), Hmember|].
  subst v. simpl in Hname. apply String.eqb_eq in Hname.
  pose proof (keyExistsInCodingKeys_listed codingKeysEnum elt varDecl
                Hin Hname) as Hexists.
  split; [exact Hname|]. split; [exact Hexists|].
  unfold willNotBeDecodedDiagnostics. rewrite Hexists.
  destruct (enumIsImplicit codingKeysEnum);
    destruct (lookupConformance sema (getDeclaredInterfaceType target)
                                Encodable); simpl.
  - split; [split; [discriminate | intros [H _]; discriminate]|].
    intros _. eexists. split; [reflexivity|].
    destruct (getParentPatternBinding varDecl); simpl; lia.
  - split; [split; [discriminate | intros [H _]; discriminate]|].
    intros _. eexists. split; [reflexivity|].
    destruct (getParentPatternBinding varDecl); simpl; lia.
  - split; [split; [intros _; split; reflexivity | reflexivity]|].
    intros H. contradiction.
  - split; [split; [discriminate | intros [_ H]; discriminate]|].
    intros _. eexists. split; [reflexivity|].
    destruct (getParentPatternBinding varDecl); simpl; lia.
Qed.

(** ** The initializer of the superclass, checked and then called *)

(** X13.  The check of [canSynthesize] is what the two assertions in the
    body of [init(from:)] rely on.  For a class deriving Decodable whose
    superclass is not Decodable, when [canSynthesize] accepts, and the
    member lookup of [init()] in the superclass gives the constructors
    without arguments that the superclass declares, the lookup has found
    one designated, accessible, non-failable initializer, and the call
    [super.init()] is synthesized without failing an assertion, under
    [try] exactly when that initializer throws. *)
Theorem accepted_superclass_init_is_called
    derived requirement classDecl superclassDecl target diags :
  Protocol derived = Decodable ->
  asClassDecl (Nominal derived) = Some classDecl ->
  getSuperclassDecl classDecl = Some superclassDecl ->
  conformsToProtocol sema (superclassDeclaredInterfaceType superclassDecl)
                     Decodable = false ->
  lookupMember sema superclassDecl initNoArguments
  = filter (fun ctor => match ctorArgumentNames ctor with
                        | [] => true
                        | _ :: _ => false
                        end) (superclassConstructors superclassDecl) ->
  canSynthesize sema derived requirement = (true, target, diags) ->
  exists initializer,
    lookupMember sema superclassDecl initNoArguments = [initializer] /\
    isDesignatedInit initializer = true /\
    isAccessibleFrom initializer = true /\
    isFailable initializer = false /\
    superInitStatement superclassDecl
    = Some (ExprNode
              (let callExpr :=
                 CallExpr (UnresolvedDotExpr SuperRefExpr BaseConstructor
                                             (Some [])) [] [] in
               if hasThrows initializer then TryExpr callExpr
               else callExpr)).
Proof.
  intros Hproto Hclass Hsuper Hconf Hlookup Hcan.
  unfold canSynthesize in Hcan.
  destruct (superclassInitFailure sema derived requirement) eqn:Hfail;
    [discriminate|].
  clear Hcan. unfold superclassInitFailure in Hfail.
  rewrite Hclass, Hproto, Hsuper, Hconf in Hfail. simpl in Hfail.
  unfold superInitStatement. rewrite <- Hlookup.
  destruct (lookupMember sema superclassDecl initNoArguments)
    as [|initializer [|second others]]; try discriminate.
  destruct (isDesignatedInit initializer) eqn:Hdesignated; [|discriminate].
  destruct (isAccessibleFrom initializer) eqn:Haccessible; [|discriminate].
  destruct (isFailable initializer) eqn:Hfailable; [discriminate|].
  exists initializer. split; [reflexivity|].
  split; [exact Hdesignated|]. split; [exact Haccessible|].
  split; [exact Hfailable|]. reflexivity.
Qed.

(** ** The synthesized [encode(to:)] of a tagged union *)

Section EnumEncodeProperties.

Variable payloadVarsOf : EnumElementDecl -> list VarDecl.

Lemma encodeCases_arms targetEnum codingKeysEnum containerExpr :
  forall elts cases,
  encodeCases sema payloadVarsOf targetEnum codingKeysEnum containerExpr elts
  = Some cases ->
  Forall2 (fun elt arm =>
             caseLabelItem arm
             = CaseLabel (EnumElementPattern
                            (getDeclaredInterfaceType targetEnum)
                            (getBaseIdentifier elt)) /\
             caseBodyVarDecls arm
             = match payloadVarsOf elt with
               | [] => None
               | _ :: _ =>
                   Some (map (fun v => (if isLet v then Let else Var,
                                        getName v))
                             (payloadVarsOf elt))
               end /\
             exists codingKeyCase,
               lookupEnumCase codingKeysEnum (getBaseIdentifier elt)
               = Some codingKeyCase /\
               encodeCaseStatements sema targetEnum codingKeysEnum
                 containerExpr elt codingKeyCase (payloadVarsOf elt)
               = Some (caseBodyStatements arm))
          (filter (fun elt =>
                     match lookupEnumCase codingKeysEnum
                                          (getBaseIdentifier elt) with
                     | Some _ => true
                     | None => false
                     end) elts)
          cases.
Proof.
  induction elts as [|elt rest IH]; simpl; intros cases Hcases.
  - injection Hcases as <-. constructor.
  - destruct (lookupEnumCase codingKeysEnum (getBaseIdentifier elt))
      as [key|] eqn:Hkey; [|apply IH, Hcases].
    destruct (encodeCaseStatements sema targetEnum codingKeysEnum
                containerExpr elt key (payloadVarsOf elt))
      as [statements|] eqn:Hstatements; [|discriminate].
    destruct (encodeCases sema payloadVarsOf targetEnum codingKeysEnum
                containerExpr rest) as [others|]; [|discriminate].
    injection Hcases as <-. constructor; [|apply IH; reflexivity].
    simpl. split; [reflexivity|]. split.
    + destruct (payloadVarsOf elt); reflexivity.
    + exists key. split; [exact Hkey | exact Hstatements].
Qed.

(** X14.  The synthesized [encode(to:)] of an enum opens the container
    with the same two statements as that of a struct, whether or not the
    key enum has a case, and closes with a [switch self] that has, in the
    order of the cases of the target, one arm [.name] for each case that
    the key enum lists, and no other arm: a case without a key has no arm,
    and there is no default arm.  Each arm sees copies of the payload
    variables of its case, under their names and introducers. *)
Theorem enum_encode_arms targetEnum codingKeysEnum body :
  lookupEvaluatedCodingKeysEnum targetEnum Id_CodingKeys
  = Some codingKeysEnum ->
  deriveBodyEncodable_enum_encode sema payloadVarsOf targetEnum = Some body ->
  encodeStatements body
  = encodePrelude sema (encodingContainerDecl codingKeysEnum)
                  codingKeysEnum /\
  encodeSwitchSubject body = createSelfDeclRef /\
  map caseLabelItem (encodeSwitchCases body)
  = map (fun elt =>
           CaseLabel (EnumElementPattern
                        (getDeclaredInterfaceType targetEnum)
                        (getBaseIdentifier elt)))
        (filter (fun elt =>
                   match lookupEnumCase codingKeysEnum
                                        (getBaseIdentifier elt) with
                   | Some _ => true
                   | None => false
                   end) (getAllElements targetEnum)) /\
  map caseBodyVarDecls (encodeSwitchCases body)
  = map (fun elt =>
           match payloadVarsOf elt with
           | [] => None
           | _ :: _ =>
               Some (map (fun v => (if isLet v then Let else Var, getName v))
                         (payloadVarsOf elt))
           end)
        (filter (fun elt =>
                   match lookupEnumCase codingKeysEnum
                                        (getBaseIdentifier elt) with
                   | Some _ => true
                   | None => false
                   end) (getAllElements targetEnum)).
Proof.
  intros Hkeys. unfold deriveBodyEncodable_enum_encode. rewrite Hkeys.
  destruct (encodeCases sema payloadVarsOf targetEnum codingKeysEnum _
              (getAllElements targetEnum)) as [cases|] eqn:Hcases;
    [|discriminate].
  intros H. injection H as <-. simpl.
  split; [reflexivity|]. split; [reflexivity|].
  pose proof (encodeCases_arms _ _ _ _ Hcases) as Hall.
  clear Hcases.
  induction Hall as [|elt arm elts arms (Hlabel & Hvars & _) _ [IH1 IH2]];
    simpl; [split; reflexivity|].
  rewrite Hlabel, Hvars, IH1, IH2. split; reflexivity.
Qed.

Lemma encodeUnkeyedPayload_calls nestedContainerExpr payloadVars :
  encodeUnkeyedPayload nestedContainerExpr payloadVars
  = map (fun v =>
           ExprNode
             (TryExpr
                (CallExpr
                   (UnresolvedDotExpr nestedContainerExpr
                      (BaseIdentifier Id_encode) (Some [emptyIdentifier]))
                   [DeclRefExpr (getName v)] [emptyIdentifier])))
        payloadVars.
Proof.
  induction payloadVars as [|v rest IH]; simpl; [reflexivity|].
  rewrite IH. reflexivity.
Qed.

Lemma encodeKeyedPayload_calls nestedContainerDecl caseCodingKeys payloadVars :
  encodeKeyedPayload sema nestedContainerDecl caseCodingKeys payloadVars
  = map (fun v =>
           ExprNode
             (TryExpr
                (CallExpr
                   (UnresolvedDotExpr
                      (DeclRefExpr (localName nestedContainerDecl))
                      (BaseIdentifier
                         (if isOptional (memberType sema v)
                          then Id_encodeIfPresent else Id_encode))
                      (Some [emptyIdentifier; Id_forKey]))
                   [DeclRefExpr (getName v);
                    MemberRefExpr
                      (TypeExpr (enumDeclaredInterfaceType caseCodingKeys))
                      (getName v)]
                   [emptyIdentifier; Id_forKey])))
        (filter (fun v =>
                   match lookupEnumCase caseCodingKeys (getName v) with
                   | Some _ => true
                   | None => false
                   end) payloadVars).
Proof.
  induction payloadVars as [|v rest IH]; simpl; [reflexivity|].
  destruct (lookupEnumCase caseCodingKeys (getName v)) as [key|] eqn:Hkey;
    [|exact IH].
  simpl. rewrite IH, (lookupEnumCase_name _ _ Hkey).
  unfold isOptional, memberType.
  destruct (getOptionalObjectType
              (mapTypeIntoContext sema (getValueInterfaceType v)));
    reflexivity.
Qed.

(** X15.  The arm of one case in [switch self].  It binds
    [nestedContainer], a [var] and without [try], and then encodes payload
    variables in their order.  With an unnamed parameter the container is
    unkeyed and every payload variable is encoded, by
    [try nestedContainer.encode(x)].  Otherwise the container is keyed by
    the key enum of the case, which has to be there, also for a case
    without parameters; a payload variable with a key is encoded by
    [try nestedContainer.encode(x, forKey: CodingKeys_name.x)], or
    [encodeIfPresent] when its type is optional, and one without a key is
    left out. *)
Theorem enum_encode_arm_statements
    targetEnum codingKeysEnum containerExpr elt codingKeyCase payloadVars :
  (hasAnyUnnamedParameters elt = true ->
   encodeCaseStatements sema targetEnum codingKeysEnum containerExpr
                        elt codingKeyCase payloadVars
   = Some
       ([PatternBindingNode
           (NamedPattern
              (createUnkeyedContainer UnkeyedEncodingContainer Var
                                      Id_nestedContainer))
           (createNestedUnkeyedContainerForKeyCall sema containerExpr
              codingKeysEnum codingKeyCase);
         VarDeclNode
           (createUnkeyedContainer UnkeyedEncodingContainer Var
                                   Id_nestedContainer)]
        ++ map (fun v =>
                  ExprNode
                    (TryExpr
                       (CallExpr
                          (UnresolvedDotExpr (DeclRefExpr Id_nestedContainer)
                             (BaseIdentifier Id_encode)
                             (Some [emptyIdentifier]))
                          [DeclRefExpr (getName v)] [emptyIdentifier])))
               payloadVars)) /\
  (hasAnyUnnamedParameters elt = false ->
   match lookupEvaluatedCodingKeysEnum targetEnum
           (combineIdentifiers Id_CodingKeys (getBaseIdentifier elt)) with
   | None =>
       encodeCaseStatements sema targetEnum codingKeysEnum containerExpr
                            elt codingKeyCase payloadVars = None
   | Some caseCodingKeys =>
       encodeCaseStatements sema targetEnum codingKeysEnum containerExpr
                            elt codingKeyCase payloadVars
       = Some
           ([PatternBindingNode
               (NamedPattern
                  (createKeyedContainer KeyedEncodingContainer
                     (enumDeclaredInterfaceType caseCodingKeys) Var
                     Id_nestedContainer))
               (createNestedContainerKeyedByForKeyCall sema containerExpr
                  caseCodingKeys codingKeysEnum codingKeyCase);
             VarDeclNode
               (createKeyedContainer KeyedEncodingContainer
                  (enumDeclaredInterfaceType caseCodingKeys) Var
                  Id_nestedContainer)]
            ++ map (fun v =>
                      ExprNode
                        (TryExpr
                           (CallExpr
                              (UnresolvedDotExpr
                                 (DeclRefExpr Id_nestedContainer)
                                 (BaseIdentifier
                                    (if isOptional (memberType sema v)
                                     then Id_encodeIfPresent
                                     else Id_encode))
                                 (Some [emptyIdentifier; Id_forKey]))
                              [DeclRefExpr (getName v);
                               MemberRefExpr
                                 (TypeExpr
                                    (enumDeclaredInterfaceType
                                       caseCodingKeys))
                                 (getName v)]
                              [emptyIdentifier; Id_forKey])))
                   (filter (fun v =>
                              match lookupEnumCase caseCodingKeys
                                                   (getName v) with
                              | Some _ => true
                              | None => false
                              end) payloadVars))
   end).
Proof.
  unfold encodeCaseStatements. split; intros Hunnamed; rewrite Hunnamed.
  - rewrite encodeUnkeyedPayload_calls. reflexivity.
  - destruct (lookupEvaluatedCodingKeysEnum targetEnum _)
      as [caseCodingKeys|]; [|reflexivity].
    rewrite encodeKeyedPayload_calls. reflexivity.
Qed.

(** X16.  Encoding and decoding a tagged union go through the same cases.
    When both bodies are synthesized and the key enum has a case, the arms
    of [switch self] in [encode(to:)] and the arms before the default one
    in [init(from:)] are as many, and the arms at the same place are for
    the same case: [.name] in one, [.some(CodingKeys.name)] in the
    other. *)
Theorem enum_encode_and_init_arms_agree
    targetEnum codingKeysEnum encodeBody initBody :
  lookupEvaluatedCodingKeysEnum targetEnum Id_CodingKeys
  = Some codingKeysEnum ->
  hasCases codingKeysEnum = true ->
  deriveBodyEncodable_enum_encode sema payloadVarsOf targetEnum
  = Some encodeBody ->
  deriveBodyDecodable_enum_init sema targetEnum = Some initBody ->
  exists initCases,
    initBody
    = decodePrelude sema (decodingContainerDecl codingKeysEnum)
                    codingKeysEnum
      ++ [SwitchNode allKeysFirst (initCases ++ [defaultCase])] /\
    Forall2 (fun encodeArm initArm =>
               exists name,
                 caseLabelItem encodeArm
                 = CaseLabel (EnumElementPattern
                                (getDeclaredInterfaceType targetEnum) name) /\
                 fst initArm
                 = CaseLabel (OptionalSomePattern
                     (EnumElementPattern
                        (mapTypeIntoContext sema
                           (enumDeclaredInterfaceType codingKeysEnum))
                        name)))
            (encodeSwitchCases encodeBody) initCases.
Proof.
  intros Hkeys Hcases Hencode Hinit.
  unfold deriveBodyEncodable_enum_encode in Hencode.
  unfold deriveBodyDecodable_enum_init in Hinit.
  rewrite Hkeys in Hencode, Hinit. rewrite Hcases in Hinit.
  destruct (encodeCases sema payloadVarsOf targetEnum codingKeysEnum _
              (getAllElements targetEnum)) as [encodeArms|] eqn:HencodeArms;
    [|discriminate].
  destruct (decodeCases sema targetEnum codingKeysEnum _
              (getAllElements targetEnum)) as [initArms|] eqn:HinitArms;
    [|discriminate].
  injection Hencode as <-. injection Hinit as <-. simpl.
  exists initArms. split; [reflexivity|].
  pose proof (encodeCases_arms _ _ _ _ HencodeArms) as Hall.
  pose proof (decodeCases_patterns _ _ _ _ HinitArms) as Hlabels.
  clear HencodeArms HinitArms.
  revert initArms Hlabels.
  induction Hall as [|elt arm elts arms (Hlabel & _) _ IH];
    intros initArms Hlabels.
  - destruct initArms; [constructor | discriminate].
  - destruct initArms as [|initArm others]; [discriminate|].
    simpl in Hlabels. injection Hlabels as Hfirst Hrest.
    constructor; [|apply IH, Hrest].
    exists (getBaseIdentifier elt). split; [exact Hlabel | exact Hfirst].
Qed.

(** X17.  A case without parameters that has a key is decoded by the one
    assignment [self = Target.name], whether or not the target has a key
    enum for the case; encoding it asks for that key enum, and without it
    no body of [encode(to:)] is synthesized for the enum. *)
Theorem parameterless_case_encode_needs_key_enum
    targetEnum codingKeysEnum containerExpr elt codingKeyCase :
  lookupEvaluatedCodingKeysEnum targetEnum Id_CodingKeys
  = Some codingKeysEnum ->
  In elt (getAllElements targetEnum) ->
  getParameterList elt = None ->
  lookupEnumCase codingKeysEnum (getBaseIdentifier elt)
  = Some codingKeyCase ->
  decodeCaseStatements sema targetEnum codingKeysEnum containerExpr
                       elt codingKeyCase
  = Some [ExprNode
            (AssignExpr createSelfDeclRef
               (MemberRefExpr
                  (TypeExpr (getDeclaredInterfaceType targetEnum))
                  (getBaseIdentifier elt)))] /\
  (lookupEvaluatedCodingKeysEnum targetEnum
     (combineIdentifiers Id_CodingKeys (getBaseIdentifier elt)) = None ->
   deriveBodyEncodable_enum_encode sema payloadVarsOf targetEnum = None).
Proof.
  intros Hkeys Hin Hparams Hkey. split.
  - unfold decodeCaseStatements. rewrite Hparams. reflexivity.
  - intros Hmissing. unfold deriveBodyEncodable_enum_encode.
    rewrite Hkeys.
    assert (Hnone : forall containerExpr' elts,
              In elt elts ->
              encodeCases sema payloadVarsOf targetEnum codingKeysEnum
                          containerExpr' elts = None).
    { intros containerExpr' elts. clear Hin.
      induction elts as [|e rest IH]; simpl; [intros []|].
      intros [->|Hin].
      - rewrite Hkey. unfold encodeCaseStatements, hasAnyUnnamedParameters.
        rewrite Hparams, Hmissing. reflexivity.
      - rewrite (IH Hin).
        destruct (lookupEnumCase codingKeysEnum (getBaseIdentifier e));
          [|reflexivity].
        destruct (encodeCaseStatements sema targetEnum codingKeysEnum
                    containerExpr' e _ (payloadVarsOf e)); reflexivity. }
    rewrite (Hnone _ _ Hin). reflexivity.
Qed.

Lemma encodeKeyedPayload_In nestedContainerDecl caseCodingKeys payloadVars v :
  In v payloadVars ->
  lookupEnumCase caseCodingKeys (getName v) <> None ->
  In (ExprNode
        (TryExpr
           (CallExpr
              (UnresolvedDotExpr
                 (DeclRefExpr (localName nestedContainerDecl))
                 (BaseIdentifier
                    (if isOptional (memberType sema v)
                     then Id_encodeIfPresent else Id_encode))
                 (Some [emptyIdentifier; Id_forKey]))
              [DeclRefExpr (getName v);
               MemberRefExpr
                 (TypeExpr (enumDeclaredInterfaceType caseCodingKeys))
                 (getName v)]
              [emptyIdentifier; Id_forKey])))
     (encodeKeyedPayload sema nestedContainerDecl caseCodingKeys payloadVars).
Proof.
  intros Hin Hkey. rewrite encodeKeyedPayload_calls.
  apply in_map_iff. exists v. split; [reflexivity|].
  apply filter_In. split; [exact Hin|].
  destruct (lookupEnumCase caseCodingKeys (getName v));
    [reflexivity | contradiction].
Qed.

(** X18.  A payload of optional type that has a key is written and read
    under the same key, [CodingKeys_name.parameter], but not by matching
    calls: [encode(to:)] writes it with [encodeIfPresent], and
    [init(from:)] reads it with [decode] at the optional type itself.  No
    argument that [init(from:)] passes to a case is a [decodeIfPresent]
    call: with a key enum each is the default expression of its parameter
    or a call [try nestedContainer.decode(_:forKey:)], and for a case with
    unnamed parameters each is a call [try nestedContainer.decode(_:)].
    The payload variables of the case are its parameters, and every
    parameter without a key has a default expression. *)
Theorem optional_payload_is_read_by_decode
    nestedContainerDecl caseCodingKeys params :
  (forall p, In p params ->
     lookupEnumCase caseCodingKeys (getName p) = None ->
     hasDefaultExpr p = true) ->
  let keyExpr (p : VarDecl) :=
    MemberRefExpr (TypeExpr (NominalType (enumName caseCodingKeys)))
                  (getName p) in
  let method name :=
    UnresolvedDotExpr (DeclRefExpr (localName nestedContainerDecl))
                      (BaseIdentifier name)
                      (Some [emptyIdentifier; "forKey"]) in
  exists decodeCalls,
    decodeKeyedParams sema nestedContainerDecl caseCodingKeys params
    = Some (decodeCalls, map getVarNameForCoding params) /\
    Forall (fun call =>
              (exists name, call = TypeCheckedDefaultExpr name) \/
              (exists arguments,
                 call = TryExpr (CallExpr (method "decode") arguments
                                          [emptyIdentifier; "forKey"])))
           decodeCalls /\
    Forall (fun call =>
              exists arguments,
                call
                = TryExpr
                    (CallExpr
                       (UnresolvedDotExpr
                          (DeclRefExpr (localName nestedContainerDecl))
                          (BaseIdentifier "decode")
                          (Some [emptyIdentifier]))
                       arguments [emptyIdentifier]))
           (fst (decodeUnkeyedParams sema nestedContainerDecl params)) /\
    forall param objType,
      In param params ->
      lookupEnumCase caseCodingKeys (getName param) <> None ->
      getOptionalObjectType (getType sema param) = Some objType ->
      In (ExprNode
            (TryExpr
               (CallExpr (method "encodeIfPresent")
                         [DeclRefExpr (getName param); keyExpr param]
                         [emptyIdentifier; "forKey"])))
         (encodeKeyedPayload sema nestedContainerDecl caseCodingKeys
                             params) /\
      In (TryExpr
            (CallExpr (method "decode")
                      [DotSelfExpr (TypeExpr (OptionalType objType));
                       keyExpr param]
                      [emptyIdentifier; "forKey"]))
         decodeCalls.
Proof.
  intros Hdefault keyExpr method.
  eexists. split; [apply decodeKeyedParams_resolved, Hdefault|].
  split; [|split].
  - apply Forall_forall. intros call Hcall.
    apply in_map_iff in Hcall. destruct Hcall as (p & <- & _).
    destruct (lookupEnumCase caseCodingKeys (getName p));
      [right | left]; eexists; reflexivity.
  - rewrite decodeUnkeyedParams_calls. simpl.
    apply Forall_forall. intros call Hcall.
    apply in_map_iff in Hcall. destruct Hcall as (p & <- & _).
    eexists. reflexivity.
  - intros param objType Hin Hkey Hoptional. split.
    + pose proof (encodeKeyedPayload_In nestedContainerDecl caseCodingKeys
                    params param Hin Hkey) as Hencode.
      unfold isOptional, memberType in Hencode.
      unfold getType in Hoptional. rewrite Hoptional in Hencode.
      exact Hencode.
    + assert (Htype : getType sema param = OptionalType objType).
      { destruct (getType sema param) as [name|inner]; simpl in Hoptional;
          [discriminate|]. injection Hoptional as ->. reflexivity. }
      apply in_map_iff. exists param. split; [|exact Hin].
      destruct (lookupEnumCase caseCodingKeys (getName param));
        [|contradiction].
      rewrite Htype. reflexivity.
Qed.

End EnumEncodeProperties.

(** ** The diagnostic transaction of the entry points *)

Lemma canSynthesize_silent derived requirement target diags :
  canSynthesize sema derived requirement = (true, target, diags) ->
  diags = [].
Proof.
  unfold canSynthesize.
  destruct (superclassInitFailure sema derived requirement); [discriminate|].
  pose proof (classifyCodingKeys_diagnosed derived) as Hclass.
  destruct (classifyCodingKeys sema derived) as [c d]. simpl in Hclass.
  assert (Hd : c <> Invalid -> d = []).
  { intros Hc. destruct d as [|x xs]; [reflexivity|].
    exfalso. apply Hc, Hclass. discriminate. }
  destruct c; [discriminate| |].
  - rewrite (Hd ltac:(discriminate)).
    pose proof (synthesizeCodingKeysEnum_diagnosed derived) as Hsyn.
    destruct (synthesizeCodingKeysEnum sema derived) as [[ok t] d'].
    simpl in *. intros H. injection H as -> _ <-. apply Hsyn. reflexivity.
  - intros H. injection H as _ <-. apply Hd. discriminate.
Qed.

(** X19.  The entry points cancel their diagnostic transaction only when
    nothing is in it but the two failures they put there themselves.  When
    [deriveEncodable] or [deriveDecodable] returns a witness, it is the
    witness for the target as [canSynthesize] left it, and [canSynthesize]
    had emitted no diagnostic, so that cancelling loses none.  When they
    return no witness after [canSynthesize] was asked, the diagnostics are
    [type_does_not_conform] and [no_witnesses] followed by those of
    [canSynthesize], in that order. *)
Theorem cancelled_transaction_loses_no_diagnostic derived requirement :
  (forall witness target diags,
     deriveEncodable sema derived requirement
     = (Some witness, target, diags) ->
     diags = [] /\
     canSynthesize sema derived requirement = (true, target, []) /\
     witness = deriveEncodable_encode sema (withNominal derived target)) /\
  (forall witness target diags,
     deriveDecodable sema derived requirement
     = (Some witness, target, diags) ->
     diags = [] /\
     canSynthesize sema derived requirement = (true, target, []) /\
     witness = deriveDecodable_init sema (withNominal derived target)) /\
  (forall target notes,
     canSynthesize sema derived requirement = (false, target, notes) ->
     isDerivableNominal (Nominal derived) = true ->
     checkAndDiagnoseDisallowedContext sema requirement = false ->
     (isBaseIdentifier (getBaseName requirement) Id_encode = true ->
      deriveEncodable sema derived requirement
      = (None, target,
         type_does_not_conform (nominalName (Nominal derived))
                               (Protocol derived)
         :: no_witnesses requirement (Protocol derived) :: notes)) /\
     (isConstructorName (getBaseName requirement) = true ->
      deriveDecodable sema derived requirement
      = (None, target,
         type_does_not_conform (nominalName (Nominal derived))
                               (Protocol derived)
         :: no_witnesses requirement (Protocol derived) :: notes))).
Proof.
  split; [|split].
  - intros witness target diags. unfold deriveEncodable.
    destruct (negb (isDerivableNominal (Nominal derived))); [discriminate|].
    destruct (negb (isBaseIdentifier (getBaseName requirement) Id_encode));
      [discriminate|].
    destruct (checkAndDiagnoseDisallowedContext sema requirement);
      [discriminate|].
    destruct (canSynthesize sema derived requirement) as [[ok t] d] eqn:Hcan.
    destruct ok; [|discriminate].
    intros H. injection H as <- <- <-.
    rewrite (canSynthesize_silent _ _ Hcan) in *.
    split; [reflexivity|]. split; reflexivity.
  - intros witness target diags. unfold deriveDecodable.
    destruct (negb (isDerivableNominal (Nominal derived))); [discriminate|].
    destruct (negb (isConstructorName (getBaseName requirement)));
      [discriminate|].
    destruct (checkAndDiagnoseDisallowedContext sema requirement);
      [discriminate|].
    destruct (canSynthesize sema derived requirement) as [[ok t] d] eqn:Hcan.
    destruct ok; [|discriminate].
    intros H. injection H as <- <- <-.
    rewrite (canSynthesize_silent _ _ Hcan) in *.
    split; [reflexivity|]. split; reflexivity.
  - intros target notes Hcan Hnominal Hcontext.
    unfold deriveEncodable, deriveDecodable.
    rewrite Hnominal, Hcontext, Hcan. simpl.
    split; intros ->; reflexivity.
Qed.

(** ** An accepted key enum matches the properties one to one *)

Lemma mapFind_In key (m : PropertyMap) entry :
  mapFind key m = Some entry -> In entry m /\ fst entry = key.
Proof.
  unfold mapFind. intros H. apply find_some in H.
  destruct H as [Hin Hkey]. apply String.eqb_eq in Hkey.
  split; assumption.
Qed.

Lemma mapAssign_entries key var (m : PropertyMap) entry :
  In entry (mapAssign key var m) -> entry = (key, var) \/ In entry m.
Proof.
  induction m as [|[k v] rest IH]; simpl.
  - intros [H|[]]. left. symmetry. exact H.
  - destruct (String.eqb_spec k key) as [->|Hne]; simpl.
    + intros [H|H]; [left; symmetry; exact H | right; right; exact H].
    + intros [H|H]; [right; left; exact H|].
      destruct (IH H) as [E|E]; [left | right; right]; assumption.
Qed.

Lemma collectProperties_entries vars entry : forall properties,
  In entry (collectProperties vars properties) ->
  In entry properties \/
  (In (snd entry) (filter isUserAccessible vars) /\
   fst entry = getVarNameForCoding (snd entry)).
Proof.
  induction vars as [|v rest IH]; intros properties; simpl.
  - intros H. left. exact H.
  - destruct (isUserAccessible v); simpl; [|apply IH].
    intros H. destruct (IH _ H) as [H'|[H1 H2]].
    + destruct (mapAssign_entries _ _ _ _ H') as [->|E].
      * right. split; [left; reflexivity | reflexivity].
      * left. exact E.
    + right. split; [right; exact H1 | exact H2].
Qed.

Lemma validateElements_valid proto : forall elts properties left diags,
  validateElements sema proto elts properties = (left, true, diags) ->
  NoDup (map getBaseIdentifier elts) /\
  (forall elt, In elt elts ->
     exists entry,
       In entry properties /\ fst entry = getBaseIdentifier elt /\
       conformsToProtocol sema
         (mapTypeIntoContext sema (getValueInterfaceType (snd entry))) proto
       = true).
Proof.
  induction elts as [|elt rest IH]; simpl; intros properties left diags H.
  - split; [constructor | intros elt []].
  - destruct (mapFind (getBaseIdentifier elt) properties) as [[k var]|]
      eqn:Hfind.
    + destruct (conformsToProtocol sema
                  (mapTypeIntoContext sema (getValueInterfaceType var))
                  proto) eqn:Hconf; simpl in H.
      * destruct (IH _ _ _ H) as [Hnodup Hall].
        destruct (mapFind_In _ _ Hfind) as [Hin Hkey].
        split.
        -- constructor; [|exact Hnodup]. intros Hdup.
           apply in_map_iff in Hdup. destruct Hdup as (other & Hname & Hother).
           destruct (Hall other Hother) as (entry & Hentry & Hfst & _).
           unfold mapErase in Hentry. apply filter_In in Hentry.
           destruct Hentry as [_ Hne].
           apply negb_true_iff, String.eqb_neq in Hne.
           destruct entry as [key var']. simpl in Hne, Hfst. congruence.
        -- intros e [<-|He].
           ++ exists (k, var). split; [exact Hin|].
              split; [exact Hkey | exact Hconf].
           ++ destruct (Hall e He) as (entry & Hentry & Hrest).
              exists entry. split; [|exact Hrest].
              unfold mapErase in Hentry. apply filter_In in Hentry.
              apply Hentry.
      * destruct (validateElements sema proto rest properties)
          as [[p v] d]. discriminate.
    + destruct (validateElements sema proto rest properties) as [[p v] d].
      discriminate.
Qed.

(** X20.  A key enum that [validateCodingKeysEnum] accepts matches the
    properties one to one: no two of its cases have the same name, and
    every case has the coding name of a user-accessible stored property
    whose type conforms to the protocol being derived. *)
Theorem valid_key_enum_is_one_to_one derived codingKeysDecl :
  fst (validateCodingKeysEnum sema derived codingKeysDecl) = true ->
  NoDup (caseNames codingKeysDecl) /\
  forall name,
    In name (caseNames codingKeysDecl) ->
    exists varDecl,
      In varDecl (accessibleProperties derived) /\
      getVarNameForCoding varDecl = name /\
      conformsToDerived sema derived varDecl = true.
Proof.
  unfold validateCodingKeysEnum, caseNames.
  destruct (validateElements sema (Protocol derived)
              (enumAllElements codingKeysDecl)
              (collectProperties (getStoredProperties (Nominal derived)) []))
    as [[left valid] diags] eqn:Hvalidate.
  destruct valid; simpl; [intros _ | discriminate].
  destruct (validateElements_valid _ _ _ Hvalidate) as [Hnodup Hall].
  split; [exact Hnodup|].
  intros name Hname. apply in_map_iff in Hname.
  destruct Hname as (elt & <- & Helt).
  destruct (Hall elt Helt) as ([k var] & Hentry & Hkey & Hconf).
  destruct (collectProperties_entries _ _ _ Hentry) as [[]|[Hvar Hcoding]].
  simpl in *. exists var. split; [exact Hvar|].
  split; [congruence | exact Hconf].
Qed.

(** X21.  What [canSynthesize] accepts, the body synthesizers can work
    with.  For a struct or class whose [CodingKeys] is classified [Valid],
    the body synthesizers find the same key enum, and every case of it
    names an accessible stored property; when each of these properties is
    declared in the type as a variable that is not static, the lookup of
    the property behind a key never reaches its [llvm_unreachable], the
    body of [encode(to:)] is synthesized, and so are the member statements
    of [init(from:)]. *)
Theorem valid_keys_give_bodies derived :
  isEnumDecl (Nominal derived) = false ->
  fst (classifyCodingKeys sema derived) = Valid ->
  (forall varDecl,
     In varDecl (accessibleProperties derived) ->
     findVarDecl sema
       (lookupDirect (getVarNameForCoding varDecl) (Nominal derived))
     <> None) ->
  exists codingKeysEnum,
    lookupEvaluatedCodingKeysEnum (Nominal derived) Id_CodingKeys
    = Some codingKeysEnum /\
    keysResolve sema (Nominal derived) codingKeysEnum /\
    (exists body,
       deriveBodyEncodable_encode sema (Nominal derived) = Some body) /\
    (exists statements diags,
       decodeMembers sema (Nominal derived) codingKeysEnum containerRef
                     (enumDeclaredInterfaceType codingKeysEnum)
                     (enumAllElements codingKeysEnum)
       = Some (statements, diags)).
Proof.
  intros Henum Hvalid Hdeclared.
  unfold classifyCodingKeys in Hvalid. rewrite Henum in Hvalid.
  destruct (lookupDirect Id_CodingKeys (Nominal derived)) as [|front rest]
    eqn:Hlookup; [discriminate|].
  destruct (validateCodingKeysProtocolConformance sema derived front)
    as [[codingKeysEnum|] diags] eqn:Hconformance; [|discriminate].
  pose proof (validateCodingKeysProtocolConformance_found _ _
                Hconformance Hlookup) as Hfound.
  unfold validateCodingKeysEnum in Hvalid.
  destruct (validateElements sema (Protocol derived)
              (enumAllElements codingKeysEnum)
              (collectProperties (getStoredProperties (Nominal derived)) []))
    as [[left valid] diags'] eqn:Hvalidate.
  destruct valid; [|discriminate]. clear Hvalid.
  destruct (validateElements_valid _ _ _ Hvalidate) as [_ Hall].
  assert (Hresolve : keysResolve sema (Nominal derived) codingKeysEnum).
  { unfold keysResolve. apply Forall_forall. intros elt Helt.
    destruct (Hall elt Helt) as ([k var] & Hentry & Hkey & _).
    destruct (collectProperties_entries _ _ _ Hentry)
      as [[]|[Hvar Hcoding]].
    simpl in Hkey, Hvar, Hcoding.
    unfold lookupVarDeclForCodingKeysCase.
    rewrite <- Hkey, Hcoding. apply Hdeclared, Hvar. }
  exists codingKeysEnum. split; [exact Hfound|]. split; [exact Hresolve|].
  split.
  - unfold deriveBodyEncodable_encode. rewrite Hfound.
    destruct (encodeMembers_total (Nominal derived)
                (DeclRefExpr
                   (localName
                      (createKeyedContainer KeyedEncodingContainer
                         (enumDeclaredInterfaceType codingKeysEnum) Var
                         Id_container)))
                (enumDeclaredInterfaceType codingKeysEnum) Hresolve)
      as (statements & ->).
    eexists. reflexivity.
  - apply decodeMembers_total, Hresolve.
Qed.

(** ** The second run of [canSynthesize] *)


Lemma casesOf_app ms1 ms2 : casesOf (ms1 ++ ms2) = casesOf ms1 ++ casesOf ms2.
Proof.
  induction ms1 as [|[elt|name] rest IH]; simpl; [reflexivity| |exact IH].
  rewrite IH. reflexivity.
Qed.








Section SecondRun.

Variable derived : DerivedConformance.

Hypothesis inheritedCodingKey :
  forall e,
    enumInherited e = [CodingKey] ->
    conformsToProtocol sema (enumDeclaredInterfaceType e) CodingKey = true.

Hypothesis distinctCases :
  NoDup (map getBaseIdentifier (getAllElements (Nominal derived))).

Hypothesis distinctParameters :
  forall elt params,
    In elt (getAllElements (Nominal derived)) ->
    hasAnyUnnamedParameters elt = false ->
    getParameterList elt = Some params ->
    NoDup (map getVarNameForCoding (filter isUserAccessible params)).








End SecondRun.

End Properties.


(** * The properties on the sample programs *)

Lemma non_decoded_member_rejected_witness :
  fst (classifyCodingKeys sampleSema derivedR) = Invalid /\
  fst (fst (deriveDecodable sampleSema derivedR initFrom)) = None /\
  (keyCasesAreValid sampleSema derivedR (userKeyEnum Id_CodingKeys ["x"])
     = true ->
   In (codable_non_decoded_property_here Decodable "y" "y")
      (snd (classifyCodingKeys sampleSema derivedR))).
Proof.
  apply (@non_decoded_member_rejected sampleSema derivedR initFrom
           (EnumMember (userKeyEnum Id_CodingKeys ["x"])) []
           (userKeyEnum Id_CodingKeys ["x"]) []
           ("y", storedVar "y" Int)).
  - reflexivity.
  - reflexivity.
  - reflexivity.
  - reflexivity.
  - simpl. right. left. reflexivity.
  - simpl. intros [H|[]]. discriminate H.
  - reflexivity.
Defined.

Lemma non_decoded_diagnostic_skipped_after_key_error :
  In ("y", storedVar "y" Int)
     (collectProperties (getStoredProperties (Nominal derivedR_extraneous))
                        []) /\
  ~ In "y" (caseNames (userKeyEnum Id_CodingKeys ["x"; "zzz"])) /\
  hasDefaultValue (storedVar "y" Int) = false /\
  classifyCodingKeys sampleSema derivedR_extraneous
    = (Invalid, [codable_extraneous_codingkey_case_here "zzz"]) /\
  ~ In (codable_non_decoded_property_here Decodable "y" "y")
       (snd (classifyCodingKeys sampleSema derivedR_extraneous)).
Proof.
  repeat split.
  - simpl. right. left. reflexivity.
  - simpl. intros [H|[H|[]]]; discriminate H.
  - simpl. intros [H|[]]. discriminate H.
Qed.

Lemma classifyCodingKeys_tagged_union_witness :
  fst (classifyCodingKeys sampleSema derivedE_extraneous) = Valid /\
  forall key,
    In (codable_extraneous_codingkey_case_here key)
       (snd (classifyCodingKeys sampleSema derivedE_extraneous)) ->
    exists elt front' others caseEnum diags',
      In elt (getAllElements (Nominal derivedE_extraneous)) /\
      caseCodingKeysDecls derivedE_extraneous elt = front' :: others /\
      validateCodingKeysProtocolConformance sampleSema derivedE_extraneous
        front' = (Some caseEnum, diags') /\
      In key (caseNames caseEnum).
Proof.
  apply (@classifyCodingKeys_tagged_union sampleSema derivedE_extraneous
           (EnumMember (userKeyEnum Id_CodingKeys ["a"; "zzz"]))
           [] (userKeyEnum Id_CodingKeys ["a"; "zzz"]) []);
    reflexivity.
Defined.

(** The outer [CodingKeys = {a, zzz}] of [enum E { case a }] has the case
    [zzz] that matches no case of the union; it is not diagnosed and the
    classification is [Valid]. *)
Lemma outer_key_enum_not_validated :
  In "zzz" (caseNames (userKeyEnum Id_CodingKeys ["a"; "zzz"])) /\
  ~ In "zzz" (map getBaseIdentifier
                  (getAllElements (Nominal derivedE_extraneous))) /\
  lookupEvaluatedCodingKeysEnum (Nominal derivedE_extraneous) Id_CodingKeys
    = Some (userKeyEnum Id_CodingKeys ["a"; "zzz"]) /\
  classifyCodingKeys sampleSema derivedE_extraneous = (Valid, []) /\
  fst (fst (canSynthesize sampleSema derivedE_extraneous initFrom)) = true.
Proof.
  repeat split.
  - simpl. right. left. reflexivity.
  - simpl. intros [H|[]]. discriminate H.
Qed.

Lemma nested_key_enums_synthesized_witness :
  exists added,
    extendsWith signalEnum
      (snd (fst (synthesizeCodingKeysEnum_enum sampleSema derivedSignal
                   signalEnum)))
      added /\
    (forall elt,
       In elt (getAllElements signalEnum) ->
       needsCaseCodingKeys signalEnum elt = true ->
       exists e,
         In (EnumMember e) added /\
         enumName e
         = combineIdentifiers Id_CodingKeys (getBaseIdentifier elt) /\
         enumIsImplicit e = true) /\
    (forall d,
       In d added ->
       (d = EnumMember (synthesizedOuterCodingKeys signalEnum) /\
        lookupEvaluatedCodingKeysEnum signalEnum Id_CodingKeys = None) \/
       (exists e elt,
          d = EnumMember e /\
          In elt (getAllElements signalEnum) /\
          enumName e
          = combineIdentifiers Id_CodingKeys (getBaseIdentifier elt) /\
          needsCaseCodingKeys signalEnum elt = true)).
Proof.
  apply (@nested_key_enums_synthesized sampleSema derivedSignal signalEnum
           true _ []).
  reflexivity.
Defined.

(** In [enum Signal { case stop; case go(speed: Int); case pair(Int, Int);
    case mixed(x: Int, Int) }] the case [stop] has no parameter and gets the
    empty nested enum [CodingKeys_stop]; the case [mixed] has a named
    parameter and gets none. *)
Lemma parameterless_case_gets_nested_key_enum :
  getParameterList stopCase = None /\
  hasAnyNamedParameters stopCase = false /\
  In (EnumMember (synthesizedKeyEnum "CodingKeys_stop" []))
     (getMembers (snd (fst (synthesizeCodingKeysEnum_enum sampleSema
                              derivedSignal signalEnum)))) /\
  hasAnyNamedParameters mixedCase = true /\
  lookupDirect "CodingKeys_mixed"
     (snd (fst (synthesizeCodingKeysEnum_enum sampleSema derivedSignal
                  signalEnum))) = [] /\
  fst (fst (synthesizeCodingKeysEnum_enum sampleSema derivedSignal
              signalEnum)) = true.
Proof.
  repeat split. simpl. do 5 right. left. reflexivity.
Qed.

Lemma superclass_initializer_precheck_witness :
  canSynthesize sampleSema derivedChild_ambiguous initFrom
    = (false, Nominal derivedChild_ambiguous, []) /\
  fst (fst (deriveDecodable sampleSema derivedChild_ambiguous initFrom))
    = None.
Proof.
  exact (proj1 (proj2 (@superclass_initializer_precheck sampleSema
                         derivedChild_ambiguous initFrom
                         (subclassOf ambiguousBase) ambiguousBase
                         eq_refl eq_refl eq_refl))
               plainInit plainInit [] eq_refl).
Defined.

(** [class Child : Base] where the lookup of [init()] in [Base] has two
    results: [canSynthesize] returns false without a diagnostic of its
    own, and only the two diagnostics posted before it are left. *)
Lemma ambiguous_super_init_has_no_diagnostic :
  lookupMember sampleSema ambiguousBase initNoArguments
    = [plainInit; plainInit] /\
  canSynthesize sampleSema derivedChild_ambiguous initFrom
    = (false, childOfAmbiguousBase, []) /\
  deriveDecodable sampleSema derivedChild_ambiguous initFrom
    = (None, childOfAmbiguousBase,
       [type_does_not_conform "Child" Decodable;
        no_witnesses initFrom Decodable]).
Proof.
  repeat split.
Qed.


(** S3, [class Dog : Animal { var name: String }] with [Animal] Codable:
    both bodies end with the call to the superclass. *)
Lemma super_call_closes_body_witness :
  (exists members diags,
     decodeMembers sampleSema dogClass (userKeyEnum Id_CodingKeys ["name"])
                   containerRef
                   (enumDeclaredInterfaceType
                      (userKeyEnum Id_CodingKeys ["name"]))
                   (enumAllElements (userKeyEnum Id_CodingKeys ["name"]))
       = Some (members, diags) /\
     deriveBodyDecodable_init sampleSema dogClass
       = Some ((match enumAllElements
                        (userKeyEnum Id_CodingKeys ["name"]) with
                | [] => []
                | _ :: _ =>
                    decodePrelude sampleSema
                      (decodingContainerDecl
                         (userKeyEnum Id_CodingKeys ["name"]))
                      (userKeyEnum Id_CodingKeys ["name"]) ++ members
                end) ++ [superInitFromStatement containerRef],
               diags)) /\
  (exists members,
     encodeMembers sampleSema dogClass containerRef
                   (enumDeclaredInterfaceType
                      (userKeyEnum Id_CodingKeys ["name"]))
                   (enumAllElements (userKeyEnum Id_CodingKeys ["name"]))
       = Some members /\
     deriveBodyEncodable_encode sampleSema dogClass
       = Some (encodePrelude sampleSema
                 (encodingContainerDecl (userKeyEnum Id_CodingKeys ["name"]))
                 (userKeyEnum Id_CodingKeys ["name"])
               ++ members ++ [superEncodeStatement containerRef])) /\
  deriveBodyDecodable_init sampleSema dogClass
  = Some
      ([PatternBindingNode
          (NamedPattern
             {| localIntroducer := Let;
                localName := "container";
                localInterfaceType := KeyedDecodingContainer
                  (NominalType "CodingKeys");
                localIsSynthesized := true |})
          (TryExpr
             (CallExpr
                (UnresolvedDotExpr
                   (DeclRefExpr "decoder")
                   (BaseIdentifier "container")
                   (Some ["keyedBy"]))
                [DotSelfExpr (TypeExpr (NominalType "CodingKeys"))]
                ["keyedBy"]));
        VarDeclNode
          {| localIntroducer := Let;
             localName := "container";
             localInterfaceType := KeyedDecodingContainer
               (NominalType "CodingKeys");
             localIsSynthesized := true |};
        ExprNode
          (AssignExpr
             (UnresolvedDotExpr
                (DeclRefExpr "self")
                (BaseIdentifier "name")
                None)
             (TryExpr
                (CallExpr
                   (UnresolvedDotExpr
                      (DeclRefExpr "container")
                      (BaseIdentifier "decode")
                      (Some [emptyIdentifier; "forKey"]))
                   [DotSelfExpr (TypeExpr (NominalType "String"));
                    MemberRefExpr
                      (TypeExpr (NominalType "CodingKeys"))
                      "name"]
                   [emptyIdentifier; "forKey"])));
        ExprNode
          (TryExpr
             (CallExpr
                (UnresolvedDotExpr SuperRefExpr BaseConstructor
                   (Some ["from"]))
                [CallExpr
                   (UnresolvedDotExpr
                      (DeclRefExpr "container")
                      (BaseIdentifier "superDecoder")
                      None)
                   []
                   []]
                ["from"]))],
       []) /\
  deriveBodyEncodable_encode sampleSema dogClass
  = Some
      [PatternBindingNode
         (NamedPattern
            {| localIntroducer := Var;
               localName := "container";
               localInterfaceType := KeyedEncodingContainer
                 (NominalType "CodingKeys");
               localIsSynthesized := true |})
         (CallExpr
            (UnresolvedDotExpr
               (DeclRefExpr "encoder")
               (BaseIdentifier "container")
               (Some ["keyedBy"]))
            [DotSelfExpr (TypeExpr (NominalType "CodingKeys"))]
            ["keyedBy"]);
       VarDeclNode
         {| localIntroducer := Var;
            localName := "container";
            localInterfaceType := KeyedEncodingContainer
              (NominalType "CodingKeys");
            localIsSynthesized := true |};
       ExprNode
         (TryExpr
            (CallExpr
               (UnresolvedDotExpr
                  (DeclRefExpr "container")
                  (BaseIdentifier "encode")
                  (Some [emptyIdentifier; "forKey"]))
               [MemberRefExpr (DeclRefExpr "self") "name";
                MemberRefExpr (TypeExpr (NominalType "CodingKeys")) "name"]
               [emptyIdentifier; "forKey"]));
       ExprNode
         (TryExpr
            (CallExpr
               (DotSyntaxCallExpr SuperRefExpr (DeclRefExpr "encode"))
               [DotSyntaxCallExpr
                  (DeclRefExpr "container")
                  (UnresolvedDeclRefExpr "superEncoder")]
               ["to"]))].
Proof.
  assert (Hresolve : keysResolve sampleSema dogClass
                       (userKeyEnum Id_CodingKeys ["name"])).
  { unfold keysResolve. simpl. constructor; [discriminate | constructor]. }
  pose proof (@super_call_closes_body sampleSema dogClass
                (userKeyEnum Id_CodingKeys ["name"]) eq_refl Hresolve)
    as [Hinit Hencode].
  split; [exact (Hinit eq_refl)|].
  split; [exact (Hencode eq_refl)|].
  split; reflexivity.
Defined.

(** S3, [class Dog : Animal { var name: String }]: the body of
    [init(from:)] is the prelude, the statement that decodes [name], and
    the call to [super.init(from:)] last.  The statement after the prelude
    is not the call to the superclass. *)
Lemma super_init_is_not_first_statement :
  superclassConformsTo sampleSema (asClassDecl dogClass) Decodable = true /\
  deriveBodyDecodable_init sampleSema dogClass
  = Some (decodePrelude sampleSema
            (decodingContainerDecl (userKeyEnum Id_CodingKeys ["name"]))
            (userKeyEnum Id_CodingKeys ["name"]) ++
          [decodeMemberStatement containerRef (NominalType Id_CodingKeys)
             (userCase "name" None) (storedVar "name" String_) String_ false;
           superInitFromStatement containerRef],
          []) /\
  nth_error (fst (statementsAndDiagnosticsOf
                    (deriveBodyDecodable_init sampleSema dogClass))) 0
    <> Some (superInitFromStatement containerRef) /\
  nth_error (fst (statementsAndDiagnosticsOf
                    (deriveBodyDecodable_init sampleSema dogClass))) 2
    <> Some (superInitFromStatement containerRef).
Proof.
  repeat split; simpl; discriminate.
Qed.

(** S5 with its outer key enum, [enum P { case pair(Int, Int) }]: the
    whole body of [init(from:)].  The default arm calls [fatalError] with
    the message [foo]; no decoding error is built or thrown. *)
Lemma default_arm_is_fatal_error_witness :
  deriveBodyDecodable_enum_init sampleSema pairEnum_synthesized
  = Some
      [PatternBindingNode
         (NamedPattern
            {| localIntroducer := Let;
               localName := "container";
               localInterfaceType := KeyedDecodingContainer
                 (NominalType "CodingKeys");
               localIsSynthesized := true |})
         (TryExpr
            (CallExpr
               (UnresolvedDotExpr
                  (DeclRefExpr "decoder")
                  (BaseIdentifier "container")
                  (Some ["keyedBy"]))
               [DotSelfExpr (TypeExpr (NominalType "CodingKeys"))]
               ["keyedBy"]));
       VarDeclNode
         {| localIntroducer := Let;
            localName := "container";
            localInterfaceType := KeyedDecodingContainer
              (NominalType "CodingKeys");
            localIsSynthesized := true |};
       SwitchNode
         (UnresolvedDotExpr
            (UnresolvedDotExpr
               (DeclRefExpr "container")
               (BaseIdentifier "allKeys")
               None)
            (BaseIdentifier "first")
            None)
         [(CaseLabel
             (OptionalSomePattern
                (EnumElementPattern (NominalType "CodingKeys") "pair")),
           [PatternBindingNode
              (NamedPattern
                 {| localIntroducer := Var;
                    localName := "nestedContainer";
                    localInterfaceType := UnkeyedDecodingContainer;
                    localIsSynthesized := false |})
              (TryExpr
                 (CallExpr
                    (UnresolvedDotExpr
                       (DeclRefExpr "container")
                       (BaseIdentifier "nestedUnkeyedContainer")
                       (Some ["forKey"]))
                    [MemberRefExpr
                       (TypeExpr (NominalType "CodingKeys"))
                       "pair"]
                    ["forKey"]));
            VarDeclNode
              {| localIntroducer := Var;
                 localName := "nestedContainer";
                 localInterfaceType := UnkeyedDecodingContainer;
                 localIsSynthesized := false |};
            ExprNode
              (AssignExpr
                 (DeclRefExpr "self")
                 (CallExpr
                    (UnresolvedDotExpr
                       (TypeExpr (NominalType "P"))
                       (BaseIdentifier "pair")
                       (Some [emptyIdentifier; emptyIdentifier]))
                    [TryExpr
                       (CallExpr
                          (UnresolvedDotExpr
                             (DeclRefExpr "nestedContainer")
                             (BaseIdentifier "decode")
                             (Some [emptyIdentifier]))
                          [DotSelfExpr (TypeExpr (NominalType "Int"))]
                          [emptyIdentifier]);
                     TryExpr
                       (CallExpr
                          (UnresolvedDotExpr
                             (DeclRefExpr "nestedContainer")
                             (BaseIdentifier "decode")
                             (Some [emptyIdentifier]))
                          [DotSelfExpr (TypeExpr (NominalType "Int"))]
                          [emptyIdentifier])]
                    [emptyIdentifier; emptyIdentifier]))]);
          (DefaultLabel AnyPattern,
           [ExprNode
              (CallExpr
                 (DeclRefExpr "fatalError")
                 [StringLiteralExpr "foo"]
                 [emptyIdentifier])])]] /\
  (exists cases,
     statementsOf (deriveBodyDecodable_enum_init sampleSema
                     pairEnum_synthesized)
     = decodePrelude sampleSema
         (decodingContainerDecl (synthesizedKeyEnum Id_CodingKeys ["pair"]))
         (synthesizedKeyEnum Id_CodingKeys ["pair"])
       ++ [SwitchNode
             (UnresolvedDotExpr
                (UnresolvedDotExpr containerRef (BaseIdentifier Id_allKeys)
                                   None)
                (BaseIdentifier Id_first) None)
             cases]) /\
  (exists arms,
     switchCasesOf (statementsOf (deriveBodyDecodable_enum_init sampleSema
                                    pairEnum_synthesized))
     = arms ++
       [(DefaultLabel AnyPattern,
         [ExprNode (CallExpr (DeclRefExpr "fatalError")
                             [StringLiteralExpr "foo"]
                             [emptyIdentifier])])] /\
     Forall (fun arm : CaseStmt =>
               exists pattern, fst arm = CaseLabel pattern) arms).
Proof.
  pose proof (@default_arm_is_fatal_error sampleSema pairEnum_synthesized
                (statementsOf (deriveBodyDecodable_enum_init sampleSema
                                 pairEnum_synthesized))
                eq_refl) as [Hbody Harms].
  split; [reflexivity|]. split.
  - exact (Hbody (synthesizedKeyEnum Id_CodingKeys ["pair"]) eq_refl
                 eq_refl).
  - apply (Harms allKeysFirst
                 (switchCasesOf
                    (statementsOf (deriveBodyDecodable_enum_init sampleSema
                                     pairEnum_synthesized)))).
    simpl. right. right. left. reflexivity.
Defined.



(** [record Config { let version: Int = 1; var name: String }] with
    [CodingKeys = {version, name}]: [version] has a key and takes part in
    serialization, [encode(to:)] writes it with [encode]; [init(from:)]
    has no statement for it, neither with [decode] nor with
    [decodeIfPresent], and warns that it will not be decoded. *)
Lemma initialized_constant_is_not_decoded :
  lookupVarDeclForCodingKeysCase sampleSema (userCase "version" None)
                                 configRecord
  = Some (constantVar "version" Int, Int, false) /\
  deriveBodyEncodable_encode sampleSema configRecord
  = Some
      [PatternBindingNode
         (NamedPattern
            {| localIntroducer := Var;
               localName := "container";
               localInterfaceType := KeyedEncodingContainer
                 (NominalType "CodingKeys");
               localIsSynthesized := true |})
         (CallExpr
            (UnresolvedDotExpr
               (DeclRefExpr "encoder")
               (BaseIdentifier "container")
               (Some ["keyedBy"]))
            [DotSelfExpr (TypeExpr (NominalType "CodingKeys"))]
            ["keyedBy"]);
       VarDeclNode
         {| localIntroducer := Var;
            localName := "container";
            localInterfaceType := KeyedEncodingContainer
              (NominalType "CodingKeys");
            localIsSynthesized := true |};
       ExprNode
         (TryExpr
            (CallExpr
               (UnresolvedDotExpr
                  (DeclRefExpr "container")
                  (BaseIdentifier "encode")
                  (Some [emptyIdentifier; "forKey"]))
               [MemberRefExpr (DeclRefExpr "self") "version";
                MemberRefExpr
                  (TypeExpr (NominalType "CodingKeys"))
                  "version"]
               [emptyIdentifier; "forKey"]));
       ExprNode
         (TryExpr
            (CallExpr
               (UnresolvedDotExpr
                  (DeclRefExpr "container")
                  (BaseIdentifier "encode")
                  (Some [emptyIdentifier; "forKey"]))
               [MemberRefExpr (DeclRefExpr "self") "name";
                MemberRefExpr (TypeExpr (NominalType "CodingKeys")) "name"]
               [emptyIdentifier; "forKey"]))] /\
  deriveBodyDecodable_init sampleSema configRecord
  = Some
      ([PatternBindingNode
          (NamedPattern
             {| localIntroducer := Let;
                localName := "container";
                localInterfaceType := KeyedDecodingContainer
                  (NominalType "CodingKeys");
                localIsSynthesized := true |})
          (TryExpr
             (CallExpr
                (UnresolvedDotExpr
                   (DeclRefExpr "decoder")
                   (BaseIdentifier "container")
                   (Some ["keyedBy"]))
                [DotSelfExpr (TypeExpr (NominalType "CodingKeys"))]
                ["keyedBy"]));
        VarDeclNode
          {| localIntroducer := Let;
             localName := "container";
             localInterfaceType := KeyedDecodingContainer
               (NominalType "CodingKeys");
             localIsSynthesized := true |};
        ExprNode
          (AssignExpr
             (UnresolvedDotExpr
                (DeclRefExpr "self")
                (BaseIdentifier "name")
                None)
             (TryExpr
                (CallExpr
                   (UnresolvedDotExpr
                      (DeclRefExpr "container")
                      (BaseIdentifier "decode")
                      (Some [emptyIdentifier; "forKey"]))
                   [DotSelfExpr (TypeExpr (NominalType "String"));
                    MemberRefExpr
                      (TypeExpr (NominalType "CodingKeys"))
                      "name"]
                   [emptyIdentifier; "forKey"])))],
       [decodable_property_will_not_be_decoded "version";
        decodable_property_init_or_codingkeys_explicit "version";
        decodable_make_property_mutable "version"]) /\
  forall src,
    ~ In (ExprNode
            (AssignExpr
               (UnresolvedDotExpr (DeclRefExpr "self")
                                  (BaseIdentifier "version") None)
               src))
         (fst (statementsAndDiagnosticsOf
                 (deriveBodyDecodable_init sampleSema configRecord))).
Proof.
  split; [reflexivity|]. split; [reflexivity|]. split; [reflexivity|].
  intros src [H|[H|[H|[]]]]; discriminate H.
Qed.

(** S2, [record User { name: String; nick: Optional<String> }]: [name]
    goes through [encode] and [decode], [nick] through [encodeIfPresent]
    and [decodeIfPresent] at [String].  [record Config]: the constant
    [version] has no statement in [init(from:)]. *)
Lemma if_present_variant_selection_witness :
  (exists opening closing,
     length opening = 2 /\ length closing <= 1 /\
     deriveBodyEncodable_encode sampleSema userRecord
     = Some (opening
             ++ [ExprNode
                   (TryExpr
                      (CallExpr
                         (UnresolvedDotExpr
                            (DeclRefExpr "container")
                            (BaseIdentifier "encode")
                            (Some [emptyIdentifier; "forKey"]))
                         [MemberRefExpr (DeclRefExpr "self") "name";
                          MemberRefExpr
                            (TypeExpr (NominalType "CodingKeys"))
                            "name"]
                         [emptyIdentifier; "forKey"]));
                 ExprNode
                   (TryExpr
                      (CallExpr
                         (UnresolvedDotExpr
                            (DeclRefExpr "container")
                            (BaseIdentifier "encodeIfPresent")
                            (Some [emptyIdentifier; "forKey"]))
                         [MemberRefExpr (DeclRefExpr "self") "nick";
                          MemberRefExpr
                            (TypeExpr (NominalType "CodingKeys"))
                            "nick"]
                         [emptyIdentifier; "forKey"]))]
             ++ closing)) /\
  (exists opening closing diags,
     length opening <= 2 /\ length closing <= 1 /\
     deriveBodyDecodable_init sampleSema userRecord
     = Some (opening
             ++ [ExprNode
                   (AssignExpr
                      (UnresolvedDotExpr
                         (DeclRefExpr "self")
                         (BaseIdentifier "name")
                         None)
                      (TryExpr
                         (CallExpr
                            (UnresolvedDotExpr
                               (DeclRefExpr "container")
                               (BaseIdentifier "decode")
                               (Some [emptyIdentifier; "forKey"]))
                            [DotSelfExpr
                               (TypeExpr (NominalType "String"));
                             MemberRefExpr
                               (TypeExpr (NominalType "CodingKeys"))
                               "name"]
                            [emptyIdentifier; "forKey"])));
                 ExprNode
                   (AssignExpr
                      (UnresolvedDotExpr
                         (DeclRefExpr "self")
                         (BaseIdentifier "nick")
                         None)
                      (TryExpr
                         (CallExpr
                            (UnresolvedDotExpr
                               (DeclRefExpr "container")
                               (BaseIdentifier "decodeIfPresent")
                               (Some [emptyIdentifier; "forKey"]))
                            [DotSelfExpr
                               (TypeExpr (NominalType "String"));
                             MemberRefExpr
                               (TypeExpr (NominalType "CodingKeys"))
                               "nick"]
                            [emptyIdentifier; "forKey"])))]
             ++ closing,
             diags)) /\
  (exists opening closing diags,
     length opening <= 2 /\ length closing <= 1 /\
     deriveBodyDecodable_init sampleSema configRecord
     = Some (opening
             ++ [ExprNode
                   (AssignExpr
                      (UnresolvedDotExpr
                         (DeclRefExpr "self")
                         (BaseIdentifier "name")
                         None)
                      (TryExpr
                         (CallExpr
                            (UnresolvedDotExpr
                               (DeclRefExpr "container")
                               (BaseIdentifier "decode")
                               (Some [emptyIdentifier; "forKey"]))
                            [DotSelfExpr
                               (TypeExpr (NominalType "String"));
                             MemberRefExpr
                               (TypeExpr (NominalType "CodingKeys"))
                               "name"]
                            [emptyIdentifier; "forKey"])))]
             ++ closing,
             diags)) /\
  deriveBodyEncodable_encode sampleSema userRecord
  = Some
      [PatternBindingNode
         (NamedPattern
            {| localIntroducer := Var;
               localName := "container";
               localInterfaceType := KeyedEncodingContainer
                 (NominalType "CodingKeys");
               localIsSynthesized := true |})
         (CallExpr
            (UnresolvedDotExpr
               (DeclRefExpr "encoder")
               (BaseIdentifier "container")
               (Some ["keyedBy"]))
            [DotSelfExpr (TypeExpr (NominalType "CodingKeys"))]
            ["keyedBy"]);
       VarDeclNode
         {| localIntroducer := Var;
            localName := "container";
            localInterfaceType := KeyedEncodingContainer
              (NominalType "CodingKeys");
            localIsSynthesized := true |};
       ExprNode
         (TryExpr
            (CallExpr
               (UnresolvedDotExpr
                  (DeclRefExpr "container")
                  (BaseIdentifier "encode")
                  (Some [emptyIdentifier; "forKey"]))
               [MemberRefExpr (DeclRefExpr "self") "name";
                MemberRefExpr (TypeExpr (NominalType "CodingKeys")) "name"]
               [emptyIdentifier; "forKey"]));
       ExprNode
         (TryExpr
            (CallExpr
               (UnresolvedDotExpr
                  (DeclRefExpr "container")
                  (BaseIdentifier "encodeIfPresent")
                  (Some [emptyIdentifier; "forKey"]))
               [MemberRefExpr (DeclRefExpr "self") "nick";
                MemberRefExpr (TypeExpr (NominalType "CodingKeys")) "nick"]
               [emptyIdentifier; "forKey"]))] /\
  deriveBodyDecodable_init sampleSema userRecord
  = Some
      ([PatternBindingNode
          (NamedPattern
             {| localIntroducer := Let;
                localName := "container";
                localInterfaceType := KeyedDecodingContainer
                  (NominalType "CodingKeys");
                localIsSynthesized := true |})
          (TryExpr
             (CallExpr
                (UnresolvedDotExpr
                   (DeclRefExpr "decoder")
                   (BaseIdentifier "container")
                   (Some ["keyedBy"]))
                [DotSelfExpr (TypeExpr (NominalType "CodingKeys"))]
                ["keyedBy"]));
        VarDeclNode
          {| localIntroducer := Let;
             localName := "container";
             localInterfaceType := KeyedDecodingContainer
               (NominalType "CodingKeys");
             localIsSynthesized := true |};
        ExprNode
          (AssignExpr
             (UnresolvedDotExpr
                (DeclRefExpr "self")
                (BaseIdentifier "name")
                None)
             (TryExpr
                (CallExpr
                   (UnresolvedDotExpr
                      (DeclRefExpr "container")
                      (BaseIdentifier "decode")
                      (Some [emptyIdentifier; "forKey"]))
                   [DotSelfExpr (TypeExpr (NominalType "String"));
                    MemberRefExpr
                      (TypeExpr (NominalType "CodingKeys"))
                      "name"]
                   [emptyIdentifier; "forKey"])));
        ExprNode
          (AssignExpr
             (UnresolvedDotExpr
                (DeclRefExpr "self")
                (BaseIdentifier "nick")
                None)
             (TryExpr
                (CallExpr
                   (UnresolvedDotExpr
                      (DeclRefExpr "container")
                      (BaseIdentifier "decodeIfPresent")
                      (Some [emptyIdentifier; "forKey"]))
                   [DotSelfExpr (TypeExpr (NominalType "String"));
                    MemberRefExpr
                      (TypeExpr (NominalType "CodingKeys"))
                      "nick"]
                   [emptyIdentifier; "forKey"])))],
       []).
Proof.
  assert (Huser : keysResolve sampleSema userRecord
                    (userKeyEnum Id_CodingKeys ["name"; "nick"])).
  { unfold keysResolve. simpl. repeat constructor; discriminate. }
  assert (Hconfig : keysResolve sampleSema configRecord configKeys).
  { unfold keysResolve. simpl. repeat constructor; discriminate. }
  pose proof (@if_present_variant_selection sampleSema userRecord
                (userKeyEnum Id_CodingKeys ["name"; "nick"]) eq_refl Huser)
    as [Hencode Hdecode].
  pose proof (@if_present_variant_selection sampleSema configRecord
                configKeys eq_refl Hconfig) as [_ Hconstant].
  split; [exact Hencode|].
  split; [apply Hdecode; intros classDecl superclassDecl H; discriminate H|].
  split; [apply Hconstant; intros classDecl superclassDecl H;
          discriminate H|].
  split; reflexivity.
Defined.

(** [record Empty {}] with [CodingKeys = {}]: [encode(to:)] is the
    binding of [container] and its declaration, [init(from:)] is empty.
    S2, [record User]: both bodies begin with the binding of [container]. *)
Lemma container_prelude_witness :
  deriveBodyEncodable_encode sampleSema emptyRecord
  = Some
      [PatternBindingNode
         (NamedPattern
            {| localIntroducer := Var;
               localName := "container";
               localInterfaceType := KeyedEncodingContainer
                 (NominalType "CodingKeys");
               localIsSynthesized := true |})
         (CallExpr
            (UnresolvedDotExpr
               (DeclRefExpr "encoder")
               (BaseIdentifier "container")
               (Some ["keyedBy"]))
            [DotSelfExpr (TypeExpr (NominalType "CodingKeys"))]
            ["keyedBy"]);
       VarDeclNode
         {| localIntroducer := Var;
            localName := "container";
            localInterfaceType := KeyedEncodingContainer
              (NominalType "CodingKeys");
            localIsSynthesized := true |}] /\
  (exists superStatements,
     deriveBodyDecodable_init sampleSema emptyRecord
     = Some (superStatements, []) /\
     length superStatements <= 1 /\
     Forall isExprNode superStatements) /\
  deriveBodyDecodable_init sampleSema emptyRecord = Some ([], []) /\
  deriveBodyDecodable_enum_init sampleSema emptyRecord = Some [] /\
  (exists rest,
     deriveBodyEncodable_encode sampleSema userRecord
     = Some ([PatternBindingNode
               (NamedPattern
                  {| localIntroducer := Var;
                     localName := "container";
                     localInterfaceType := KeyedEncodingContainer
                       (NominalType "CodingKeys");
                     localIsSynthesized := true |})
               (CallExpr
                  (UnresolvedDotExpr
                     (DeclRefExpr "encoder")
                     (BaseIdentifier "container")
                     (Some ["keyedBy"]))
                  [DotSelfExpr (TypeExpr (NominalType "CodingKeys"))]
                  ["keyedBy"]);
             VarDeclNode
               {| localIntroducer := Var;
                  localName := "container";
                  localInterfaceType := KeyedEncodingContainer
                    (NominalType "CodingKeys");
                  localIsSynthesized := true |}]
             ++ rest)) /\
  (exists rest diags,
     deriveBodyDecodable_init sampleSema userRecord
     = Some ([PatternBindingNode
               (NamedPattern
                  {| localIntroducer := Let;
                     localName := "container";
                     localInterfaceType := KeyedDecodingContainer
                       (NominalType "CodingKeys");
                     localIsSynthesized := true |})
               (TryExpr
                  (CallExpr
                     (UnresolvedDotExpr
                        (DeclRefExpr "decoder")
                        (BaseIdentifier "container")
                        (Some ["keyedBy"]))
                     [DotSelfExpr (TypeExpr (NominalType "CodingKeys"))]
                     ["keyedBy"]));
             VarDeclNode
               {| localIntroducer := Let;
                  localName := "container";
                  localInterfaceType := KeyedDecodingContainer
                    (NominalType "CodingKeys");
                  localIsSynthesized := true |}]
             ++ rest,
             diags)).
Proof.
  assert (Huser : keysResolve sampleSema userRecord
                    (userKeyEnum Id_CodingKeys ["name"; "nick"])).
  { unfold keysResolve. simpl. repeat constructor; discriminate. }
  pose proof (@container_prelude sampleSema emptyRecord
                (userKeyEnum Id_CodingKeys []) eq_refl)
    as (_ & Hencode & _ & Hdecode & Henum).
  pose proof (@container_prelude sampleSema userRecord
                (userKeyEnum Id_CodingKeys ["name"; "nick"]) eq_refl)
    as (Hencode' & _ & Hdecode' & _).
  split; [exact (Hencode eq_refl)|].
  split; [apply (Hdecode eq_refl); intros classDecl superclassDecl H;
          discriminate H|].
  split; [reflexivity|].
  split; [exact (Henum eq_refl)|].
  split; [exact (Hencode' Huser)|].
  apply Hdecode'; [discriminate | exact Huser |].
  intros classDecl superclassDecl H. discriminate H.
Defined.


(** S3, [class Dog : Animal]: [init(from:)] is required and [encode(to:)]
    overrides.  S2, [record User]: neither has an attribute. *)
Lemma synthesized_witness_attributes_witness :
  deriveDecodable sampleSema derivedDog initFrom
  = (Some {| initName := {| getBaseName := BaseConstructor;
                            getArgumentNames := ["from"] |};
             initIsFailable := false;
             initThrows := true;
             initAttrs := [RequiredAttr true];
             initAccess := Internal;
             initBodySynthesizer := BodyDecodable_init |},
     dogClass, []) /\
  deriveEncodable sampleSema derivedDog_encodable encodeTo
  = (Some {| funcName := {| getBaseName := BaseIdentifier "encode";
                            getArgumentNames := ["to"] |};
             funcIsAsync := false;
             funcThrows := true;
             funcAttrs := [OverrideAttr true];
             funcAccess := Internal;
             funcBodySynthesizer := BodyEncodable_encode |},
     dogClass, []) /\
  deriveDecodable sampleSema
    {| Nominal := userRecord; Protocol := Decodable |} initFrom
  = (Some {| initName := {| getBaseName := BaseConstructor;
                            getArgumentNames := ["from"] |};
             initIsFailable := false;
             initThrows := true;
             initAttrs := [];
             initAccess := Internal;
             initBodySynthesizer := BodyDecodable_init |},
     userRecord, []) /\
  deriveEncodable sampleSema derivedUser encodeTo
  = (Some {| funcName := {| getBaseName := BaseIdentifier "encode";
                            getArgumentNames := ["to"] |};
             funcIsAsync := false;
             funcThrows := true;
             funcAttrs := [];
             funcAccess := Internal;
             funcBodySynthesizer := BodyEncodable_encode |},
     userRecord, []).
Proof.
  split; [|split; [|split]].
  - exact (proj1 (@synthesized_witness_attributes sampleSema derivedDog
                    initFrom eq_refl eq_refl eq_refl) eq_refl).
  - exact (proj2 (@synthesized_witness_attributes sampleSema
                    derivedDog_encodable encodeTo eq_refl eq_refl eq_refl)
                 eq_refl).
  - exact (proj1 (@synthesized_witness_attributes sampleSema
                    {| Nominal := userRecord; Protocol := Decodable |}
                    initFrom eq_refl eq_refl eq_refl) eq_refl).
  - exact (proj2 (@synthesized_witness_attributes sampleSema derivedUser
                    encodeTo eq_refl eq_refl eq_refl) eq_refl).
Defined.

(** ** Further properties on the sample programs *)

(** [record Point { x: Int; y: Int }] asks for synthesis: it has no member
    named [CodingKeys]. *)
Lemma classifyCodingKeys_outcomes_witness :
  fst (classifyCodingKeys sampleSema derivedPoint)
  = NeedsSynthesizedCodingKeys <->
  lookupDirect Id_CodingKeys (Nominal derivedPoint) = [].
Proof.
  exact (proj2 (@classifyCodingKeys_outcomes sampleSema derivedPoint)
               eq_refl).
Defined.

(** [class Child : Base] with two results for [init()] in [Base]: the
    failure without diagnostic. *)
Lemma canSynthesize_reports_witness :
  exists classDecl superclassDecl first second others,
    asClassDecl (Nominal derivedChild_ambiguous) = Some classDecl /\
    getSuperclassDecl classDecl = Some superclassDecl /\
    lookupMember sampleSema superclassDecl
      (if conformsToProtocol sampleSema
            (superclassDeclaredInterfaceType superclassDecl)
            (Protocol derivedChild_ambiguous)
       then initFrom else initNoArguments)
    = first :: second :: others.
Proof.
  exact (proj2 (proj2 (@canSynthesize_reports sampleSema
                         derivedChild_ambiguous initFrom false
                         childOfAmbiguousBase [] eq_refl))
               eq_refl eq_refl).
Defined.

(** S1, [record Point]: the enum [CodingKeys = {x, y}] is added.
    [struct Box<T> { var count: Int; var value: T }]: nothing is added, and
    the diagnostic names the type of [value] in context. *)
Lemma synthesizeCodingKeysEnum_all_or_nothing_witness :
  synthesizeCodingKeysEnum sampleSema derivedPoint
  = (true,
     addMember
       (EnumMember (implicitKeyEnum Id_CodingKeys true ["x"; "y"]))
       pointRecord,
     []) /\
  synthesizeCodingKeysEnum genericSema derivedBox
  = (false, boxRecord,
     [codable_non_conforming_property_here Encodable "value"
        (NominalType "T.Archetype")]).
Proof.
  split.
  - exact (@synthesizeCodingKeysEnum_all_or_nothing sampleSema derivedPoint
             eq_refl).
  - exact (@synthesizeCodingKeysEnum_all_or_nothing genericSema derivedBox
             eq_refl).
Defined.

(** The same type in the diagnostics of the validator and of the synthesis
    for an enum: [struct Box<T>] with [CodingKeys = {count, value}], and
    [enum Maybe<T> { case just(value: T) }]. *)
Lemma non_conforming_property_is_named_in_context :
  classifyCodingKeys genericSema
    {| Nominal := boxRecord_keyed; Protocol := Decodable |}
  = (Invalid,
     [codable_non_conforming_property_here Decodable "value"
        (NominalType "T.Archetype")]) /\
  snd (synthesizeCodingKeysEnum genericSema
         {| Nominal := maybeEnum; Protocol := Decodable |})
  = [codable_non_conforming_property_here Decodable "value"
       (NominalType "T.Archetype")].
Proof.
  split; reflexivity.
Qed.

Lemma synthesized_keys_are_valid_witness :
  fst (fst (synthesizeCodingKeysEnum sampleSema derivedPoint)) = true /\
  classifyCodingKeys sampleSema
    (withNominal derivedPoint
       (snd (fst (synthesizeCodingKeysEnum sampleSema derivedPoint))))
  = (Valid, []).
Proof.
  apply (@synthesized_keys_are_valid sampleSema derivedPoint);
    try reflexivity.
  simpl. repeat constructor; simpl; intuition discriminate.
Defined.

(** [class Puppy : Animal { var name: String }]: the synthesized key enum
    is [{super, name}], and there is no property [super]. *)
Lemma super_key_has_no_property_witness :
  fst (fst (synthesizeCodingKeysEnum sampleSema derivedPuppy)) = true /\
  deriveBodyEncodable_encode sampleSema
    (snd (fst (synthesizeCodingKeysEnum sampleSema derivedPuppy))) = None /\
  deriveBodyDecodable_init sampleSema
    (snd (fst (synthesizeCodingKeysEnum sampleSema derivedPuppy))) = None.
Proof.
  destruct (@super_key_has_no_property sampleSema derivedPuppy
              eq_refl eq_refl eq_refl eq_refl) as (H1 & H2 & H3 & _).
  split; [exact H1|]. split; [exact H2 | exact H3].
Defined.

(** [case boost(speed: Int, extra: Int = 0)] with
    [CodingKeys_boost = {speed}]. *)
Lemma validated_case_is_decodable_witness :
  exists decodeCalls,
    decodeKeyedParams sampleSema (nestedDecodingContainer boostKeys)
                      boostKeys
                      [caseParam "speed" Int; defaultedParam "extra" Int]
    = Some (decodeCalls, ["speed"; "extra"]) /\
    length decodeCalls = 2.
Proof.
  apply (@validated_case_is_decodable sampleSema derivedSignal boostCase
           [caseParam "speed" Int; defaultedParam "extra" Int] boostKeys
           (nestedDecodingContainer boostKeys));
    try reflexivity.
  - repeat constructor.
  - simpl. repeat constructor; simpl; intuition discriminate.
  - simpl. repeat constructor; simpl; intuition discriminate.
Defined.

(** S5: the one arm of [enum P { case pair(Int, Int) }] before the default
    one. *)
Lemma enum_init_arms_witness :
  exists cases,
    statementsOf (deriveBodyDecodable_enum_init sampleSema
                    pairEnum_synthesized)
    = decodePrelude sampleSema
        (decodingContainerDecl (synthesizedKeyEnum Id_CodingKeys ["pair"]))
        (synthesizedKeyEnum Id_CodingKeys ["pair"])
      ++ [SwitchNode allKeysFirst (cases ++ [defaultCase])] /\
    map fst cases
    = [CaseLabel (OptionalSomePattern
                    (EnumElementPattern (NominalType Id_CodingKeys) "pair"))].
Proof.
  exact (proj2 (@enum_init_arms sampleSema pairEnum_synthesized
                  (synthesizedKeyEnum Id_CodingKeys ["pair"])
                  (statementsOf (deriveBodyDecodable_enum_init sampleSema
                                   pairEnum_synthesized))
                  eq_refl eq_refl)
               eq_refl).
Defined.

(** [enum Move { case stop; case boost(speed: Int, extra: Int = 0);
    case pair(Int, Int) }]: the three kinds of arm and the default arm. *)
Lemma enum_init_arm_statements_witness :
  deriveBodyDecodable_enum_init sampleSema moveEnum
  = Some
      [PatternBindingNode
         (NamedPattern
            {| localIntroducer := Let;
               localName := "container";
               localInterfaceType := KeyedDecodingContainer
                 (NominalType "CodingKeys");
               localIsSynthesized := true |})
         (TryExpr
            (CallExpr
               (UnresolvedDotExpr
                  (DeclRefExpr "decoder")
                  (BaseIdentifier "container")
                  (Some ["keyedBy"]))
               [DotSelfExpr (TypeExpr (NominalType "CodingKeys"))]
               ["keyedBy"]));
       VarDeclNode
         {| localIntroducer := Let;
            localName := "container";
            localInterfaceType := KeyedDecodingContainer
              (NominalType "CodingKeys");
            localIsSynthesized := true |};
       SwitchNode
         (UnresolvedDotExpr
            (UnresolvedDotExpr
               (DeclRefExpr "container")
               (BaseIdentifier "allKeys")
               None)
            (BaseIdentifier "first")
            None)
         [(CaseLabel
             (OptionalSomePattern
                (EnumElementPattern (NominalType "CodingKeys") "stop")),
           [ExprNode
              (AssignExpr
                 (DeclRefExpr "self")
                 (MemberRefExpr (TypeExpr (NominalType "Move")) "stop"))]);
          (CaseLabel
             (OptionalSomePattern
                (EnumElementPattern (NominalType "CodingKeys") "boost")),
           [PatternBindingNode
              (NamedPattern
                 {| localIntroducer := Var;
                    localName := "nestedContainer";
                    localInterfaceType := KeyedDecodingContainer
                      (NominalType "CodingKeys_boost");
                    localIsSynthesized := true |})
              (TryExpr
                 (CallExpr
                    (UnresolvedDotExpr
                       (DeclRefExpr "container")
                       (BaseIdentifier "nestedContainer")
                       (Some ["keyedBy"; "forKey"]))
                    [DotSelfExpr
                       (TypeExpr (NominalType "CodingKeys_boost"));
                     MemberRefExpr
                       (TypeExpr (NominalType "CodingKeys"))
                       "boost"]
                    ["keyedBy"; "forKey"]));
            VarDeclNode
              {| localIntroducer := Var;
                 localName := "nestedContainer";
                 localInterfaceType := KeyedDecodingContainer
                   (NominalType "CodingKeys_boost");
                 localIsSynthesized := true |};
            ExprNode
              (AssignExpr
                 (DeclRefExpr "self")
                 (CallExpr
                    (UnresolvedDotExpr
                       (TypeExpr (NominalType "Move"))
                       (BaseIdentifier "boost")
                       (Some ["speed"; "extra"]))
                    [TryExpr
                       (CallExpr
                          (UnresolvedDotExpr
                             (DeclRefExpr "nestedContainer")
                             (BaseIdentifier "decode")
                             (Some [emptyIdentifier; "forKey"]))
                          [DotSelfExpr (TypeExpr (NominalType "Int"));
                           MemberRefExpr
                             (TypeExpr
                                (NominalType "CodingKeys_boost"))
                             "speed"]
                          [emptyIdentifier; "forKey"]);
                     TypeCheckedDefaultExpr "extra"]
                    ["speed"; "extra"]))]);
          (CaseLabel
             (OptionalSomePattern
                (EnumElementPattern (NominalType "CodingKeys") "pair")),
           [PatternBindingNode
              (NamedPattern
                 {| localIntroducer := Var;
                    localName := "nestedContainer";
                    localInterfaceType := UnkeyedDecodingContainer;
                    localIsSynthesized := false |})
              (TryExpr
                 (CallExpr
                    (UnresolvedDotExpr
                       (DeclRefExpr "container")
                       (BaseIdentifier "nestedUnkeyedContainer")
                       (Some ["forKey"]))
                    [MemberRefExpr
                       (TypeExpr (NominalType "CodingKeys"))
                       "pair"]
                    ["forKey"]));
            VarDeclNode
              {| localIntroducer := Var;
                 localName := "nestedContainer";
                 localInterfaceType := UnkeyedDecodingContainer;
                 localIsSynthesized := false |};
            ExprNode
              (AssignExpr
                 (DeclRefExpr "self")
                 (CallExpr
                    (UnresolvedDotExpr
                       (TypeExpr (NominalType "Move"))
                       (BaseIdentifier "pair")
                       (Some [emptyIdentifier; emptyIdentifier]))
                    [TryExpr
                       (CallExpr
                          (UnresolvedDotExpr
                             (DeclRefExpr "nestedContainer")
                             (BaseIdentifier "decode")
                             (Some [emptyIdentifier]))
                          [DotSelfExpr (TypeExpr (NominalType "Int"))]
                          [emptyIdentifier]);
                     TryExpr
                       (CallExpr
                          (UnresolvedDotExpr
                             (DeclRefExpr "nestedContainer")
                             (BaseIdentifier "decode")
                             (Some [emptyIdentifier]))
                          [DotSelfExpr (TypeExpr (NominalType "Int"))]
                          [emptyIdentifier])]
                    [emptyIdentifier; emptyIdentifier]))]);
          (DefaultLabel AnyPattern,
           [ExprNode
              (CallExpr
                 (DeclRefExpr "fatalError")
                 [StringLiteralExpr "foo"]
                 [emptyIdentifier])])]].
Proof.
  apply (@enum_init_arm_statements sampleSema moveEnum moveKeys eq_refl
           eq_refl).
  intros elt params Hin _ Hparams Hnamed. simpl in Hin.
  destruct Hin as [<-|[<-|[<-|[]]]];
    [discriminate Hparams | | discriminate Hnamed].
  injection Hparams as <-.
  exists boostKeys. split; [reflexivity|].
  intros p [<-|[<-|[]]] Hkey; [discriminate Hkey | reflexivity].
Defined.


(** S2: the body of [encode(to:)] of [record User] has four statements,
    two of them for the keys. *)
Lemma encode_statements_follow_keys_witness :
  length (statementsOf (deriveBodyEncodable_encode sampleSema userRecord))
  = 4 /\
  deriveBodyEncodable_encode sampleSema userRecord
  = Some
      [PatternBindingNode
         (NamedPattern
            {| localIntroducer := Var;
               localName := "container";
               localInterfaceType := KeyedEncodingContainer
                 (NominalType "CodingKeys");
               localIsSynthesized := true |})
         (CallExpr
            (UnresolvedDotExpr
               (DeclRefExpr "encoder")
               (BaseIdentifier "container")
               (Some ["keyedBy"]))
            [DotSelfExpr (TypeExpr (NominalType "CodingKeys"))]
            ["keyedBy"]);
       VarDeclNode
         {| localIntroducer := Var;
            localName := "container";
            localInterfaceType := KeyedEncodingContainer
              (NominalType "CodingKeys");
            localIsSynthesized := true |};
       ExprNode
         (TryExpr
            (CallExpr
               (UnresolvedDotExpr
                  (DeclRefExpr "container")
                  (BaseIdentifier "encode")
                  (Some [emptyIdentifier; "forKey"]))
               [MemberRefExpr (DeclRefExpr "self") "name";
                MemberRefExpr (TypeExpr (NominalType "CodingKeys")) "name"]
               [emptyIdentifier; "forKey"]));
       ExprNode
         (TryExpr
            (CallExpr
               (UnresolvedDotExpr
                  (DeclRefExpr "container")
                  (BaseIdentifier "encodeIfPresent")
                  (Some [emptyIdentifier; "forKey"]))
               [MemberRefExpr (DeclRefExpr "self") "nick";
                MemberRefExpr (TypeExpr (NominalType "CodingKeys")) "nick"]
               [emptyIdentifier; "forKey"]))].
Proof.
  destruct (@encode_statements_follow_keys sampleSema userRecord
              (userKeyEnum Id_CodingKeys ["name"; "nick"])
              (statementsOf (deriveBodyEncodable_encode sampleSema
                               userRecord))
              eq_refl eq_refl) as (members & _ & _ & Hlength).
  split; [exact Hlength | reflexivity].
Defined.

(** [record Config]: the constant [version] is not decoded, which is
    reported; [name] is. *)
Lemma init_statements_follow_keys_witness :
  (exists superStatements,
     fst (statementsAndDiagnosticsOf
            (deriveBodyDecodable_init sampleSema configRecord))
     = decodePrelude sampleSema (decodingContainerDecl configKeys) configKeys
       ++ [decodeMemberStatement containerRef
             (enumDeclaredInterfaceType configKeys) (userCase "name" None)
             (storedVar "name" String_) String_ false]
       ++ superStatements /\
     length superStatements <= 1 /\
     snd (statementsAndDiagnosticsOf
            (deriveBodyDecodable_init sampleSema configRecord))
     = [decodable_property_will_not_be_decoded "version";
        decodable_property_init_or_codingkeys_explicit "version";
        decodable_make_property_mutable "version"]) /\
  deriveBodyDecodable_init sampleSema configRecord
  = Some
      ([PatternBindingNode
          (NamedPattern
             {| localIntroducer := Let;
                localName := "container";
                localInterfaceType := KeyedDecodingContainer
                  (NominalType "CodingKeys");
                localIsSynthesized := true |})
          (TryExpr
             (CallExpr
                (UnresolvedDotExpr
                   (DeclRefExpr "decoder")
                   (BaseIdentifier "container")
                   (Some ["keyedBy"]))
                [DotSelfExpr (TypeExpr (NominalType "CodingKeys"))]
                ["keyedBy"]));
        VarDeclNode
          {| localIntroducer := Let;
             localName := "container";
             localInterfaceType := KeyedDecodingContainer
               (NominalType "CodingKeys");
             localIsSynthesized := true |};
        ExprNode
          (AssignExpr
             (UnresolvedDotExpr
                (DeclRefExpr "self")
                (BaseIdentifier "name")
                None)
             (TryExpr
                (CallExpr
                   (UnresolvedDotExpr
                      (DeclRefExpr "container")
                      (BaseIdentifier "decode")
                      (Some [emptyIdentifier; "forKey"]))
                   [DotSelfExpr (TypeExpr (NominalType "String"));
                    MemberRefExpr
                      (TypeExpr (NominalType "CodingKeys"))
                      "name"]
                   [emptyIdentifier; "forKey"])))],
       [decodable_property_will_not_be_decoded "version";
        decodable_property_init_or_codingkeys_explicit "version";
        decodable_make_property_mutable "version"]).
Proof.
  split; [|reflexivity].
  apply (@init_statements_follow_keys sampleSema configRecord configKeys).
  - reflexivity.
  - discriminate.
  - reflexivity.
Defined.

Lemma constant_warning_silenced_by_encodable_witness :
  getName (constantVar "version" Int) = "version" /\
  keyExistsInCodingKeys configKeys (constantVar "version" Int) = true.
Proof.
  destruct (@constant_warning_silenced_by_encodable sampleSema configRecord
              configKeys (userCase "version" None)
              (constantVar "version" Int) Int false)
    as (Hname & Hexists & _).
  - left. reflexivity.
  - reflexivity.
  - intros v backingVar [H|[H|[H|[]]]]; discriminate H.
  - split; [exact Hname | exact Hexists].
Defined.

(** [class Kitten : Base]: [super.init()] is called, without [try]. *)
Lemma accepted_superclass_init_is_called_witness :
  exists initializer,
    lookupMember sampleSema plainBase initNoArguments = [initializer] /\
    isDesignatedInit initializer = true /\
    isAccessibleFrom initializer = true /\
    isFailable initializer = false /\
    superInitStatement plainBase
    = Some (ExprNode
              (if hasThrows initializer
               then TryExpr (CallExpr (UnresolvedDotExpr SuperRefExpr
                                         BaseConstructor (Some [])) [] [])
               else CallExpr (UnresolvedDotExpr SuperRefExpr
                                BaseConstructor (Some [])) [] [])).
Proof.
  apply (@accepted_superclass_init_is_called sampleSema derivedKitten
           initFrom (subclassOf plainBase) plainBase
           (snd (fst (canSynthesize sampleSema derivedKitten initFrom))) []);
    reflexivity.
Defined.

(** S4: the two arms of [switch self] for [Shape]. *)
Lemma enum_encode_arms_witness :
  map caseLabelItem
      (encodeSwitchCases
         (encodeBodyOf (deriveBodyEncodable_enum_encode sampleSema
                          parametersOf shapeEnum_keyed)))
  = [CaseLabel (EnumElementPattern (NominalType "Shape") "circle");
     CaseLabel (EnumElementPattern (NominalType "Shape") "square")].
Proof.
  destruct (@enum_encode_arms sampleSema parametersOf shapeEnum_keyed
              shapeKeys
              (encodeBodyOf (deriveBodyEncodable_enum_encode sampleSema
                               parametersOf shapeEnum_keyed))
              eq_refl eq_refl) as (_ & _ & Hlabels & _).
  exact Hlabels.
Defined.

(** [case circle(radius: Double)]: one keyed call in the arm. *)
Lemma enum_encode_arm_statements_witness :
  length (statementsOf
            (encodeCaseStatements sampleSema shapeEnum_keyed shapeKeys
               containerRef circleCase (implicitElement "circle")
               (parametersOf circleCase)))
  = 3.
Proof.
  rewrite (proj2 (@enum_encode_arm_statements sampleSema shapeEnum_keyed
                    shapeKeys containerRef circleCase
                    (implicitElement "circle") (parametersOf circleCase))
                 eq_refl).
  reflexivity.
Defined.

Lemma enum_encode_and_init_arms_agree_witness :
  exists initCases,
    statementsOf (deriveBodyDecodable_enum_init sampleSema shapeEnum_keyed)
    = decodePrelude sampleSema (decodingContainerDecl shapeKeys) shapeKeys
      ++ [SwitchNode allKeysFirst (initCases ++ [defaultCase])] /\
    length initCases
    = length (encodeSwitchCases
                (encodeBodyOf (deriveBodyEncodable_enum_encode sampleSema
                                 parametersOf shapeEnum_keyed))).
Proof.
  destruct (@enum_encode_and_init_arms_agree sampleSema parametersOf
              shapeEnum_keyed shapeKeys
              (encodeBodyOf (deriveBodyEncodable_enum_encode sampleSema
                               parametersOf shapeEnum_keyed))
              (statementsOf (deriveBodyDecodable_enum_init sampleSema
                               shapeEnum_keyed))
              eq_refl eq_refl eq_refl eq_refl)
    as (initCases & Hbody & Hall).
  exists initCases. split; [exact Hbody|].
  symmetry. apply (Forall2_length Hall).
Defined.

(** [enum Light { case on }] with [CodingKeys = {on}] and no
    [CodingKeys_on]: decoded, not encoded. *)
Lemma parameterless_case_encode_needs_key_enum_witness :
  decodeCaseStatements sampleSema lightEnum lightKeys containerRef onCase
                       (userCase "on" None)
  = Some [ExprNode
            (AssignExpr createSelfDeclRef
               (MemberRefExpr (TypeExpr (NominalType "Light")) "on"))] /\
  deriveBodyEncodable_enum_encode sampleSema parametersOf lightEnum = None.
Proof.
  destruct (@parameterless_case_encode_needs_key_enum sampleSema parametersOf
              lightEnum lightKeys containerRef onCase (userCase "on" None))
    as [Hdecode Hencode].
  - reflexivity.
  - left. reflexivity.
  - reflexivity.
  - reflexivity.
  - split; [exact Hdecode | exact (Hencode eq_refl)].
Defined.

(** [enum Tag { case named(nick: String?) }]: [encodeIfPresent] on one
    side, [decode] of [String?] on the other, in the whole body of
    [init(from:)] too. *)
Lemma optional_payload_is_read_by_decode_witness :
  (exists decodeCalls,
     decodeKeyedParams sampleSema (nestedDecodingContainer namedKeys)
                       namedKeys [nickParam]
     = Some (decodeCalls, ["nick"]) /\
     In (ExprNode
           (TryExpr
              (CallExpr
                 (UnresolvedDotExpr
                    (DeclRefExpr "nestedContainer")
                    (BaseIdentifier "encodeIfPresent")
                    (Some [emptyIdentifier; "forKey"]))
                 [DeclRefExpr "nick";
                  MemberRefExpr
                    (TypeExpr (NominalType "CodingKeys_named"))
                    "nick"]
                 [emptyIdentifier; "forKey"])))
        (encodeKeyedPayload sampleSema (nestedDecodingContainer namedKeys)
                            namedKeys [nickParam]) /\
     In ((TryExpr
            (CallExpr
               (UnresolvedDotExpr
                  (DeclRefExpr "nestedContainer")
                  (BaseIdentifier "decode")
                  (Some [emptyIdentifier; "forKey"]))
               [DotSelfExpr
                  (TypeExpr (OptionalType (NominalType "String")));
                MemberRefExpr
                  (TypeExpr (NominalType "CodingKeys_named"))
                  "nick"]
               [emptyIdentifier; "forKey"])))
        decodeCalls) /\
  decodeKeyedParams sampleSema (nestedDecodingContainer namedKeys)
                    namedKeys [nickParam]
  = Some ([TryExpr
             (CallExpr
                (UnresolvedDotExpr
                   (DeclRefExpr "nestedContainer")
                   (BaseIdentifier "decode")
                   (Some [emptyIdentifier; "forKey"]))
                [DotSelfExpr
                   (TypeExpr (OptionalType (NominalType "String")));
                 MemberRefExpr
                   (TypeExpr (NominalType "CodingKeys_named"))
                   "nick"]
                [emptyIdentifier; "forKey"])],
          ["nick"]) /\
  encodeKeyedPayload sampleSema (nestedDecodingContainer namedKeys)
                     namedKeys [nickParam]
  = [ExprNode
       (TryExpr
          (CallExpr
             (UnresolvedDotExpr
                (DeclRefExpr "nestedContainer")
                (BaseIdentifier "encodeIfPresent")
                (Some [emptyIdentifier; "forKey"]))
             [DeclRefExpr "nick";
              MemberRefExpr
                (TypeExpr (NominalType "CodingKeys_named"))
                "nick"]
             [emptyIdentifier; "forKey"]))] /\
  deriveBodyDecodable_enum_init sampleSema tagEnum
  = Some
      [PatternBindingNode
         (NamedPattern
            {| localIntroducer := Let;
               localName := "container";
               localInterfaceType := KeyedDecodingContainer
                 (NominalType "CodingKeys");
               localIsSynthesized := true |})
         (TryExpr
            (CallExpr
               (UnresolvedDotExpr
                  (DeclRefExpr "decoder")
                  (BaseIdentifier "container")
                  (Some ["keyedBy"]))
               [DotSelfExpr (TypeExpr (NominalType "CodingKeys"))]
               ["keyedBy"]));
       VarDeclNode
         {| localIntroducer := Let;
            localName := "container";
            localInterfaceType := KeyedDecodingContainer
              (NominalType "CodingKeys");
            localIsSynthesized := true |};
       SwitchNode
         (UnresolvedDotExpr
            (UnresolvedDotExpr
               (DeclRefExpr "container")
               (BaseIdentifier "allKeys")
               None)
            (BaseIdentifier "first")
            None)
         [(CaseLabel
             (OptionalSomePattern
                (EnumElementPattern (NominalType "CodingKeys") "named")),
           [PatternBindingNode
              (NamedPattern
                 {| localIntroducer := Var;
                    localName := "nestedContainer";
                    localInterfaceType := KeyedDecodingContainer
                      (NominalType "CodingKeys_named");
                    localIsSynthesized := true |})
              (TryExpr
                 (CallExpr
                    (UnresolvedDotExpr
                       (DeclRefExpr "container")
                       (BaseIdentifier "nestedContainer")
                       (Some ["keyedBy"; "forKey"]))
                    [DotSelfExpr
                       (TypeExpr (NominalType "CodingKeys_named"));
                     MemberRefExpr
                       (TypeExpr (NominalType "CodingKeys"))
                       "named"]
                    ["keyedBy"; "forKey"]));
            VarDeclNode
              {| localIntroducer := Var;
                 localName := "nestedContainer";
                 localInterfaceType := KeyedDecodingContainer
                   (NominalType "CodingKeys_named");
                 localIsSynthesized := true |};
            ExprNode
              (AssignExpr
                 (DeclRefExpr "self")
                 (CallExpr
                    (UnresolvedDotExpr
                       (TypeExpr (NominalType "Tag"))
                       (BaseIdentifier "named")
                       (Some ["nick"]))
                    [TryExpr
                       (CallExpr
                          (UnresolvedDotExpr
                             (DeclRefExpr "nestedContainer")
                             (BaseIdentifier "decode")
                             (Some [emptyIdentifier; "forKey"]))
                          [DotSelfExpr
                             (TypeExpr
                                (OptionalType
                                   (NominalType "String")));
                           MemberRefExpr
                             (TypeExpr
                                (NominalType "CodingKeys_named"))
                             "nick"]
                          [emptyIdentifier; "forKey"])]
                    ["nick"]))]);
          (DefaultLabel AnyPattern,
           [ExprNode
              (CallExpr
                 (DeclRefExpr "fatalError")
                 [StringLiteralExpr "foo"]
                 [emptyIdentifier])])]].
Proof.
  assert (Hdefault : forall p, In p [nickParam] ->
             lookupEnumCase namedKeys (getName p) = None ->
             hasDefaultExpr p = true).
  { intros p [<-|[]] H. discriminate H. }
  destruct (@optional_payload_is_read_by_decode sampleSema
              (nestedDecodingContainer namedKeys) namedKeys [nickParam]
              Hdefault)
    as (decodeCalls & Hcalls & _ & _ & Hin).
  destruct (Hin nickParam String_ (or_introl eq_refl)
                ltac:(discriminate) eq_refl) as [Hencode Hdecode].
  split; [|split; [|split]]; try reflexivity.
  exists decodeCalls.
  split; [exact Hcalls|]. split; [exact Hencode | exact Hdecode].
Defined.


(** S1: [deriveEncodable] gives a witness for [Point], and nothing was
    reported. *)
Lemma cancelled_transaction_loses_no_diagnostic_witness :
  canSynthesize sampleSema derivedPoint encodeTo
  = (true, snd (fst (deriveEncodable sampleSema derivedPoint encodeTo)), []).
Proof.
  destruct (proj1 (@cancelled_transaction_loses_no_diagnostic sampleSema
                     derivedPoint encodeTo)
                  _ _ _ eq_refl) as (_ & Hcan & _).
  exact Hcan.
Defined.

(** S2: the keys [name] and [nick] of [record User]. *)
Lemma valid_key_enum_is_one_to_one_witness :
  NoDup (caseNames (userKeyEnum Id_CodingKeys ["name"; "nick"])) /\
  forall name,
    In name (caseNames (userKeyEnum Id_CodingKeys ["name"; "nick"])) ->
    exists varDecl,
      In varDecl (accessibleProperties derivedUser) /\
      getVarNameForCoding varDecl = name /\
      conformsToDerived sampleSema derivedUser varDecl = true.
Proof.
  apply (@valid_key_enum_is_one_to_one sampleSema derivedUser).
  reflexivity.
Defined.

Lemma valid_keys_give_bodies_witness :
  exists codingKeysEnum,
    lookupEvaluatedCodingKeysEnum (Nominal derivedUser) Id_CodingKeys
    = Some codingKeysEnum /\
    keysResolve sampleSema (Nominal derivedUser) codingKeysEnum /\
    (exists body,
       deriveBodyEncodable_encode sampleSema (Nominal derivedUser)
       = Some body) /\
    (exists statements diags,
       decodeMembers sampleSema (Nominal derivedUser) codingKeysEnum
                     containerRef
                     (enumDeclaredInterfaceType codingKeysEnum)
                     (enumAllElements codingKeysEnum)
       = Some (statements, diags)).
Proof.
  apply (@valid_keys_give_bodies sampleSema derivedUser).
  - reflexivity.
  - reflexivity.
  - intros varDecl [<-|[<-|[]]]; discriminate.
Defined.
